(** * ThreadLoop: the seamless loop playback engines

    A shallow embedding of the three playback engines of the repository
    and the properties their specification states about them:

    - [LoopProcessor]   public/loop-processor.js, the audio-worklet
      processor that produces every output sample from a fractional
      cursor;
    - [WebAudioLooper]  the buffer-scheduling looper defined at the top of
      the player interface component;
    - [NativeAudioLooperImpl]  the Swift engine of the iOS plugin;

    and of what surrounds them:

    - [AudioWorkletLooper]  the facade that drives the processor over its
      message port;
    - [WaveformWorker]  the worker that reduces the asset to peaks;
    - [PlayerInterface]  the tap-tempo, speed-ramp and loop-marker
      handlers of the player component;
    - [ThrottledState], [PointerActionGuard]  two hooks the component
      uses.

    Numbers.  JavaScript numbers and Swift [Double]s are modelled as exact
    rationals ([Q]): every arithmetic operation of the source is the exact
    one, without rounding, infinities or NaN; a division or a remainder
    by zero follows the conventions of [Q] and [Z], and no property below
    rests on such a value.  The samples blended by the
    native crossfade are real numbers ([R]), because the blend uses the
    cosine and the sine.  Equalities between rationals are stated with
    [==] ([Qeq]). *)

From Stdlib Require Import ZArith QArith Qround Qminmax Qabs Qpower Reals Qreals.
From Stdlib Require Import Lia Psatz List Bool.
From stdpp Require Import base list.
Import ListNotations.

Local Open Scope Q_scope.

(** ** JavaScript arithmetic on numbers *)

Module JS.

(** [Math.floor]. *)
Definition floor (x : Q) : Z := Qfloor x.

(** Truncation toward zero, the integer part taken by [%]. *)
Definition trunc (x : Q) : Z :=
  if Qle_bool 0 x then Qfloor x else Qceiling x.

(** The [%] operator: the remainder has the sign of the dividend. *)
Definition rem (x y : Q) : Q := x - y * inject_Z (trunc (x / y)).

(** The mathematical (floored) modulo the specification writes as
    [mod]. *)
Definition modulo (x y : Q) : Q := x - y * inject_Z (Qfloor (x / y)).

Definition max (x y : Q) : Q := Qmax x y.
Definition min (x y : Q) : Q := Qmin x y.

Definition ltb (x y : Q) : bool := negb (Qle_bool y x).
Definition leb (x y : Q) : bool := Qle_bool x y.
Definition geb (x y : Q) : bool := Qle_bool y x.
Definition gtb (x y : Q) : bool := negb (Qle_bool x y).

(** Exceptions a callback of the engines can raise. *)
Inductive exn : Type :=
| TypeError
| IndexSizeError
| RangeError
| InvalidStateError.

(** Result of a computation that may throw. *)
Inductive res (A : Type) : Type :=
| Ok (a : A)
| Throw (e : exn).
Arguments Ok {A} a.
Arguments Throw {A} e.

Definition bind {A B} (m : res A) (k : A -> res B) : res B :=
  match m with
  | Ok a => k a
  | Throw e => Throw e
  end.

(** [for (x of l) s = body x s], stopping at the first exception. *)
Fixpoint for_each {X S} (l : list X) (body : X -> S -> res S) (s : S)
  : res S :=
  match l with
  | [] => Ok s
  | x :: l' => bind (body x s) (for_each l' body)
  end.

(** Reading a typed array at an integer-valued index: [None] stands for
    [undefined], the value of a read outside the array. *)
Definition index (d : list Q) (i : Z) : option Q :=
  if (i <? 0)%Z then None else d !! Z.to_nat i.

(** [v || 0]. *)
Definition or_zero (v : option Q) : Q :=
  match v with
  | Some x => x
  | None => 0
  end.

End JS.

Notation "'do' x <- m ; k" := (JS.bind m (fun x => k))
  (at level 10, x name, m at level 100, k at level 200).

(** ** The sample-accurate loop processor (public/loop-processor.js) *)

Module LoopProcessor.
Import JS.

(** The decoded asset handed over by [SET_BUFFER]. *)
Record AudioBuffer : Type := {
  numberOfChannels : nat;
  length : Z;
  channels : list (list Q)
}.

(** An [AudioBuffer] of the platform has [numberOfChannels] channels of
    [length] samples each. *)
Definition wf_buffer (b : AudioBuffer) : Prop :=
  List.length (channels b) = numberOfChannels b /\
  (0 <= length b)%Z /\
  Forall (fun d => Z.of_nat (List.length d) = length b) (channels b).

(** [getChannelData] raises [IndexSizeError] for a channel the buffer
    does not have. *)
Definition getChannelData (b : AudioBuffer) (channel : nat)
  : res (list Q) :=
  match channels b !! channel with
  | Some d => Ok d
  | None => Throw IndexSizeError
  end.

Record t : Type := {
  sampleRate : Q;
  isPlaying : bool;
  isLooping : bool;
  playbackRate : Q;
  volume : Q;
  loopStartSample : Q;
  loopEndSample : Q;
  currentSample : Q;
  audioBuffer : option AudioBuffer;
  bufferChannels : nat;
  bufferLength : Z
}.

Definition init (sr : Q) : t := {|
  sampleRate := sr;
  isPlaying := false;
  isLooping := false;
  playbackRate := 1;
  volume := 1;
  loopStartSample := 0;
  loopEndSample := 0;
  currentSample := 0;
  audioBuffer := None;
  bufferChannels := 0;
  bufferLength := 0
|}.

Definition set_currentSample (c : Q) (p : t) : t := {|
  sampleRate := sampleRate p;
  isPlaying := isPlaying p;
  isLooping := isLooping p;
  playbackRate := playbackRate p;
  volume := volume p;
  loopStartSample := loopStartSample p;
  loopEndSample := loopEndSample p;
  currentSample := c;
  audioBuffer := audioBuffer p;
  bufferChannels := bufferChannels p;
  bufferLength := bufferLength p
|}.

Definition set_isPlaying (b : bool) (p : t) : t := {|
  sampleRate := sampleRate p;
  isPlaying := b;
  isLooping := isLooping p;
  playbackRate := playbackRate p;
  volume := volume p;
  loopStartSample := loopStartSample p;
  loopEndSample := loopEndSample p;
  currentSample := currentSample p;
  audioBuffer := audioBuffer p;
  bufferChannels := bufferChannels p;
  bufferLength := bufferLength p
|}.

Definition setBuffer (bufferData : AudioBuffer) (p : t) : t := {|
  sampleRate := sampleRate p;
  isPlaying := isPlaying p;
  isLooping := isLooping p;
  playbackRate := playbackRate p;
  volume := volume p;
  loopStartSample := loopStartSample p;
  loopEndSample := loopEndSample p;
  currentSample := currentSample p;
  audioBuffer := Some bufferData;
  bufferChannels := numberOfChannels bufferData;
  bufferLength := length bufferData
|}.

Definition play (p : t) : t := set_isPlaying true p.
Definition pause (p : t) : t := set_isPlaying false p.

Definition seek (sample : Q) (p : t) : t :=
  set_currentSample
    (max 0 (min sample (inject_Z (bufferLength p - 1)))) p.

Definition setLoopPoints (startSample endSample : Q) (p : t) : t := {|
  sampleRate := sampleRate p;
  isPlaying := isPlaying p;
  isLooping := isLooping p;
  playbackRate := playbackRate p;
  volume := volume p;
  loopStartSample := startSample;
  loopEndSample := endSample;
  currentSample := currentSample p;
  audioBuffer := audioBuffer p;
  bufferChannels := bufferChannels p;
  bufferLength := bufferLength p
|}.

Definition setLooping (enabled : bool) (p : t) : t := {|
  sampleRate := sampleRate p;
  isPlaying := isPlaying p;
  isLooping := enabled;
  playbackRate := playbackRate p;
  volume := volume p;
  loopStartSample := loopStartSample p;
  loopEndSample := loopEndSample p;
  currentSample := currentSample p;
  audioBuffer := audioBuffer p;
  bufferChannels := bufferChannels p;
  bufferLength := bufferLength p
|}.

Definition setPlaybackRate (rate : Q) (p : t) : t := {|
  sampleRate := sampleRate p;
  isPlaying := isPlaying p;
  isLooping := isLooping p;
  playbackRate := rate;
  volume := volume p;
  loopStartSample := loopStartSample p;
  loopEndSample := loopEndSample p;
  currentSample := currentSample p;
  audioBuffer := audioBuffer p;
  bufferChannels := bufferChannels p;
  bufferLength := bufferLength p
|}.

Definition setVolume (v : Q) (p : t) : t := {|
  sampleRate := sampleRate p;
  isPlaying := isPlaying p;
  isLooping := isLooping p;
  playbackRate := playbackRate p;
  volume := v;
  loopStartSample := loopStartSample p;
  loopEndSample := loopEndSample p;
  currentSample := currentSample p;
  audioBuffer := audioBuffer p;
  bufferChannels := bufferChannels p;
  bufferLength := bufferLength p
|}.

(** Messages received on the port. *)
Inductive command : Type :=
| SET_BUFFER (buffer : AudioBuffer)
| PLAY
| PAUSE
| SEEK (sample : Q)
| SET_LOOP_POINTS (startSample endSample : Q)
| SET_LOOPING (enabled : bool)
| SET_PLAYBACK_RATE (rate : Q)
| SET_VOLUME (volume : Q)
| GET_CURRENT_TIME.

(** What the processor emits: messages posted on the port and the debug
    line written at every loop jump. *)
Inductive effect : Type :=
| CURRENT_TIME (sample time : Q)
| TIME_UPDATE (sample time : Q)
| LoopLog (fromInt toInt : Z) (exact : Q).

Definition handleMessage (data : command) (p : t) : t * list effect :=
  match data with
  | SET_BUFFER b => (setBuffer b p, [])
  | PLAY => (play p, [])
  | PAUSE => (pause p, [])
  | SEEK s => (seek s p, [])
  | SET_LOOP_POINTS s e => (setLoopPoints s e p, [])
  | SET_LOOPING b => (setLooping b p, [])
  | SET_PLAYBACK_RATE r => (setPlaybackRate r p, [])
  | SET_VOLUME v => (setVolume v p, [])
  | GET_CURRENT_TIME =>
      (p, [CURRENT_TIME (currentSample p)
             (currentSample p / sampleRate p)])
  end.

(** [getInterpolatedSample(sampleIndex, fraction, channel)]. *)
Definition getInterpolatedSample (p : t) (sampleIndex : Z) (fraction : Q)
    (channel : nat) : res Q :=
  match audioBuffer p with
  | None => Ok 0
  | Some b =>
      if (sampleIndex >=? bufferLength p - 1)%Z then Ok 0
      else
        do channelData <- getChannelData b channel ;
        let sample1 := or_zero (index channelData sampleIndex) in
        let sample2 := or_zero (index channelData (sampleIndex + 1)) in
        Ok (sample1 + (sample2 - sample1) * fraction)
  end.

(** One output block: a list of channels, each a list of frames. *)
Abbreviation block := (list (list Q)).

(** [output[channel][sample] = v]; a typed array ignores a write past
    its end. *)
Definition write (output : block) (channel sample : nat) (v : Q)
  : block :=
  alter (fun d => <[sample := v]> d) channel output.

(** The position the cursor jumps to at the loop boundary. *)
Definition wrapCursor (p : t) : Q :=
  let loopLength := loopEndSample p - loopStartSample p in
  loopStartSample p + rem (currentSample p - loopEndSample p) loopLength.

(** The test of the loop boundary. *)
Definition atLoopEnd (p : t) : bool :=
  isLooping p && gtb (loopEndSample p) 0
  && geb (inject_Z (floor (currentSample p))) (loopEndSample p).

(** Body of the per-frame loop of [process]. *)
Definition frame (channelCount : nat) (sample : nat)
    (s : t * block * list effect) : res (t * block * list effect) :=
  let '(p, output, log) := s in
  let currentSampleInt := floor (currentSample p) in
  let fraction := currentSample p - inject_Z currentSampleInt in
  do r <-
    (if atLoopEnd p then
       let p' := set_currentSample (wrapCursor p) p in
       let newSampleInt := floor (currentSample p') in
       let newFraction := currentSample p' - inject_Z newSampleInt in
       do output' <-
         for_each (seq 0 channelCount)
           (fun channel out =>
              do channelSample <-
                getInterpolatedSample p' newSampleInt newFraction channel ;
              Ok (write out channel sample (channelSample * volume p')))
           output ;
       Ok (p', output',
           log ++ [LoopLog currentSampleInt newSampleInt (currentSample p')])
     else if (currentSampleInt <? bufferLength p)%Z then
       do output' <-
         for_each (seq 0 channelCount)
           (fun channel out =>
              do channelSample <-
                getInterpolatedSample p currentSampleInt fraction channel ;
              Ok (write out channel sample (channelSample * volume p)))
           output ;
       Ok (p, output', log)
     else
       do output' <-
         for_each (seq 0 channelCount)
           (fun channel out => Ok (write out channel sample 0))
           output ;
       Ok (p, output', log)) ;
  let '(p1, output1, log1) := r in
  Ok (set_currentSample (currentSample p1 + playbackRate p1) p1,
      output1, log1).

(** [process(inputs, outputs, parameters)]: the new processor state, the
    new [outputs], what was emitted and the returned flag. *)
Definition process (p : t) (outputs : list block)
  : res (t * list block * list effect * bool) :=
  if negb (isPlaying p) then Ok (p, outputs, [], true)
  else match audioBuffer p with
  | None => Ok (p, outputs, [], true)
  | Some _ =>
      match outputs with
      | [] => Throw TypeError
      | output :: others =>
          match output with
          | [] => Ok (p, outputs, [], true)
          | first :: _ =>
              let outputLength := List.length first in
              let channelCount :=
                Nat.min (List.length output) (bufferChannels p) in
              do r <- for_each (seq 0 outputLength) (frame channelCount)
                     (p, output, []) ;
              let '(p', output', log) := r in
              let sent :=
                if (floor (currentSample p' / sampleRate p' * 10)
                    =? floor ((currentSample p'
                               - inject_Z (Z.of_nat outputLength)
                                 * playbackRate p')
                              / sampleRate p' * 10))%Z
                then []
                else [TIME_UPDATE (currentSample p')
                        (currentSample p' / sampleRate p')] in
              Ok (p', output' :: others, log ++ sent, true)
          end
      end
  end.

(** The invariant [setBuffer] establishes between the processor's
    fields and the asset it holds. *)
Definition wf (p : t) : Prop :=
  match audioBuffer p with
  | Some b =>
      wf_buffer b /\
      bufferChannels p = numberOfChannels b /\
      bufferLength p = length b
  | None => True
  end.


(** *** A session of the processor

    A mono asset of eight samples.  [demoWrap] loops the samples 2 to 6
    and has the cursor at 7.5, past the loop end; [demoReverse] was
    given the rate -2 and has processed one frame. *)
Definition demoBuffer : AudioBuffer :=
  {| numberOfChannels := 1; length := 8;
     channels := [[0; 1 # 8; 2 # 8; 3 # 8; 4 # 8; 5 # 8; 6 # 8; 7 # 8]] |}.

Definition after (cs : list command) (p : t) : t :=
  fold_left (fun q c => fst (handleMessage c q)) cs p.

Definition demoWrap : t :=
  set_currentSample (15 # 2)
    (after [SET_BUFFER demoBuffer; SET_LOOP_POINTS 2 6; SET_LOOPING true;
            PLAY] (init 44100)).

Definition demoReverse : t :=
  match process
          (after [SET_BUFFER demoBuffer; SET_PLAYBACK_RATE (-2); PLAY]
             (init 44100))
          [[[0]]] with
  | Ok (p, _, _, _) => p
  | Throw _ => init 44100
  end.

(** *** The rest of the processor *)

(** [this.crossfadeSamples]: set by the constructor from the sample rate
    and never assigned again. *)
Definition crossfadeSamples (p : t) : Z :=
  floor (sampleRate p * (1 # 1000)).

(** [applyCrossfade(outputSample, loopSample, fadePosition)]. *)
Definition applyCrossfade (p : t) (outputSample loopSample fadePosition : Q)
  : Q :=
  let fadeRatio := fadePosition / inject_Z (crossfadeSamples p) in
  outputSample * (1 - fadeRatio) + loopSample * fadeRatio.

(** The position a frame reads the asset at: the wrapped cursor at the
    loop boundary, the cursor otherwise. *)
Definition readPosition (p : t) : Q :=
  if atLoopEnd p then wrapCursor p else currentSample p.

(** What the processor receives over its life: a message on the port or
    a call of [process] by the host. *)
Inductive input : Type :=
| Message (data : command)
| Render (outputs : list block).

(** A life of the processor: the final state, the blocks rendered and
    everything emitted, in order; the first exception ends it. *)
Fixpoint session (ins : list input) (p : t)
  : res (t * list (list block) * list effect) :=
  match ins with
  | [] => Ok (p, [], [])
  | Message data :: ins' =>
      let '(p1, sent) := handleMessage data p in
      do r <- session ins' p1 ;
      let '(p', rendered, log) := r in
      Ok (p', rendered, sent ++ log)
  | Render outputs :: ins' =>
      do r1 <- process p outputs ;
      let '(p1, outputs', sent, _) := r1 in
      do r <- session ins' p1 ;
      let '(p', rendered, log) := r in
      Ok (p', outputs' :: rendered, sent ++ log)
  end.

(** Number of calls of [process] in a session. *)
Fixpoint renders (ins : list input) : nat :=
  match ins with
  | [] => O
  | Message _ :: ins' => renders ins'
  | Render _ :: ins' => S (renders ins')
  end.

(** The inputs the platform can deliver: a buffer received is one of its
    [AudioBuffer]s and [process] is given at least one output. *)
Definition admissible (i : input) : Prop :=
  match i with
  | Message (SET_BUFFER b) => wf_buffer b
  | Message _ => True
  | Render outputs => outputs <> []
  end.

(** Two blocks of the same shape: as many channels, of the same
    lengths. *)
Definition sameShape (o o' : block) : Prop :=
  List.length o' = List.length o /\
  forall ch, List.length <$> o' !! ch = List.length <$> o !! ch.

(** A session: the demo asset is loaded, played for one block of two
    frames, sought back and looped. *)
Definition demoInputs : list input :=
  [Message (SET_BUFFER demoBuffer); Message PLAY; Render [[[0; 0]]];
   Message (SEEK 3); Message (SET_LOOP_POINTS 2 6); Message (SET_LOOPING true);
   Render [[[0; 0]; [0; 0]]]; Message GET_CURRENT_TIME].

(** The demo asset playing from its start, not looping. *)
Definition demoPlain : t :=
  after [SET_BUFFER demoBuffer; PLAY] (init 44100).

End LoopProcessor.

(** ** Binary floating point *)

(** Rounding to the nearest number with [prec] bits of precision whose
    unit in the last place is at least [2 ^ emin], ties to the even
    one: the rounding of every IEEE 754 operation, on the finite range
    (no overflow to an infinity, no NaN). *)
Module IEEE.

(** The binary exponent of a rational other than 0: the [e] with
    [2 ^ e <= |x| < 2 ^ (e + 1)]. *)
Definition ilog2 (x : Q) : Z :=
  let e := (Z.log2 (Z.abs (Qnum x)) - Z.log2 (Zpos (Qden x)))%Z in
  if Qle_bool (2 ^ e) (Qabs x) then e else (e - 1)%Z.

Definition nearestEven (x : Q) : Z :=
  let f := Qfloor x in
  match Qcompare (x - inject_Z f) (1 # 2) with
  | Lt => f
  | Gt => (f + 1)%Z
  | Eq => if Z.even f then f else (f + 1)%Z
  end.

Definition round (prec emin : Z) (x : Q) : Q :=
  let x := Qred x in
  if Qeq_bool x 0 then 0
  else
    let e := Z.max (ilog2 x - (prec - 1)) emin in
    Qred (inject_Z (nearestEven (x / 2 ^ e)) * 2 ^ e).

(** binary64, the numbers of JavaScript and Swift's [Double]. *)
Definition double : Q -> Q := round 53 (-1074).

(** binary32, Swift's [Float]. *)
Definition float : Q -> Q := round 24 (-149).

End IEEE.

(** ** Swift's [Float]

    A [Float] is the rational it stands for; each operation rounds the
    exact result.  [cosf] and [sinf] belong to the platform's C library,
    which is not part of the repository: they are a parameter, [libm]. *)
Module Float.

Definition mul (x y : Q) : Q := IEEE.float (x * y).
Definition add (x y : Q) : Q := IEEE.float (x + y).
Definition div (x y : Q) : Q := IEEE.float (x / y).

(** [Float(n)] for an integer [n]. *)
Definition ofInt (n : Z) : Q := IEEE.float (inject_Z n).

(** [Float.pi]: pi rounded toward zero, 0x40490FDA. *)
Definition pi : Q := 13176794 # 4194304.

Record libm : Type := {
  cosf : Q -> Q;
  sinf : Q -> Q
}.

(** The terms and the partial sums of the cosine and sine series. *)
Fixpoint cosTerm (x : Q) (i : nat) : Q :=
  match i with
  | O => 1
  | S j =>
      - cosTerm x j * (x * x)
      / inject_Z (Z.of_nat (2 * j + 1) * Z.of_nat (2 * j + 2))
  end.

Fixpoint sinTerm (x : Q) (i : nat) : Q :=
  match i with
  | O => x
  | S j =>
      - sinTerm x j * (x * x)
      / inject_Z (Z.of_nat (2 * j + 2) * Z.of_nat (2 * j + 3))
  end.

Fixpoint sum (term : nat -> Q) (n : nat) : Q :=
  match n with
  | O => term O
  | S m => sum term m + term (S m)
  end.

(** One such library: it rounds the sum of the series up to the powers
    20 and 21, which on [[0, 2]] lies within [5e-13] of the function. *)
Definition series : libm :=
  {| cosf := fun x => IEEE.float (Qred (sum (cosTerm x) 10));
     sinf := fun x => IEEE.float (Qred (sum (sinTerm x) 10)) |}.



End Float.


(** ** The worklet facade (class [AudioWorkletLooper]) *)

Module AudioWorkletLooper.
Import JS.

(** What [decodeAudioData] returns: the rate of the decoded asset and
    the buffer the processor is sent. *)
Record DecodedAudio : Type := {
  bufferRate : Q;
  samples : LoopProcessor.AudioBuffer
}.

(** [audioBuffer.duration]. *)
Definition duration (a : DecodedAudio) : Q :=
  inject_Z (LoopProcessor.length (samples a)) / bufferRate a.

(** The fields of the class, then the platform objects it drives: whether
    the context is suspended, the gain, the times passed to the
    subscriber and the number of errors reported to it. *)
Record t : Type := {
  audioContext : bool;
  workletNode : bool;
  gainNode : bool;
  audioBuffer : option DecodedAudio;
  isSupported : bool;
  isInitialized : bool;
  currentTime : Q;
  isPlaying : bool;
  isLooping : bool;
  playbackRate : Q;
  volume : Q;
  loopStartTime : Q;
  loopEndTime : Q;
  onTimeUpdate : bool;
  onError : bool;
  suspended : bool;
  gain : Q;
  reported : list Q;
  errors : nat
}.

Definition set_audioContext (v : bool) (x : t) : t :=
  {| audioContext := v; workletNode := workletNode x;
     gainNode := gainNode x; audioBuffer := audioBuffer x;
     isSupported := isSupported x; isInitialized := isInitialized x;
     currentTime := currentTime x; isPlaying := isPlaying x;
     isLooping := isLooping x; playbackRate := playbackRate x;
     volume := volume x; loopStartTime := loopStartTime x;
     loopEndTime := loopEndTime x; onTimeUpdate := onTimeUpdate x;
     onError := onError x; suspended := suspended x; gain := gain x;
     reported := reported x; errors := errors x |}.

Definition set_workletNode (v : bool) (x : t) : t :=
  {| audioContext := audioContext x; workletNode := v;
     gainNode := gainNode x; audioBuffer := audioBuffer x;
     isSupported := isSupported x; isInitialized := isInitialized x;
     currentTime := currentTime x; isPlaying := isPlaying x;
     isLooping := isLooping x; playbackRate := playbackRate x;
     volume := volume x; loopStartTime := loopStartTime x;
     loopEndTime := loopEndTime x; onTimeUpdate := onTimeUpdate x;
     onError := onError x; suspended := suspended x; gain := gain x;
     reported := reported x; errors := errors x |}.

Definition set_gainNode (v : bool) (x : t) : t :=
  {| audioContext := audioContext x; workletNode := workletNode x;
     gainNode := v; audioBuffer := audioBuffer x;
     isSupported := isSupported x; isInitialized := isInitialized x;
     currentTime := currentTime x; isPlaying := isPlaying x;
     isLooping := isLooping x; playbackRate := playbackRate x;
     volume := volume x; loopStartTime := loopStartTime x;
     loopEndTime := loopEndTime x; onTimeUpdate := onTimeUpdate x;
     onError := onError x; suspended := suspended x; gain := gain x;
     reported := reported x; errors := errors x |}.

Definition set_audioBuffer (v : option DecodedAudio) (x : t) : t :=
  {| audioContext := audioContext x; workletNode := workletNode x;
     gainNode := gainNode x; audioBuffer := v;
     isSupported := isSupported x; isInitialized := isInitialized x;
     currentTime := currentTime x; isPlaying := isPlaying x;
     isLooping := isLooping x; playbackRate := playbackRate x;
     volume := volume x; loopStartTime := loopStartTime x;
     loopEndTime := loopEndTime x; onTimeUpdate := onTimeUpdate x;
     onError := onError x; suspended := suspended x; gain := gain x;
     reported := reported x; errors := errors x |}.

Definition set_isInitialized (v : bool) (x : t) : t :=
  {| audioContext := audioContext x; workletNode := workletNode x;
     gainNode := gainNode x; audioBuffer := audioBuffer x;
     isSupported := isSupported x; isInitialized := v;
     currentTime := currentTime x; isPlaying := isPlaying x;
     isLooping := isLooping x; playbackRate := playbackRate x;
     volume := volume x; loopStartTime := loopStartTime x;
     loopEndTime := loopEndTime x; onTimeUpdate := onTimeUpdate x;
     onError := onError x; suspended := suspended x; gain := gain x;
     reported := reported x; errors := errors x |}.

Definition set_currentTime (v : Q) (x : t) : t :=
  {| audioContext := audioContext x; workletNode := workletNode x;
     gainNode := gainNode x; audioBuffer := audioBuffer x;
     isSupported := isSupported x; isInitialized := isInitialized x;
     currentTime := v; isPlaying := isPlaying x; isLooping := isLooping x;
     playbackRate := playbackRate x; volume := volume x;
     loopStartTime := loopStartTime x; loopEndTime := loopEndTime x;
     onTimeUpdate := onTimeUpdate x; onError := onError x;
     suspended := suspended x; gain := gain x; reported := reported x;
     errors := errors x |}.

Definition set_isPlaying (v : bool) (x : t) : t :=
  {| audioContext := audioContext x; workletNode := workletNode x;
     gainNode := gainNode x; audioBuffer := audioBuffer x;
     isSupported := isSupported x; isInitialized := isInitialized x;
     currentTime := currentTime x; isPlaying := v;
     isLooping := isLooping x; playbackRate := playbackRate x;
     volume := volume x; loopStartTime := loopStartTime x;
     loopEndTime := loopEndTime x; onTimeUpdate := onTimeUpdate x;
     onError := onError x; suspended := suspended x; gain := gain x;
     reported := reported x; errors := errors x |}.

Definition set_isLooping (v : bool) (x : t) : t :=
  {| audioContext := audioContext x; workletNode := workletNode x;
     gainNode := gainNode x; audioBuffer := audioBuffer x;
     isSupported := isSupported x; isInitialized := isInitialized x;
     currentTime := currentTime x; isPlaying := isPlaying x;
     isLooping := v; playbackRate := playbackRate x; volume := volume x;
     loopStartTime := loopStartTime x; loopEndTime := loopEndTime x;
     onTimeUpdate := onTimeUpdate x; onError := onError x;
     suspended := suspended x; gain := gain x; reported := reported x;
     errors := errors x |}.

Definition set_playbackRate (v : Q) (x : t) : t :=
  {| audioContext := audioContext x; workletNode := workletNode x;
     gainNode := gainNode x; audioBuffer := audioBuffer x;
     isSupported := isSupported x; isInitialized := isInitialized x;
     currentTime := currentTime x; isPlaying := isPlaying x;
     isLooping := isLooping x; playbackRate := v; volume := volume x;
     loopStartTime := loopStartTime x; loopEndTime := loopEndTime x;
     onTimeUpdate := onTimeUpdate x; onError := onError x;
     suspended := suspended x; gain := gain x; reported := reported x;
     errors := errors x |}.

Definition set_volume (v : Q) (x : t) : t :=
  {| audioContext := audioContext x; workletNode := workletNode x;
     gainNode := gainNode x; audioBuffer := audioBuffer x;
     isSupported := isSupported x; isInitialized := isInitialized x;
     currentTime := currentTime x; isPlaying := isPlaying x;
     isLooping := isLooping x; playbackRate := playbackRate x; volume := v;
     loopStartTime := loopStartTime x; loopEndTime := loopEndTime x;
     onTimeUpdate := onTimeUpdate x; onError := onError x;
     suspended := suspended x; gain := gain x; reported := reported x;
     errors := errors x |}.

Definition set_loopStartTime (v : Q) (x : t) : t :=
  {| audioContext := audioContext x; workletNode := workletNode x;
     gainNode := gainNode x; audioBuffer := audioBuffer x;
     isSupported := isSupported x; isInitialized := isInitialized x;
     currentTime := currentTime x; isPlaying := isPlaying x;
     isLooping := isLooping x; playbackRate := playbackRate x;
     volume := volume x; loopStartTime := v; loopEndTime := loopEndTime x;
     onTimeUpdate := onTimeUpdate x; onError := onError x;
     suspended := suspended x; gain := gain x; reported := reported x;
     errors := errors x |}.

Definition set_loopEndTime (v : Q) (x : t) : t :=
  {| audioContext := audioContext x; workletNode := workletNode x;
     gainNode := gainNode x; audioBuffer := audioBuffer x;
     isSupported := isSupported x; isInitialized := isInitialized x;
     currentTime := currentTime x; isPlaying := isPlaying x;
     isLooping := isLooping x; playbackRate := playbackRate x;
     volume := volume x; loopStartTime := loopStartTime x;
     loopEndTime := v; onTimeUpdate := onTimeUpdate x;
     onError := onError x; suspended := suspended x; gain := gain x;
     reported := reported x; errors := errors x |}.

Definition set_onTimeUpdate (v : bool) (x : t) : t :=
  {| audioContext := audioContext x; workletNode := workletNode x;
     gainNode := gainNode x; audioBuffer := audioBuffer x;
     isSupported := isSupported x; isInitialized := isInitialized x;
     currentTime := currentTime x; isPlaying := isPlaying x;
     isLooping := isLooping x; playbackRate := playbackRate x;
     volume := volume x; loopStartTime := loopStartTime x;
     loopEndTime := loopEndTime x; onTimeUpdate := v; onError := onError x;
     suspended := suspended x; gain := gain x; reported := reported x;
     errors := errors x |}.

Definition set_onError (v : bool) (x : t) : t :=
  {| audioContext := audioContext x; workletNode := workletNode x;
     gainNode := gainNode x; audioBuffer := audioBuffer x;
     isSupported := isSupported x; isInitialized := isInitialized x;
     currentTime := currentTime x; isPlaying := isPlaying x;
     isLooping := isLooping x; playbackRate := playbackRate x;
     volume := volume x; loopStartTime := loopStartTime x;
     loopEndTime := loopEndTime x; onTimeUpdate := onTimeUpdate x;
     onError := v; suspended := suspended x; gain := gain x;
     reported := reported x; errors := errors x |}.

Definition set_suspended (v : bool) (x : t) : t :=
  {| audioContext := audioContext x; workletNode := workletNode x;
     gainNode := gainNode x; audioBuffer := audioBuffer x;
     isSupported := isSupported x; isInitialized := isInitialized x;
     currentTime := currentTime x; isPlaying := isPlaying x;
     isLooping := isLooping x; playbackRate := playbackRate x;
     volume := volume x; loopStartTime := loopStartTime x;
     loopEndTime := loopEndTime x; onTimeUpdate := onTimeUpdate x;
     onError := onError x; suspended := v; gain := gain x;
     reported := reported x; errors := errors x |}.

Definition set_gain (v : Q) (x : t) : t :=
  {| audioContext := audioContext x; workletNode := workletNode x;
     gainNode := gainNode x; audioBuffer := audioBuffer x;
     isSupported := isSupported x; isInitialized := isInitialized x;
     currentTime := currentTime x; isPlaying := isPlaying x;
     isLooping := isLooping x; playbackRate := playbackRate x;
     volume := volume x; loopStartTime := loopStartTime x;
     loopEndTime := loopEndTime x; onTimeUpdate := onTimeUpdate x;
     onError := onError x; suspended := suspended x; gain := v;
     reported := reported x; errors := errors x |}.

Definition set_reported (v : list Q) (x : t) : t :=
  {| audioContext := audioContext x; workletNode := workletNode x;
     gainNode := gainNode x; audioBuffer := audioBuffer x;
     isSupported := isSupported x; isInitialized := isInitialized x;
     currentTime := currentTime x; isPlaying := isPlaying x;
     isLooping := isLooping x; playbackRate := playbackRate x;
     volume := volume x; loopStartTime := loopStartTime x;
     loopEndTime := loopEndTime x; onTimeUpdate := onTimeUpdate x;
     onError := onError x; suspended := suspended x; gain := gain x;
     reported := v; errors := errors x |}.

Definition set_errors (v : nat) (x : t) : t :=
  {| audioContext := audioContext x; workletNode := workletNode x;
     gainNode := gainNode x; audioBuffer := audioBuffer x;
     isSupported := isSupported x; isInitialized := isInitialized x;
     currentTime := currentTime x; isPlaying := isPlaying x;
     isLooping := isLooping x; playbackRate := playbackRate x;
     volume := volume x; loopStartTime := loopStartTime x;
     loopEndTime := loopEndTime x; onTimeUpdate := onTimeUpdate x;
     onError := onError x; suspended := suspended x; gain := gain x;
     reported := reported x; errors := v |}.

(** A new facade; [supported] is what [checkSupport] finds. *)
Definition init (supported : bool) : t :=
  {| audioContext := false; workletNode := false; gainNode := false;
     audioBuffer := None; isSupported := supported; isInitialized := false;
     currentTime := 0; isPlaying := false; isLooping := false;
     playbackRate := 1; volume := 1; loopStartTime := 0; loopEndTime := 0;
     onTimeUpdate := false; onError := false; suspended := false; gain := 1;
     reported := []; errors := 0 |}.

(** The errors the facade throws. *)
Inductive failure : Type :=
| NotSupported
| NotInitialized
| DecodeFailed.

(** [initialize()]; the context is created first and [moduleLoads] tells
    whether the worklet module then loads.  When it does not, the
    context already assigned stays, the error is reported and [false] is
    returned. *)
Definition initialize (moduleLoads : bool) (f : t) : failure + (t * bool) :=
  if negb (isSupported f) then inl NotSupported
  else
    let f := set_audioContext true f in
    if moduleLoads then
      inr (set_isInitialized true
             (set_gainNode true (set_workletNode true f)),
           true)
    else
      inr (if onError f then set_errors (S (errors f)) f else f, false).

(** [loadAudio(arrayBuffer)]; [decoded] is the result of decoding, [None]
    when decoding fails.  Returns the messages posted to the processor. *)
Definition loadAudio (decoded : option DecodedAudio) (f : t)
  : failure + (t * list LoopProcessor.command) :=
  if negb (audioContext f) || negb (workletNode f) then inl NotInitialized
  else match decoded with
  | None => inl DecodeFailed
  | Some a =>
      inr (set_audioBuffer (Some a) f, [LoopProcessor.SET_BUFFER (samples a)])
  end.

Definition play (f : t) : t * list LoopProcessor.command :=
  if negb (workletNode f) then (f, [])
  else
    let f := if audioContext f && suspended f
             then set_suspended false f else f in
    (set_isPlaying true f, [LoopProcessor.PLAY]).

Definition pause (f : t) : t * list LoopProcessor.command :=
  if negb (workletNode f) then (f, [])
  else (set_isPlaying false f, [LoopProcessor.PAUSE]).

(** [Math.round]. *)
Definition round (x : Q) : Z := Qfloor (x + (1 # 2)).

Definition seek (timeSeconds : Q) (f : t) : t * list LoopProcessor.command :=
  if negb (workletNode f) then (f, [])
  else match audioBuffer f with
  | None => (f, [])
  | Some a =>
      let sample := round (timeSeconds * bufferRate a) in
      (set_currentTime timeSeconds f,
       [LoopProcessor.SEEK (inject_Z sample)])
  end.

Definition setLoopPoints (startTime endTime : Q) (f : t)
  : t * list LoopProcessor.command :=
  if negb (workletNode f) then (f, [])
  else match audioBuffer f with
  | None => (f, [])
  | Some a =>
      let f := set_loopStartTime startTime f in
      let f := set_loopEndTime endTime f in
      let startSample := round (startTime * bufferRate a) in
      let endSample := round (endTime * bufferRate a) in
      (f, [LoopProcessor.SET_LOOP_POINTS (inject_Z startSample)
             (inject_Z endSample)])
  end.

Definition setLooping (enabled : bool) (f : t)
  : t * list LoopProcessor.command :=
  if negb (workletNode f) then (f, [])
  else (set_isLooping enabled f, [LoopProcessor.SET_LOOPING enabled]).

Definition setPlaybackRate (rate : Q) (f : t)
  : t * list LoopProcessor.command :=
  if negb (workletNode f) then (f, [])
  else (set_playbackRate rate f, [LoopProcessor.SET_PLAYBACK_RATE rate]).

Definition setVolume (v : Q) (f : t) : t * list LoopProcessor.command :=
  if negb (gainNode f) then (f, [])
  else (set_gain v (set_volume v f), []).

(** [getCurrentTime()]: the value returned and the request posted. *)
Definition getCurrentTime (f : t) : Q * list LoopProcessor.command :=
  if negb (workletNode f) then (currentTime f, [])
  else (currentTime f, [LoopProcessor.GET_CURRENT_TIME]).

Definition getDuration (f : t) : Q :=
  match audioBuffer f with
  | Some a => duration a
  | None => 0
  end.

(** [handleWorkletMessage(data)], for what the processor emits; its debug
    line goes to the console, not to the port. *)
Definition handleWorkletMessage (data : LoopProcessor.effect) (f : t) : t :=
  match data with
  | LoopProcessor.TIME_UPDATE _ time =>
      let f := set_currentTime time f in
      if onTimeUpdate f then set_reported (reported f ++ [time]) f else f
  | LoopProcessor.CURRENT_TIME _ time => set_currentTime time f
  | LoopProcessor.LoopLog _ _ _ => f
  end.

Definition destroy (f : t) : t :=
  let f := set_workletNode false f in
  let f := set_gainNode false f in
  let f := set_audioContext false f in
  let f := set_isInitialized false f in
  set_audioBuffer None f.

(** The facade and its processor, with the port between them: the
    messages a call posted are handled by the processor in order, and
    what the processor posts back is handled by the facade.  The port is
    taken to deliver every message as the processor's code reads it, the
    buffer of [SET_BUFFER] with its [getChannelData]. *)
Definition post (cmds : list LoopProcessor.command)
    (fp : t * LoopProcessor.t) : t * LoopProcessor.t :=
  fold_left
    (fun '(f, p) c =>
       let '(p', replies) := LoopProcessor.handleMessage c p in
       (fold_left (fun g r => handleWorkletMessage r g) replies f, p'))
    cmds fp.

(** The calls of a user of the facade. *)
Inductive call : Type :=
| Load (decoded : DecodedAudio)
| Play
| Pause
| Seek (timeSeconds : Q)
| SetLoopPoints (startTime endTime : Q)
| SetLooping (enabled : bool)
| SetPlaybackRate (rate : Q)
| SetVolume (v : Q)
| GetCurrentTime.

(** The messages a call posts, and the facade after it; a call that
    throws posts nothing. *)
Definition perform (c : call) (f : t) : t * list LoopProcessor.command :=
  match c with
  | Load a =>
      match loadAudio (Some a) f with
      | inr r => r
      | inl _ => (f, [])
      end
  | Play => play f
  | Pause => pause f
  | Seek s => seek s f
  | SetLoopPoints s e => setLoopPoints s e f
  | SetLooping b => setLooping b f
  | SetPlaybackRate r => setPlaybackRate r f
  | SetVolume v => setVolume v f
  | GetCurrentTime => (f, snd (getCurrentTime f))
  end.

(** What happens to the pair: a call of the user, or a block rendered by
    the host. *)
Inductive happening : Type :=
| Call (c : call)
| Block (outputs : list (list (list Q))).

Fixpoint drive (hs : list happening) (fp : t * LoopProcessor.t)
  : res (t * LoopProcessor.t) :=
  match hs with
  | [] => Ok fp
  | Call c :: hs' =>
      let '(f1, cmds) := perform c (fst fp) in
      drive hs' (post cmds (f1, snd fp))
  | Block outputs :: hs' =>
      do r <- LoopProcessor.process (snd fp) outputs ;
      let '(p1, _, sent, _) := r in
      drive hs'
        (fold_left (fun g e => handleWorkletMessage e g) sent (fst fp), p1)
  end.

Definition allowed (h : happening) : Prop :=
  match h with
  | Call (Load a) => LoopProcessor.wf_buffer (samples a)
  | Call _ => True
  | Block outputs => outputs <> []
  end.

(** The messages a facade posts: a buffer of the platform, and never a
    volume. *)
Definition forwarded (c : LoopProcessor.command) : Prop :=
  match c with
  | LoopProcessor.SET_BUFFER b => LoopProcessor.wf_buffer b
  | LoopProcessor.SET_VOLUME _ => False
  | _ => True
  end.

(** An initialised facade holding the demo asset at 8 Hz, and its
    processor after the buffer was delivered. *)
Definition demoAudio : DecodedAudio :=
  {| bufferRate := 8; samples := LoopProcessor.demoBuffer |}.

Definition demoReady : t :=
  match initialize true (init true) with
  | inr (f, _) => f
  | inl _ => init true
  end.

Definition demoPair : t * LoopProcessor.t :=
  let '(f, cmds) := perform (Load demoAudio) demoReady in
  post cmds (f, LoopProcessor.init 8).

End AudioWorkletLooper.

(** ** The buffer-scheduling looper (class [WebAudioLooper]) *)

Module WebAudioLooper.
Import JS.

(** Outcome of a method or of a host callback: it returns, an exception
    escapes it, or the model's iteration budget for a [while] loop is
    used up before the loop ends. *)
Inductive outcome (A : Type) : Type :=
| Done (a : A)
| Raised (e : exn)
| OutOfFuel.
Arguments Done {A} a.
Arguments Raised {A} e.
Arguments OutOfFuel {A}.

Definition andThen {A B} (m : outcome A) (k : A -> outcome B)
  : outcome B :=
  match m with
  | Done a => k a
  | Raised e => Raised e
  | OutOfFuel => OutOfFuel
  end.

(** The decoded asset; the looper uses its duration, in seconds. *)
Record AudioBuffer : Type := { duration : Q }.

(** A buffer source node of the audio graph: the rate it was created
    with, the arguments of [start] once started, whether [stop] was
    called, whether [play] installed its [onended] handler and whether
    the platform has already delivered its [ended] event. *)
Record SourceNode : Type := {
  src_playbackRate : Q;
  src_started : option (Q * Q * Q);
  src_stopped : bool;
  src_onended : bool;
  src_dispatched : bool
}.

Definition set_src_playbackRate (v : Q) (x : SourceNode) : SourceNode :=
  {| src_playbackRate := v; src_started := src_started x;
     src_stopped := src_stopped x; src_onended := src_onended x;
     src_dispatched := src_dispatched x |}.

Definition set_src_started (v : option (Q * Q * Q)) (x : SourceNode) : SourceNode :=
  {| src_playbackRate := src_playbackRate x; src_started := v;
     src_stopped := src_stopped x; src_onended := src_onended x;
     src_dispatched := src_dispatched x |}.

Definition set_src_stopped (v : bool) (x : SourceNode) : SourceNode :=
  {| src_playbackRate := src_playbackRate x;
     src_started := src_started x; src_stopped := v;
     src_onended := src_onended x; src_dispatched := src_dispatched x |}.

Definition set_src_onended (v : bool) (x : SourceNode) : SourceNode :=
  {| src_playbackRate := src_playbackRate x;
     src_started := src_started x; src_stopped := src_stopped x;
     src_onended := v; src_dispatched := src_dispatched x |}.

Definition set_src_dispatched (v : bool) (x : SourceNode) : SourceNode :=
  {| src_playbackRate := src_playbackRate x;
     src_started := src_started x; src_stopped := src_stopped x;
     src_onended := src_onended x; src_dispatched := v |}.

(** Callbacks handed to [requestAnimationFrame]. *)
Inductive callback : Type :=
| ScheduleBuffersAhead
| UpdateTime.

(** Calls of the subscriber's callbacks. *)
Inductive notification : Type :=
| TimeUpdate (time : Q)
| Ended.

(** The fields of the class, followed by the state of the platform
    objects it drives: the clock of the audio context, the gain, the
    source nodes created so far (a node is named by its position), the
    pending animation-frame requests and the notifications delivered to
    the subscriber. *)
Record t : Type := {
  audioContext : bool;
  audioBuffer : option AudioBuffer;
  gainNode : bool;
  currentSource : option nat;
  nextSource : option nat;
  startTime : Q;
  pausedAt : Q;
  isPlaying : bool;
  loopStart : Q;
  loopEnd : Q;
  playbackRate : Q;
  onTimeUpdate : bool;
  onEnded : bool;
  animationFrame : nat;
  isLooping : bool;
  nextStartTime : Q;
  loopStartSample : Z;
  loopEndSample : Z;
  loopDurationSamples : Z;
  sampleRate : Q;
  scheduleAheadTime : Q;
  schedulingActive : bool;
  currentTime : Q;
  suspended : bool;
  gain : Q;
  sources : list SourceNode;
  frameRequests : list (nat * callback);
  nextHandle : nat;
  notified : list notification
}.

Definition set_audioContext (v : bool) (x : t) : t :=
  {| audioContext := v; audioBuffer := audioBuffer x;
     gainNode := gainNode x; currentSource := currentSource x;
     nextSource := nextSource x; startTime := startTime x;
     pausedAt := pausedAt x; isPlaying := isPlaying x;
     loopStart := loopStart x; loopEnd := loopEnd x;
     playbackRate := playbackRate x; onTimeUpdate := onTimeUpdate x;
     onEnded := onEnded x; animationFrame := animationFrame x;
     isLooping := isLooping x; nextStartTime := nextStartTime x;
     loopStartSample := loopStartSample x;
     loopEndSample := loopEndSample x;
     loopDurationSamples := loopDurationSamples x;
     sampleRate := sampleRate x;
     scheduleAheadTime := scheduleAheadTime x;
     schedulingActive := schedulingActive x;
     currentTime := currentTime x; suspended := suspended x;
     gain := gain x; sources := sources x;
     frameRequests := frameRequests x; nextHandle := nextHandle x;
     notified := notified x |}.

Definition set_audioBuffer (v : option AudioBuffer) (x : t) : t :=
  {| audioContext := audioContext x; audioBuffer := v;
     gainNode := gainNode x; currentSource := currentSource x;
     nextSource := nextSource x; startTime := startTime x;
     pausedAt := pausedAt x; isPlaying := isPlaying x;
     loopStart := loopStart x; loopEnd := loopEnd x;
     playbackRate := playbackRate x; onTimeUpdate := onTimeUpdate x;
     onEnded := onEnded x; animationFrame := animationFrame x;
     isLooping := isLooping x; nextStartTime := nextStartTime x;
     loopStartSample := loopStartSample x;
     loopEndSample := loopEndSample x;
     loopDurationSamples := loopDurationSamples x;
     sampleRate := sampleRate x;
     scheduleAheadTime := scheduleAheadTime x;
     schedulingActive := schedulingActive x;
     currentTime := currentTime x; suspended := suspended x;
     gain := gain x; sources := sources x;
     frameRequests := frameRequests x; nextHandle := nextHandle x;
     notified := notified x |}.

Definition set_gainNode (v : bool) (x : t) : t :=
  {| audioContext := audioContext x; audioBuffer := audioBuffer x;
     gainNode := v; currentSource := currentSource x;
     nextSource := nextSource x; startTime := startTime x;
     pausedAt := pausedAt x; isPlaying := isPlaying x;
     loopStart := loopStart x; loopEnd := loopEnd x;
     playbackRate := playbackRate x; onTimeUpdate := onTimeUpdate x;
     onEnded := onEnded x; animationFrame := animationFrame x;
     isLooping := isLooping x; nextStartTime := nextStartTime x;
     loopStartSample := loopStartSample x;
     loopEndSample := loopEndSample x;
     loopDurationSamples := loopDurationSamples x;
     sampleRate := sampleRate x;
     scheduleAheadTime := scheduleAheadTime x;
     schedulingActive := schedulingActive x;
     currentTime := currentTime x; suspended := suspended x;
     gain := gain x; sources := sources x;
     frameRequests := frameRequests x; nextHandle := nextHandle x;
     notified := notified x |}.

Definition set_currentSource (v : option nat) (x : t) : t :=
  {| audioContext := audioContext x; audioBuffer := audioBuffer x;
     gainNode := gainNode x; currentSource := v;
     nextSource := nextSource x; startTime := startTime x;
     pausedAt := pausedAt x; isPlaying := isPlaying x;
     loopStart := loopStart x; loopEnd := loopEnd x;
     playbackRate := playbackRate x; onTimeUpdate := onTimeUpdate x;
     onEnded := onEnded x; animationFrame := animationFrame x;
     isLooping := isLooping x; nextStartTime := nextStartTime x;
     loopStartSample := loopStartSample x;
     loopEndSample := loopEndSample x;
     loopDurationSamples := loopDurationSamples x;
     sampleRate := sampleRate x;
     scheduleAheadTime := scheduleAheadTime x;
     schedulingActive := schedulingActive x;
     currentTime := currentTime x; suspended := suspended x;
     gain := gain x; sources := sources x;
     frameRequests := frameRequests x; nextHandle := nextHandle x;
     notified := notified x |}.

Definition set_nextSource (v : option nat) (x : t) : t :=
  {| audioContext := audioContext x; audioBuffer := audioBuffer x;
     gainNode := gainNode x; currentSource := currentSource x;
     nextSource := v; startTime := startTime x; pausedAt := pausedAt x;
     isPlaying := isPlaying x; loopStart := loopStart x;
     loopEnd := loopEnd x; playbackRate := playbackRate x;
     onTimeUpdate := onTimeUpdate x; onEnded := onEnded x;
     animationFrame := animationFrame x; isLooping := isLooping x;
     nextStartTime := nextStartTime x;
     loopStartSample := loopStartSample x;
     loopEndSample := loopEndSample x;
     loopDurationSamples := loopDurationSamples x;
     sampleRate := sampleRate x;
     scheduleAheadTime := scheduleAheadTime x;
     schedulingActive := schedulingActive x;
     currentTime := currentTime x; suspended := suspended x;
     gain := gain x; sources := sources x;
     frameRequests := frameRequests x; nextHandle := nextHandle x;
     notified := notified x |}.

Definition set_startTime (v : Q) (x : t) : t :=
  {| audioContext := audioContext x; audioBuffer := audioBuffer x;
     gainNode := gainNode x; currentSource := currentSource x;
     nextSource := nextSource x; startTime := v; pausedAt := pausedAt x;
     isPlaying := isPlaying x; loopStart := loopStart x;
     loopEnd := loopEnd x; playbackRate := playbackRate x;
     onTimeUpdate := onTimeUpdate x; onEnded := onEnded x;
     animationFrame := animationFrame x; isLooping := isLooping x;
     nextStartTime := nextStartTime x;
     loopStartSample := loopStartSample x;
     loopEndSample := loopEndSample x;
     loopDurationSamples := loopDurationSamples x;
     sampleRate := sampleRate x;
     scheduleAheadTime := scheduleAheadTime x;
     schedulingActive := schedulingActive x;
     currentTime := currentTime x; suspended := suspended x;
     gain := gain x; sources := sources x;
     frameRequests := frameRequests x; nextHandle := nextHandle x;
     notified := notified x |}.

Definition set_pausedAt (v : Q) (x : t) : t :=
  {| audioContext := audioContext x; audioBuffer := audioBuffer x;
     gainNode := gainNode x; currentSource := currentSource x;
     nextSource := nextSource x; startTime := startTime x; pausedAt := v;
     isPlaying := isPlaying x; loopStart := loopStart x;
     loopEnd := loopEnd x; playbackRate := playbackRate x;
     onTimeUpdate := onTimeUpdate x; onEnded := onEnded x;
     animationFrame := animationFrame x; isLooping := isLooping x;
     nextStartTime := nextStartTime x;
     loopStartSample := loopStartSample x;
     loopEndSample := loopEndSample x;
     loopDurationSamples := loopDurationSamples x;
     sampleRate := sampleRate x;
     scheduleAheadTime := scheduleAheadTime x;
     schedulingActive := schedulingActive x;
     currentTime := currentTime x; suspended := suspended x;
     gain := gain x; sources := sources x;
     frameRequests := frameRequests x; nextHandle := nextHandle x;
     notified := notified x |}.

Definition set_isPlaying (v : bool) (x : t) : t :=
  {| audioContext := audioContext x; audioBuffer := audioBuffer x;
     gainNode := gainNode x; currentSource := currentSource x;
     nextSource := nextSource x; startTime := startTime x;
     pausedAt := pausedAt x; isPlaying := v; loopStart := loopStart x;
     loopEnd := loopEnd x; playbackRate := playbackRate x;
     onTimeUpdate := onTimeUpdate x; onEnded := onEnded x;
     animationFrame := animationFrame x; isLooping := isLooping x;
     nextStartTime := nextStartTime x;
     loopStartSample := loopStartSample x;
     loopEndSample := loopEndSample x;
     loopDurationSamples := loopDurationSamples x;
     sampleRate := sampleRate x;
     scheduleAheadTime := scheduleAheadTime x;
     schedulingActive := schedulingActive x;
     currentTime := currentTime x; suspended := suspended x;
     gain := gain x; sources := sources x;
     frameRequests := frameRequests x; nextHandle := nextHandle x;
     notified := notified x |}.

Definition set_loopStart (v : Q) (x : t) : t :=
  {| audioContext := audioContext x; audioBuffer := audioBuffer x;
     gainNode := gainNode x; currentSource := currentSource x;
     nextSource := nextSource x; startTime := startTime x;
     pausedAt := pausedAt x; isPlaying := isPlaying x; loopStart := v;
     loopEnd := loopEnd x; playbackRate := playbackRate x;
     onTimeUpdate := onTimeUpdate x; onEnded := onEnded x;
     animationFrame := animationFrame x; isLooping := isLooping x;
     nextStartTime := nextStartTime x;
     loopStartSample := loopStartSample x;
     loopEndSample := loopEndSample x;
     loopDurationSamples := loopDurationSamples x;
     sampleRate := sampleRate x;
     scheduleAheadTime := scheduleAheadTime x;
     schedulingActive := schedulingActive x;
     currentTime := currentTime x; suspended := suspended x;
     gain := gain x; sources := sources x;
     frameRequests := frameRequests x; nextHandle := nextHandle x;
     notified := notified x |}.

Definition set_loopEnd (v : Q) (x : t) : t :=
  {| audioContext := audioContext x; audioBuffer := audioBuffer x;
     gainNode := gainNode x; currentSource := currentSource x;
     nextSource := nextSource x; startTime := startTime x;
     pausedAt := pausedAt x; isPlaying := isPlaying x;
     loopStart := loopStart x; loopEnd := v;
     playbackRate := playbackRate x; onTimeUpdate := onTimeUpdate x;
     onEnded := onEnded x; animationFrame := animationFrame x;
     isLooping := isLooping x; nextStartTime := nextStartTime x;
     loopStartSample := loopStartSample x;
     loopEndSample := loopEndSample x;
     loopDurationSamples := loopDurationSamples x;
     sampleRate := sampleRate x;
     scheduleAheadTime := scheduleAheadTime x;
     schedulingActive := schedulingActive x;
     currentTime := currentTime x; suspended := suspended x;
     gain := gain x; sources := sources x;
     frameRequests := frameRequests x; nextHandle := nextHandle x;
     notified := notified x |}.

Definition set_playbackRate (v : Q) (x : t) : t :=
  {| audioContext := audioContext x; audioBuffer := audioBuffer x;
     gainNode := gainNode x; currentSource := currentSource x;
     nextSource := nextSource x; startTime := startTime x;
     pausedAt := pausedAt x; isPlaying := isPlaying x;
     loopStart := loopStart x; loopEnd := loopEnd x; playbackRate := v;
     onTimeUpdate := onTimeUpdate x; onEnded := onEnded x;
     animationFrame := animationFrame x; isLooping := isLooping x;
     nextStartTime := nextStartTime x;
     loopStartSample := loopStartSample x;
     loopEndSample := loopEndSample x;
     loopDurationSamples := loopDurationSamples x;
     sampleRate := sampleRate x;
     scheduleAheadTime := scheduleAheadTime x;
     schedulingActive := schedulingActive x;
     currentTime := currentTime x; suspended := suspended x;
     gain := gain x; sources := sources x;
     frameRequests := frameRequests x; nextHandle := nextHandle x;
     notified := notified x |}.

Definition set_onTimeUpdate (v : bool) (x : t) : t :=
  {| audioContext := audioContext x; audioBuffer := audioBuffer x;
     gainNode := gainNode x; currentSource := currentSource x;
     nextSource := nextSource x; startTime := startTime x;
     pausedAt := pausedAt x; isPlaying := isPlaying x;
     loopStart := loopStart x; loopEnd := loopEnd x;
     playbackRate := playbackRate x; onTimeUpdate := v;
     onEnded := onEnded x; animationFrame := animationFrame x;
     isLooping := isLooping x; nextStartTime := nextStartTime x;
     loopStartSample := loopStartSample x;
     loopEndSample := loopEndSample x;
     loopDurationSamples := loopDurationSamples x;
     sampleRate := sampleRate x;
     scheduleAheadTime := scheduleAheadTime x;
     schedulingActive := schedulingActive x;
     currentTime := currentTime x; suspended := suspended x;
     gain := gain x; sources := sources x;
     frameRequests := frameRequests x; nextHandle := nextHandle x;
     notified := notified x |}.

Definition set_onEnded (v : bool) (x : t) : t :=
  {| audioContext := audioContext x; audioBuffer := audioBuffer x;
     gainNode := gainNode x; currentSource := currentSource x;
     nextSource := nextSource x; startTime := startTime x;
     pausedAt := pausedAt x; isPlaying := isPlaying x;
     loopStart := loopStart x; loopEnd := loopEnd x;
     playbackRate := playbackRate x; onTimeUpdate := onTimeUpdate x;
     onEnded := v; animationFrame := animationFrame x;
     isLooping := isLooping x; nextStartTime := nextStartTime x;
     loopStartSample := loopStartSample x;
     loopEndSample := loopEndSample x;
     loopDurationSamples := loopDurationSamples x;
     sampleRate := sampleRate x;
     scheduleAheadTime := scheduleAheadTime x;
     schedulingActive := schedulingActive x;
     currentTime := currentTime x; suspended := suspended x;
     gain := gain x; sources := sources x;
     frameRequests := frameRequests x; nextHandle := nextHandle x;
     notified := notified x |}.

Definition set_animationFrame (v : nat) (x : t) : t :=
  {| audioContext := audioContext x; audioBuffer := audioBuffer x;
     gainNode := gainNode x; currentSource := currentSource x;
     nextSource := nextSource x; startTime := startTime x;
     pausedAt := pausedAt x; isPlaying := isPlaying x;
     loopStart := loopStart x; loopEnd := loopEnd x;
     playbackRate := playbackRate x; onTimeUpdate := onTimeUpdate x;
     onEnded := onEnded x; animationFrame := v; isLooping := isLooping x;
     nextStartTime := nextStartTime x;
     loopStartSample := loopStartSample x;
     loopEndSample := loopEndSample x;
     loopDurationSamples := loopDurationSamples x;
     sampleRate := sampleRate x;
     scheduleAheadTime := scheduleAheadTime x;
     schedulingActive := schedulingActive x;
     currentTime := currentTime x; suspended := suspended x;
     gain := gain x; sources := sources x;
     frameRequests := frameRequests x; nextHandle := nextHandle x;
     notified := notified x |}.

Definition set_isLooping (v : bool) (x : t) : t :=
  {| audioContext := audioContext x; audioBuffer := audioBuffer x;
     gainNode := gainNode x; currentSource := currentSource x;
     nextSource := nextSource x; startTime := startTime x;
     pausedAt := pausedAt x; isPlaying := isPlaying x;
     loopStart := loopStart x; loopEnd := loopEnd x;
     playbackRate := playbackRate x; onTimeUpdate := onTimeUpdate x;
     onEnded := onEnded x; animationFrame := animationFrame x;
     isLooping := v; nextStartTime := nextStartTime x;
     loopStartSample := loopStartSample x;
     loopEndSample := loopEndSample x;
     loopDurationSamples := loopDurationSamples x;
     sampleRate := sampleRate x;
     scheduleAheadTime := scheduleAheadTime x;
     schedulingActive := schedulingActive x;
     currentTime := currentTime x; suspended := suspended x;
     gain := gain x; sources := sources x;
     frameRequests := frameRequests x; nextHandle := nextHandle x;
     notified := notified x |}.

Definition set_nextStartTime (v : Q) (x : t) : t :=
  {| audioContext := audioContext x; audioBuffer := audioBuffer x;
     gainNode := gainNode x; currentSource := currentSource x;
     nextSource := nextSource x; startTime := startTime x;
     pausedAt := pausedAt x; isPlaying := isPlaying x;
     loopStart := loopStart x; loopEnd := loopEnd x;
     playbackRate := playbackRate x; onTimeUpdate := onTimeUpdate x;
     onEnded := onEnded x; animationFrame := animationFrame x;
     isLooping := isLooping x; nextStartTime := v;
     loopStartSample := loopStartSample x;
     loopEndSample := loopEndSample x;
     loopDurationSamples := loopDurationSamples x;
     sampleRate := sampleRate x;
     scheduleAheadTime := scheduleAheadTime x;
     schedulingActive := schedulingActive x;
     currentTime := currentTime x; suspended := suspended x;
     gain := gain x; sources := sources x;
     frameRequests := frameRequests x; nextHandle := nextHandle x;
     notified := notified x |}.

Definition set_loopStartSample (v : Z) (x : t) : t :=
  {| audioContext := audioContext x; audioBuffer := audioBuffer x;
     gainNode := gainNode x; currentSource := currentSource x;
     nextSource := nextSource x; startTime := startTime x;
     pausedAt := pausedAt x; isPlaying := isPlaying x;
     loopStart := loopStart x; loopEnd := loopEnd x;
     playbackRate := playbackRate x; onTimeUpdate := onTimeUpdate x;
     onEnded := onEnded x; animationFrame := animationFrame x;
     isLooping := isLooping x; nextStartTime := nextStartTime x;
     loopStartSample := v; loopEndSample := loopEndSample x;
     loopDurationSamples := loopDurationSamples x;
     sampleRate := sampleRate x;
     scheduleAheadTime := scheduleAheadTime x;
     schedulingActive := schedulingActive x;
     currentTime := currentTime x; suspended := suspended x;
     gain := gain x; sources := sources x;
     frameRequests := frameRequests x; nextHandle := nextHandle x;
     notified := notified x |}.

Definition set_loopEndSample (v : Z) (x : t) : t :=
  {| audioContext := audioContext x; audioBuffer := audioBuffer x;
     gainNode := gainNode x; currentSource := currentSource x;
     nextSource := nextSource x; startTime := startTime x;
     pausedAt := pausedAt x; isPlaying := isPlaying x;
     loopStart := loopStart x; loopEnd := loopEnd x;
     playbackRate := playbackRate x; onTimeUpdate := onTimeUpdate x;
     onEnded := onEnded x; animationFrame := animationFrame x;
     isLooping := isLooping x; nextStartTime := nextStartTime x;
     loopStartSample := loopStartSample x; loopEndSample := v;
     loopDurationSamples := loopDurationSamples x;
     sampleRate := sampleRate x;
     scheduleAheadTime := scheduleAheadTime x;
     schedulingActive := schedulingActive x;
     currentTime := currentTime x; suspended := suspended x;
     gain := gain x; sources := sources x;
     frameRequests := frameRequests x; nextHandle := nextHandle x;
     notified := notified x |}.

Definition set_loopDurationSamples (v : Z) (x : t) : t :=
  {| audioContext := audioContext x; audioBuffer := audioBuffer x;
     gainNode := gainNode x; currentSource := currentSource x;
     nextSource := nextSource x; startTime := startTime x;
     pausedAt := pausedAt x; isPlaying := isPlaying x;
     loopStart := loopStart x; loopEnd := loopEnd x;
     playbackRate := playbackRate x; onTimeUpdate := onTimeUpdate x;
     onEnded := onEnded x; animationFrame := animationFrame x;
     isLooping := isLooping x; nextStartTime := nextStartTime x;
     loopStartSample := loopStartSample x;
     loopEndSample := loopEndSample x; loopDurationSamples := v;
     sampleRate := sampleRate x;
     scheduleAheadTime := scheduleAheadTime x;
     schedulingActive := schedulingActive x;
     currentTime := currentTime x; suspended := suspended x;
     gain := gain x; sources := sources x;
     frameRequests := frameRequests x; nextHandle := nextHandle x;
     notified := notified x |}.

Definition set_sampleRate (v : Q) (x : t) : t :=
  {| audioContext := audioContext x; audioBuffer := audioBuffer x;
     gainNode := gainNode x; currentSource := currentSource x;
     nextSource := nextSource x; startTime := startTime x;
     pausedAt := pausedAt x; isPlaying := isPlaying x;
     loopStart := loopStart x; loopEnd := loopEnd x;
     playbackRate := playbackRate x; onTimeUpdate := onTimeUpdate x;
     onEnded := onEnded x; animationFrame := animationFrame x;
     isLooping := isLooping x; nextStartTime := nextStartTime x;
     loopStartSample := loopStartSample x;
     loopEndSample := loopEndSample x;
     loopDurationSamples := loopDurationSamples x; sampleRate := v;
     scheduleAheadTime := scheduleAheadTime x;
     schedulingActive := schedulingActive x;
     currentTime := currentTime x; suspended := suspended x;
     gain := gain x; sources := sources x;
     frameRequests := frameRequests x; nextHandle := nextHandle x;
     notified := notified x |}.

Definition set_schedulingActive (v : bool) (x : t) : t :=
  {| audioContext := audioContext x; audioBuffer := audioBuffer x;
     gainNode := gainNode x; currentSource := currentSource x;
     nextSource := nextSource x; startTime := startTime x;
     pausedAt := pausedAt x; isPlaying := isPlaying x;
     loopStart := loopStart x; loopEnd := loopEnd x;
     playbackRate := playbackRate x; onTimeUpdate := onTimeUpdate x;
     onEnded := onEnded x; animationFrame := animationFrame x;
     isLooping := isLooping x; nextStartTime := nextStartTime x;
     loopStartSample := loopStartSample x;
     loopEndSample := loopEndSample x;
     loopDurationSamples := loopDurationSamples x;
     sampleRate := sampleRate x;
     scheduleAheadTime := scheduleAheadTime x; schedulingActive := v;
     currentTime := currentTime x; suspended := suspended x;
     gain := gain x; sources := sources x;
     frameRequests := frameRequests x; nextHandle := nextHandle x;
     notified := notified x |}.

Definition set_currentTime (v : Q) (x : t) : t :=
  {| audioContext := audioContext x; audioBuffer := audioBuffer x;
     gainNode := gainNode x; currentSource := currentSource x;
     nextSource := nextSource x; startTime := startTime x;
     pausedAt := pausedAt x; isPlaying := isPlaying x;
     loopStart := loopStart x; loopEnd := loopEnd x;
     playbackRate := playbackRate x; onTimeUpdate := onTimeUpdate x;
     onEnded := onEnded x; animationFrame := animationFrame x;
     isLooping := isLooping x; nextStartTime := nextStartTime x;
     loopStartSample := loopStartSample x;
     loopEndSample := loopEndSample x;
     loopDurationSamples := loopDurationSamples x;
     sampleRate := sampleRate x;
     scheduleAheadTime := scheduleAheadTime x;
     schedulingActive := schedulingActive x; currentTime := v;
     suspended := suspended x; gain := gain x; sources := sources x;
     frameRequests := frameRequests x; nextHandle := nextHandle x;
     notified := notified x |}.

Definition set_suspended (v : bool) (x : t) : t :=
  {| audioContext := audioContext x; audioBuffer := audioBuffer x;
     gainNode := gainNode x; currentSource := currentSource x;
     nextSource := nextSource x; startTime := startTime x;
     pausedAt := pausedAt x; isPlaying := isPlaying x;
     loopStart := loopStart x; loopEnd := loopEnd x;
     playbackRate := playbackRate x; onTimeUpdate := onTimeUpdate x;
     onEnded := onEnded x; animationFrame := animationFrame x;
     isLooping := isLooping x; nextStartTime := nextStartTime x;
     loopStartSample := loopStartSample x;
     loopEndSample := loopEndSample x;
     loopDurationSamples := loopDurationSamples x;
     sampleRate := sampleRate x;
     scheduleAheadTime := scheduleAheadTime x;
     schedulingActive := schedulingActive x;
     currentTime := currentTime x; suspended := v; gain := gain x;
     sources := sources x; frameRequests := frameRequests x;
     nextHandle := nextHandle x; notified := notified x |}.

Definition set_gain (v : Q) (x : t) : t :=
  {| audioContext := audioContext x; audioBuffer := audioBuffer x;
     gainNode := gainNode x; currentSource := currentSource x;
     nextSource := nextSource x; startTime := startTime x;
     pausedAt := pausedAt x; isPlaying := isPlaying x;
     loopStart := loopStart x; loopEnd := loopEnd x;
     playbackRate := playbackRate x; onTimeUpdate := onTimeUpdate x;
     onEnded := onEnded x; animationFrame := animationFrame x;
     isLooping := isLooping x; nextStartTime := nextStartTime x;
     loopStartSample := loopStartSample x;
     loopEndSample := loopEndSample x;
     loopDurationSamples := loopDurationSamples x;
     sampleRate := sampleRate x;
     scheduleAheadTime := scheduleAheadTime x;
     schedulingActive := schedulingActive x;
     currentTime := currentTime x; suspended := suspended x; gain := v;
     sources := sources x; frameRequests := frameRequests x;
     nextHandle := nextHandle x; notified := notified x |}.

Definition set_sources (v : list SourceNode) (x : t) : t :=
  {| audioContext := audioContext x; audioBuffer := audioBuffer x;
     gainNode := gainNode x; currentSource := currentSource x;
     nextSource := nextSource x; startTime := startTime x;
     pausedAt := pausedAt x; isPlaying := isPlaying x;
     loopStart := loopStart x; loopEnd := loopEnd x;
     playbackRate := playbackRate x; onTimeUpdate := onTimeUpdate x;
     onEnded := onEnded x; animationFrame := animationFrame x;
     isLooping := isLooping x; nextStartTime := nextStartTime x;
     loopStartSample := loopStartSample x;
     loopEndSample := loopEndSample x;
     loopDurationSamples := loopDurationSamples x;
     sampleRate := sampleRate x;
     scheduleAheadTime := scheduleAheadTime x;
     schedulingActive := schedulingActive x;
     currentTime := currentTime x; suspended := suspended x;
     gain := gain x; sources := v; frameRequests := frameRequests x;
     nextHandle := nextHandle x; notified := notified x |}.

Definition set_frameRequests (v : list (nat * callback)) (x : t) : t :=
  {| audioContext := audioContext x; audioBuffer := audioBuffer x;
     gainNode := gainNode x; currentSource := currentSource x;
     nextSource := nextSource x; startTime := startTime x;
     pausedAt := pausedAt x; isPlaying := isPlaying x;
     loopStart := loopStart x; loopEnd := loopEnd x;
     playbackRate := playbackRate x; onTimeUpdate := onTimeUpdate x;
     onEnded := onEnded x; animationFrame := animationFrame x;
     isLooping := isLooping x; nextStartTime := nextStartTime x;
     loopStartSample := loopStartSample x;
     loopEndSample := loopEndSample x;
     loopDurationSamples := loopDurationSamples x;
     sampleRate := sampleRate x;
     scheduleAheadTime := scheduleAheadTime x;
     schedulingActive := schedulingActive x;
     currentTime := currentTime x; suspended := suspended x;
     gain := gain x; sources := sources x; frameRequests := v;
     nextHandle := nextHandle x; notified := notified x |}.

Definition set_nextHandle (v : nat) (x : t) : t :=
  {| audioContext := audioContext x; audioBuffer := audioBuffer x;
     gainNode := gainNode x; currentSource := currentSource x;
     nextSource := nextSource x; startTime := startTime x;
     pausedAt := pausedAt x; isPlaying := isPlaying x;
     loopStart := loopStart x; loopEnd := loopEnd x;
     playbackRate := playbackRate x; onTimeUpdate := onTimeUpdate x;
     onEnded := onEnded x; animationFrame := animationFrame x;
     isLooping := isLooping x; nextStartTime := nextStartTime x;
     loopStartSample := loopStartSample x;
     loopEndSample := loopEndSample x;
     loopDurationSamples := loopDurationSamples x;
     sampleRate := sampleRate x;
     scheduleAheadTime := scheduleAheadTime x;
     schedulingActive := schedulingActive x;
     currentTime := currentTime x; suspended := suspended x;
     gain := gain x; sources := sources x;
     frameRequests := frameRequests x; nextHandle := v;
     notified := notified x |}.

Definition set_notified (v : list notification) (x : t) : t :=
  {| audioContext := audioContext x; audioBuffer := audioBuffer x;
     gainNode := gainNode x; currentSource := currentSource x;
     nextSource := nextSource x; startTime := startTime x;
     pausedAt := pausedAt x; isPlaying := isPlaying x;
     loopStart := loopStart x; loopEnd := loopEnd x;
     playbackRate := playbackRate x; onTimeUpdate := onTimeUpdate x;
     onEnded := onEnded x; animationFrame := animationFrame x;
     isLooping := isLooping x; nextStartTime := nextStartTime x;
     loopStartSample := loopStartSample x;
     loopEndSample := loopEndSample x;
     loopDurationSamples := loopDurationSamples x;
     sampleRate := sampleRate x;
     scheduleAheadTime := scheduleAheadTime x;
     schedulingActive := schedulingActive x;
     currentTime := currentTime x; suspended := suspended x;
     gain := gain x; sources := sources x;
     frameRequests := frameRequests x; nextHandle := nextHandle x;
     notified := v |}.

Definition init : t :=
  {| audioContext := false; audioBuffer := None; gainNode := false;
     currentSource := None; nextSource := None; startTime := 0;
     pausedAt := 0; isPlaying := false; loopStart := 0; loopEnd := 0;
     playbackRate := 1; onTimeUpdate := false; onEnded := false;
     animationFrame := 0; isLooping := false; nextStartTime := 0;
     loopStartSample := 0; loopEndSample := 0; loopDurationSamples := 0;
     sampleRate := 44100; scheduleAheadTime := 1 # 10;
     schedulingActive := false;
     currentTime := 0; suspended := false; gain := 1; sources := [];
     frameRequests := []; nextHandle := 1; notified := [] |}.

(** [Math.round]: the nearest integer, halves upward. *)
Definition round (x : Q) : Z := Qfloor (x + (1 # 2)).

Definition initialize (w : t) : t :=
  set_gainNode true (set_audioContext true w).

(** [loadAudio], for an asset the platform decodes to [decoded] on a
    context running at [contextRate]. *)
Definition loadAudio (decoded : AudioBuffer) (contextRate : Q) (w : t)
  : t * Q :=
  let w := if audioContext w then w else initialize w in
  let w := set_audioBuffer (Some decoded) w in
  let w := set_sampleRate contextRate w in
  let w := set_loopEnd (duration decoded) w in
  (w, duration decoded).

(** [createSource]: the new state and the node, [None] for [null]. *)
Definition createSource (w : t) : t * option nat :=
  if negb (audioContext w) then (w, None)
  else match audioBuffer w with
  | None => (w, None)
  | Some _ =>
      if negb (gainNode w) then (w, None)
      else
        let node := {| src_playbackRate := playbackRate w;
                       src_started := None; src_stopped := false;
                       src_onended := false; src_dispatched := false |} in
        (set_sources (sources w ++ [node]) w,
         Some (List.length (sources w)))
  end.

Definition setLoopPoints (start end_ : Q) (w : t) : t :=
  let w := set_loopStart start w in
  let w := set_loopEnd end_ w in
  let w := set_loopStartSample (round (start * sampleRate w)) w in
  let w := set_loopEndSample (round (end_ * sampleRate w)) w in
  set_loopDurationSamples (loopEndSample w - loopStartSample w)%Z w.

Definition set_node_rate (rate : Q) (node : option nat) (w : t) : t :=
  match node with
  | Some i => set_sources (alter (set_src_playbackRate rate) i (sources w)) w
  | None => w
  end.

Definition setPlaybackRate (rate : Q) (w : t) : t :=
  let w := set_playbackRate rate w in
  let w := set_node_rate rate (currentSource w) w in
  set_node_rate rate (nextSource w) w.

Definition setVolume (volume : Q) (w : t) : t :=
  if gainNode w then set_gain volume w else w.

Definition setLooping (enabled : bool) (w : t) : t :=
  set_isLooping enabled w.

Definition setTimeUpdateCallback (w : t) : t := set_onTimeUpdate true w.
Definition setEndedCallback (w : t) : t := set_onEnded true w.

Definition getCurrentTime (w : t) : Q :=
  if negb (audioContext w) || negb (isPlaying w) then pausedAt w
  else if isLooping w && gtb (loopEnd w) (loopStart w) then
    let elapsedAudioTime := currentTime w - startTime w in
    let elapsedSamples :=
      floor (elapsedAudioTime * sampleRate w * playbackRate w) in
    let positionInLoopSamples :=
      Z.rem elapsedSamples (loopDurationSamples w) in
    let currentSample := (loopStartSample w + positionInLoopSamples)%Z in
    inject_Z currentSample / sampleRate w
  else pausedAt w + (currentTime w - startTime w) * playbackRate w.

(** [source.start(when, offset, duration)]: the platform rejects a
    negative argument and a second start. *)
Definition start (i : nat) (when offset dur : Q) (w : t) : outcome t :=
  match sources w !! i with
  | None => Raised TypeError
  | Some node =>
      if ltb when 0 || ltb offset 0 || ltb dur 0 then Raised RangeError
      else match src_started node with
      | Some _ => Raised InvalidStateError
      | None =>
          Done (set_sources
                  (<[i := set_src_started (Some (when, offset, dur)) node]>
                     (sources w)) w)
      end
  end.

(** [source.stop()]: the platform rejects it on a node never started. *)
Definition stop (i : nat) (w : t) : outcome t :=
  match sources w !! i with
  | None => Raised TypeError
  | Some node =>
      match src_started node with
      | None => Raised InvalidStateError
      | Some _ =>
          Done (set_sources
                  (<[i := set_src_stopped true node]> (sources w)) w)
      end
  end.

(** [requestAnimationFrame(cb)]: the new state and the handle. *)
Definition requestAnimationFrame (cb : callback) (w : t) : t * nat :=
  let h := nextHandle w in
  (set_nextHandle (S h) (set_frameRequests (frameRequests w ++ [(h, cb)]) w),
   h).

Definition cancelAnimationFrame (h : nat) (w : t) : t :=
  set_frameRequests
    (filter (fun r => fst r <> h) (frameRequests w)) w.

Definition exactLoopDurationSeconds (w : t) : Q :=
  inject_Z (loopDurationSamples w) / (sampleRate w * playbackRate w).

(** The [while] loop of [scheduleBuffersAhead]; [currentAudioTime] and
    [exactLoopDurationSeconds] are the constants read before it. *)
Fixpoint scheduleLoop (fuel : nat) (currentAudioTime exactDuration : Q)
    (w : t) : outcome t :=
  if ltb (nextStartTime w) (currentAudioTime + scheduleAheadTime w) then
    match fuel with
    | O => OutOfFuel
    | S fuel' =>
        let '(w1, source) := createSource w in
        match source with
        | Some i =>
            andThen (start i (nextStartTime w1) (loopStart w1)
                       exactDuration w1)
              (fun w2 =>
                 scheduleLoop fuel' currentAudioTime exactDuration
                   (set_nextStartTime (nextStartTime w2 + exactDuration)
                      w2))
        | None => scheduleLoop fuel' currentAudioTime exactDuration w1
        end
    end
  else Done w.

Definition scheduleBuffersAhead (fuel : nat) (w : t) : outcome t :=
  if negb (audioContext w) || negb (schedulingActive w) then Done w
  else
    let currentAudioTime := currentTime w in
    let exactDuration := exactLoopDurationSeconds w in
    andThen (scheduleLoop fuel currentAudioTime exactDuration w)
      (fun w1 =>
         if schedulingActive w1
         then Done (fst (requestAnimationFrame ScheduleBuffersAhead w1))
         else Done w1).

(** *** The scheduling step in the arithmetic of doubles

    The numbers of the engine are doubles: every sum, product and
    quotient is rounded.  [Rounded] is the scheduling step above with
    each operation rounded by [rnd], whatever the rounding; with [rnd]
    the identity it is that step. *)
Module Rounded.
Section Arithmetic.
Variable rnd : Q -> Q.

Definition exactLoopDurationSeconds (w : t) : Q :=
  rnd (inject_Z (loopDurationSamples w)
       / rnd (sampleRate w * playbackRate w)).

Fixpoint scheduleLoop (fuel : nat) (currentAudioTime exactDuration : Q)
    (w : t) : outcome t :=
  if ltb (nextStartTime w) (rnd (currentAudioTime + scheduleAheadTime w))
  then
    match fuel with
    | O => OutOfFuel
    | S fuel' =>
        let '(w1, source) := createSource w in
        match source with
        | Some i =>
            andThen (start i (nextStartTime w1) (loopStart w1)
                       exactDuration w1)
              (fun w2 =>
                 scheduleLoop fuel' currentAudioTime exactDuration
                   (set_nextStartTime
                      (rnd (nextStartTime w2 + exactDuration)) w2))
        | None => scheduleLoop fuel' currentAudioTime exactDuration w1
        end
    end
  else Done w.

Definition scheduleBuffersAhead (fuel : nat) (w : t) : outcome t :=
  if negb (audioContext w) || negb (schedulingActive w) then Done w
  else
    let currentAudioTime := currentTime w in
    let exactDuration := exactLoopDurationSeconds w in
    andThen (scheduleLoop fuel currentAudioTime exactDuration w)
      (fun w1 =>
         if schedulingActive w1
         then Done (fst (requestAnimationFrame ScheduleBuffersAhead w1))
         else Done w1).


(** The state as the engine holds it: each number of the state that the
    scheduling step reads, stored rounded. *)
Definition stored (x : t) : t :=
  {| audioContext := audioContext x; audioBuffer := audioBuffer x;
     gainNode := gainNode x; currentSource := currentSource x;
     nextSource := nextSource x; startTime := rnd (startTime x);
     pausedAt := rnd (pausedAt x); isPlaying := isPlaying x;
     loopStart := rnd (loopStart x); loopEnd := rnd (loopEnd x);
     playbackRate := rnd (playbackRate x); onTimeUpdate := onTimeUpdate x;
     onEnded := onEnded x; animationFrame := animationFrame x;
     isLooping := isLooping x; nextStartTime := rnd (nextStartTime x);
     loopStartSample := loopStartSample x;
     loopEndSample := loopEndSample x;
     loopDurationSamples := loopDurationSamples x;
     sampleRate := rnd (sampleRate x);
     scheduleAheadTime := rnd (scheduleAheadTime x);
     schedulingActive := schedulingActive x;
     currentTime := rnd (currentTime x); suspended := suspended x;
     gain := rnd (gain x); sources := sources x;
     frameRequests := frameRequests x; nextHandle := nextHandle x;
     notified := notified x |}.

End Arithmetic.
End Rounded.

Definition startSampleAccurateLoop (fuel : nat) (w : t) : outcome t :=
  if negb (audioContext w) || negb (isLooping w) then Done w
  else match audioBuffer w with
  | None => Done w
  | Some _ =>
      let w := set_nextStartTime (currentTime w + scheduleAheadTime w) w in
      let w := set_schedulingActive true w in
      andThen (scheduleBuffersAhead fuel w)
        (fun w1 =>
           let w2 := set_startTime (nextStartTime w1) w1 in
           Done (set_pausedAt (loopStart w2) w2))
  end.

Definition notify (n : notification) (w : t) : t :=
  set_notified (notified w ++ [n]) w.

Definition updateTime (w : t) : t :=
  if isPlaying w then
    let time := getCurrentTime w in
    let w := if onTimeUpdate w then notify (TimeUpdate time) w else w in
    let '(w, h) := requestAnimationFrame UpdateTime w in
    set_animationFrame h w
  else w.

Definition play (fuel : nat) (w : t) : outcome t :=
  if negb (audioContext w) then Done w
  else match audioBuffer w with
  | None => Done w
  | Some buffer =>
      let w := if suspended w then set_suspended false w else w in
      let w := set_isPlaying true w in
      if isLooping w && gtb (loopEnd w) (loopStart w) then
        andThen (startSampleAccurateLoop fuel w)
          (fun w1 => Done (updateTime w1))
      else
        let '(w1, source) := createSource w in
        let w1 := set_currentSource source w1 in
        match source with
        | None => Done w1
        | Some i =>
            let offset := pausedAt w1 in
            let dur := duration buffer - offset in
            andThen (start i 0 offset dur w1)
              (fun w2 =>
                 let w3 := set_startTime (currentTime w2) w2 in
                 let w4 :=
                   set_sources (alter (set_src_onended true) i (sources w3))
                     w3 in
                 Done (updateTime w4))
        end
  end.

Definition stop_field (node : option nat) (w : t) : outcome t :=
  match node with
  | Some i => stop i w
  | None => Done w
  end.

Definition pause (w : t) : outcome t :=
  let w := set_schedulingActive false w in
  andThen (stop_field (currentSource w) w) (fun w =>
  let w := set_currentSource None w in
  andThen (stop_field (nextSource w) w) (fun w =>
  let w := set_nextSource None w in
  let w := set_pausedAt (getCurrentTime w) w in
  let w := set_isPlaying false w in
  Done (if (animationFrame w =? 0)%nat then w
        else cancelAnimationFrame (animationFrame w) w))).

Definition seek (fuel : nat) (time : Q) (w : t) : outcome t :=
  let wasPlaying := isPlaying w in
  andThen (if wasPlaying then pause w else Done w) (fun w =>
  let w := set_pausedAt time w in
  if wasPlaying then play fuel w else Done w).

Definition getDuration (w : t) : Q :=
  match audioBuffer w with
  | Some b => duration b
  | None => 0
  end.

(** The [onended] handler [play] installs on the source of a
    non-looping playback. *)
Definition onended (w : t) : t :=
  let w := set_isPlaying false w in
  let w := set_pausedAt 0 w in
  if onEnded w then notify Ended w else w.

(** What the platform does between two calls of the caller: it renders
    an animation frame at clock reading [time], running the callbacks
    requested since the previous frame, or it delivers the [ended]
    event of a started source, once per source. *)
Inductive event : Type :=
| Frame (time : Q)
| SourceEnded (i : nat).

Definition runCallback (fuel : nat) (cb : callback) (w : t) : outcome t :=
  match cb with
  | ScheduleBuffersAhead => scheduleBuffersAhead fuel w
  | UpdateTime => Done (updateTime w)
  end.

Fixpoint runCallbacks (fuel : nat) (cbs : list (nat * callback)) (w : t)
  : outcome t :=
  match cbs with
  | [] => Done w
  | (h, cb) :: rest =>
      if existsb (Nat.eqb h) (map fst (frameRequests w)) then
        andThen (runCallback fuel cb
                   (set_frameRequests
                      (filter (fun r => fst r <> h) (frameRequests w)) w))
          (runCallbacks fuel rest)
      else runCallbacks fuel rest w
  end.

Definition step (fuel : nat) (e : event) (w : t) : outcome t :=
  match e with
  | Frame time =>
      let w := set_currentTime (max (currentTime w) time) w in
      runCallbacks fuel (frameRequests w) w
  | SourceEnded i =>
      match sources w !! i with
      | None => Done w
      | Some node =>
          match src_started node with
          | None => Done w
          | Some _ =>
              if src_dispatched node then Done w
              else
                let w :=
                  set_sources
                    (<[i := set_src_dispatched true node]> (sources w)) w in
                Done (if src_onended node then onended w else w)
          end
      end
  end.

Fixpoint run (fuel : nat) (es : list event) (w : t) : outcome t :=
  match es with
  | [] => Done w
  | e :: es' => andThen (step fuel e w) (run fuel es')
  end.

(** A segment that is still to be played: its source was started for a
    time the clock has not reached, and was never stopped. *)
Definition pendingSegment (w : t) (node : SourceNode) : bool :=
  match src_started node with
  | Some (when, _, _) => negb (src_stopped node) && ltb (currentTime w) when
  | None => false
  end.

(** The parameters the scheduling loop reads but never writes. *)
Definition sameParams (w w' : t) : Prop :=
  loopDurationSamples w' = loopDurationSamples w /\
  sampleRate w' = sampleRate w /\
  playbackRate w' = playbackRate w /\
  loopStart w' = loopStart w /\
  scheduleAheadTime w' = scheduleAheadTime w /\
  audioContext w' = audioContext w /\
  audioBuffer w' = audioBuffer w /\
  gainNode w' = gainNode w.

(** [scheduled w w' k]: from [w] to [w'] exactly [k] segments were
    scheduled, back to back from [nextStartTime w]. *)
Definition scheduled (w w' : t) (k : nat) : Prop :=
  sameParams w w' /\
  List.length (sources w') = (List.length (sources w) + k)%nat /\
  nextStartTime w'
    == nextStartTime w
       + inject_Z (Z.of_nat k) * exactLoopDurationSeconds w /\
  (forall i node, sources w !! i = Some node ->
     exists node', sources w' !! i = Some node' /\
                   src_started node' = src_started node) /\
  (forall j, (j < k)%nat ->
     exists node when,
       sources w' !! (List.length (sources w) + j)%nat = Some node /\
       src_started node
         = Some (when, loopStart w, exactLoopDurationSeconds w) /\
       when == nextStartTime w
               + inject_Z (Z.of_nat j) * exactLoopDurationSeconds w).

(** A change that leaves the schedule alone: same parameters, same
    [nextStartTime], and the same [start] arguments on every node. *)
Definition untouched (w w' : t) : Prop :=
  sameParams w w' /\
  nextStartTime w' = nextStartTime w /\
  List.length (sources w') = List.length (sources w) /\
  (forall i node, sources w !! i = Some node ->
     exists node', sources w' !! i = Some node' /\
                   src_started node' = src_started node).

(** The scheduling step called [n] times in a row. *)
Fixpoint repeatSchedule (n fuel : nat) (w : t) : outcome t :=
  match n with
  | O => Done w
  | S n' => andThen (scheduleBuffersAhead fuel w) (repeatSchedule n' fuel)
  end.





(** The looper can create sources: a context, a decoded asset and the
    gain node. *)
Definition ready (w : t) : Prop :=
  audioContext w = true /\ is_Some (audioBuffer w) /\ gainNode w = true.

(** The looper is in loop mode over a region that is not empty, the
    condition [play] and [getCurrentTime] test. *)
Definition looping (w : t) : Prop :=
  isLooping w = true /\ loopStart w < loopEnd w.

(** *** A session of the looper

    A ten-second asset is loaded and both callbacks are subscribed;
    [demoLoop] then loops the region from 2 s to 4 s. *)
Definition demoLoaded : t :=
  setEndedCallback
    (setTimeUpdateCallback (fst (loadAudio {| duration := 10 |} 44100 init))).

Definition demoLoop : t := setLooping true (setLoopPoints 2 4 demoLoaded).

Definition result (o : outcome t) : t :=
  match o with
  | Done w => w
  | _ => init
  end.

(** [play], then the first animation frame, 1/60 s later. *)
Definition demoPlaying : t := result (play 4 demoLoop).
Definition demoFrame : t := result (step 4 (Frame (1 # 60)) demoPlaying).

(** A loop of a tenth of a second, from 2 s to 2.1 s, played from the
    clock reading 0; [demoTenthLate] is that looper, its numbers stored
    as doubles, when the clock reads 1 s, as the scheduling step of a
    late animation frame finds it. *)
Definition demoTenth : t :=
  result (play 4 (setLooping true (setLoopPoints 2 (21 # 10) demoLoaded))).

Definition demoTenthLate : t :=
  Rounded.stored IEEE.double (set_currentTime 1 demoTenth).

End WebAudioLooper.

(** ** The crossfading native looper (class [NativeAudioLooperImpl]) *)

Module NativeAudioLooperImpl.

(** A PCM buffer: one list of [Float] samples per channel. *)
Abbreviation PCMBuffer := (list (list Q)).

Record AudioFormat : Type := { channelCount : nat }.

(** An opened audio file: its length in frames and what reading
    [count] frames at frame position [start] gives, [None] when the
    read throws. *)
Record AudioFile : Type := {
  fileLength : Z;
  processingFormat : AudioFormat;
  fileSampleRate : Q;
  readInto : Z -> nat -> option PCMBuffer
}.

(** Completion handlers attached to a scheduled crossfade buffer: the
    one of [scheduleNextCycle] tests [isPlaying], the one of
    [scheduleAt] does not. *)
Inductive completion : Type :=
| NextCycleIfPlaying
| NextCycle.

(** What the player node holds in its queue. *)
Inductive scheduledItem : Type :=
| Segment (startingFrame frameCount : Z)
| Buffer (samples : PCMBuffer) (handler : completion).

(** Blocks dispatched on the scheduling queue, with the values they
    capture. *)
Inductive task : Type :=
| CycleTask (interrupt : bool) (file : AudioFile)
    (startFrame endFrame mainFrames cfFrames : Z)
| SeekTask (file : AudioFile) (startFrame framesToEnd cfFrames : Z).

(** The fields of the class; [rate] and [pitch] are those of the
    time-pitch unit, the [player...] fields the state of the player
    node and [schedulingQueue] the blocks not yet run. *)
Record t : Type := {
  audioFile : option AudioFile;
  audioFormat : option AudioFormat;
  sampleRate : Q;
  loopStartSec : Q;
  loopEndSec : Q;
  crossfadeMs : Q;
  isPlaying : bool;
  engineRunning : bool;
  rate : Q;
  pitch : Q;
  playerQueue : list scheduledItem;
  playerPlaying : bool;
  playerSampleTime : option Z;
  schedulingQueue : list task
}.

Definition set_audioFile (v : option AudioFile) (x : t) : t :=
  {| audioFile := v; audioFormat := audioFormat x;
     sampleRate := sampleRate x; loopStartSec := loopStartSec x;
     loopEndSec := loopEndSec x; crossfadeMs := crossfadeMs x;
     isPlaying := isPlaying x; engineRunning := engineRunning x;
     rate := rate x; pitch := pitch x; playerQueue := playerQueue x;
     playerPlaying := playerPlaying x;
     playerSampleTime := playerSampleTime x;
     schedulingQueue := schedulingQueue x |}.

Definition set_audioFormat (v : option AudioFormat) (x : t) : t :=
  {| audioFile := audioFile x; audioFormat := v;
     sampleRate := sampleRate x; loopStartSec := loopStartSec x;
     loopEndSec := loopEndSec x; crossfadeMs := crossfadeMs x;
     isPlaying := isPlaying x; engineRunning := engineRunning x;
     rate := rate x; pitch := pitch x; playerQueue := playerQueue x;
     playerPlaying := playerPlaying x;
     playerSampleTime := playerSampleTime x;
     schedulingQueue := schedulingQueue x |}.

Definition set_sampleRate (v : Q) (x : t) : t :=
  {| audioFile := audioFile x; audioFormat := audioFormat x;
     sampleRate := v; loopStartSec := loopStartSec x;
     loopEndSec := loopEndSec x; crossfadeMs := crossfadeMs x;
     isPlaying := isPlaying x; engineRunning := engineRunning x;
     rate := rate x; pitch := pitch x; playerQueue := playerQueue x;
     playerPlaying := playerPlaying x;
     playerSampleTime := playerSampleTime x;
     schedulingQueue := schedulingQueue x |}.

Definition set_loopStartSec (v : Q) (x : t) : t :=
  {| audioFile := audioFile x; audioFormat := audioFormat x;
     sampleRate := sampleRate x; loopStartSec := v;
     loopEndSec := loopEndSec x; crossfadeMs := crossfadeMs x;
     isPlaying := isPlaying x; engineRunning := engineRunning x;
     rate := rate x; pitch := pitch x; playerQueue := playerQueue x;
     playerPlaying := playerPlaying x;
     playerSampleTime := playerSampleTime x;
     schedulingQueue := schedulingQueue x |}.

Definition set_loopEndSec (v : Q) (x : t) : t :=
  {| audioFile := audioFile x; audioFormat := audioFormat x;
     sampleRate := sampleRate x; loopStartSec := loopStartSec x;
     loopEndSec := v; crossfadeMs := crossfadeMs x;
     isPlaying := isPlaying x; engineRunning := engineRunning x;
     rate := rate x; pitch := pitch x; playerQueue := playerQueue x;
     playerPlaying := playerPlaying x;
     playerSampleTime := playerSampleTime x;
     schedulingQueue := schedulingQueue x |}.

Definition set_isPlaying (v : bool) (x : t) : t :=
  {| audioFile := audioFile x; audioFormat := audioFormat x;
     sampleRate := sampleRate x; loopStartSec := loopStartSec x;
     loopEndSec := loopEndSec x; crossfadeMs := crossfadeMs x;
     isPlaying := v; engineRunning := engineRunning x; rate := rate x;
     pitch := pitch x; playerQueue := playerQueue x;
     playerPlaying := playerPlaying x;
     playerSampleTime := playerSampleTime x;
     schedulingQueue := schedulingQueue x |}.

Definition set_engineRunning (v : bool) (x : t) : t :=
  {| audioFile := audioFile x; audioFormat := audioFormat x;
     sampleRate := sampleRate x; loopStartSec := loopStartSec x;
     loopEndSec := loopEndSec x; crossfadeMs := crossfadeMs x;
     isPlaying := isPlaying x; engineRunning := v; rate := rate x;
     pitch := pitch x; playerQueue := playerQueue x;
     playerPlaying := playerPlaying x;
     playerSampleTime := playerSampleTime x;
     schedulingQueue := schedulingQueue x |}.


Definition set_pitch (v : Q) (x : t) : t :=
  {| audioFile := audioFile x; audioFormat := audioFormat x;
     sampleRate := sampleRate x; loopStartSec := loopStartSec x;
     loopEndSec := loopEndSec x; crossfadeMs := crossfadeMs x;
     isPlaying := isPlaying x; engineRunning := engineRunning x;
     rate := rate x; pitch := v; playerQueue := playerQueue x;
     playerPlaying := playerPlaying x;
     playerSampleTime := playerSampleTime x;
     schedulingQueue := schedulingQueue x |}.

Definition set_playerQueue (v : list scheduledItem) (x : t) : t :=
  {| audioFile := audioFile x; audioFormat := audioFormat x;
     sampleRate := sampleRate x; loopStartSec := loopStartSec x;
     loopEndSec := loopEndSec x; crossfadeMs := crossfadeMs x;
     isPlaying := isPlaying x; engineRunning := engineRunning x;
     rate := rate x; pitch := pitch x; playerQueue := v;
     playerPlaying := playerPlaying x;
     playerSampleTime := playerSampleTime x;
     schedulingQueue := schedulingQueue x |}.

Definition set_playerPlaying (v : bool) (x : t) : t :=
  {| audioFile := audioFile x; audioFormat := audioFormat x;
     sampleRate := sampleRate x; loopStartSec := loopStartSec x;
     loopEndSec := loopEndSec x; crossfadeMs := crossfadeMs x;
     isPlaying := isPlaying x; engineRunning := engineRunning x;
     rate := rate x; pitch := pitch x; playerQueue := playerQueue x;
     playerPlaying := v; playerSampleTime := playerSampleTime x;
     schedulingQueue := schedulingQueue x |}.

Definition set_schedulingQueue (v : list task) (x : t) : t :=
  {| audioFile := audioFile x; audioFormat := audioFormat x;
     sampleRate := sampleRate x; loopStartSec := loopStartSec x;
     loopEndSec := loopEndSec x; crossfadeMs := crossfadeMs x;
     isPlaying := isPlaying x; engineRunning := engineRunning x;
     rate := rate x; pitch := pitch x; playerQueue := playerQueue x;
     playerPlaying := playerPlaying x;
     playerSampleTime := playerSampleTime x; schedulingQueue := v |}.

Definition set_playerSampleTime (v : option Z) (x : t) : t :=
  {| audioFile := audioFile x; audioFormat := audioFormat x;
     sampleRate := sampleRate x; loopStartSec := loopStartSec x;
     loopEndSec := loopEndSec x; crossfadeMs := crossfadeMs x;
     isPlaying := isPlaying x; engineRunning := engineRunning x;
     rate := rate x; pitch := pitch x; playerQueue := playerQueue x;
     playerPlaying := playerPlaying x; playerSampleTime := v;
     schedulingQueue := schedulingQueue x |}.

Definition init : t :=
  {| audioFile := None; audioFormat := None; sampleRate := 44100;
     loopStartSec := 0; loopEndSec := 0; crossfadeMs := 8;
     isPlaying := false; engineRunning := true; rate := 1; pitch := 0;
     playerQueue := []; playerPlaying := false; playerSampleTime := None;
     schedulingQueue := [] |}.

(** *** Integer conversions

    Swift's integer conversions and integer arithmetic stop the program
    when the value does not fit the type: a method either returns or
    traps. *)
Inductive outcome (A : Type) : Type :=
| Returns (a : A)
| Traps.
Arguments Returns {A} a.
Arguments Traps {A}.

Definition andThen {A B} (m : outcome A) (k : A -> outcome B)
  : outcome B :=
  match m with
  | Returns a => k a
  | Traps => Traps
  end.

Notation "'let*' x := m 'in' k" := (andThen m (fun x => k))
  (at level 10, x name, m at level 100, k at level 200).

Definition inInt64 (z : Z) : bool :=
  ((- 2 ^ 63 <=? z) && (z <? 2 ^ 63))%Z.

Definition inUInt32 (z : Z) : bool :=
  ((0 <=? z) && (z <? 2 ^ 32))%Z.

(** [Int(x)] and [AVAudioFramePosition(x)] for a [Double]: the value
    truncated toward zero, when it is a 64-bit integer. *)
Definition Int (x : Q) : outcome Z :=
  if inInt64 (JS.trunc x) then Returns (JS.trunc x) else Traps.

Definition AVAudioFramePosition (x : Q) : outcome Z := Int x.

(** [AVAudioFrameCount(n)] for an [Int]: a 32-bit unsigned integer. *)
Definition AVAudioFrameCount (n : Z) : outcome Z :=
  if inUInt32 n then Returns n else Traps.

(** [a - b] on 64-bit integers. *)
Definition sub (a b : Z) : outcome Z :=
  if inInt64 (a - b) then Returns (a - b)%Z else Traps.

(** The body of [loadAudioFromPath] once the file is opened. *)
Definition loadAudio (file : AudioFile) (s : t) : t * Q :=
  let s := set_audioFile (Some file) s in
  let s := set_audioFormat (Some (processingFormat file)) s in
  let s := set_sampleRate (fileSampleRate file) s in
  (s, inject_Z (fileLength file) / sampleRate s).

(** The player node: [stop] empties its queue and resets its timeline;
    [playerSampleTime] is the sample time the node reports while it
    renders, [None] when it has none. *)
Definition playerStop (s : t) : t :=
  set_playerSampleTime None (set_playerPlaying false (set_playerQueue [] s)).

Definition playerSchedule (item : scheduledItem) (s : t) : t :=
  set_playerQueue (playerQueue s ++ [item]) s.

Definition readFrames (s : t) (file : AudioFile) (start : Z) (count : nat)
  : option PCMBuffer :=
  match audioFormat s with
  | None => None
  | Some _ => readInto file start count
  end.

(** One sample of the crossfade: frame [i] of [cf], in [Float]
    arithmetic with the [cosf] and [sinf] of the library [m]. *)
Definition crossfadeSample (m : Float.libm) (cf i : nat)
    (endPtr startPtr : list Q) : Q :=
  let x := Float.div (Float.ofInt (Z.of_nat i))
             (Float.ofInt (Z.max (Z.of_nat cf - 1) 1)) in
  let a := Float.cosf m (Float.mul (Float.mul Float.pi (1 # 2)) x) in
  let b := Float.sinf m (Float.mul (Float.mul Float.pi (1 # 2)) x) in
  Float.add (Float.mul (Float.mul (nth i endPtr 0) a) a)
            (Float.mul (Float.mul (nth i startPtr 0) b) b).

Definition makeCrossfadeBuffer (m : Float.libm) (s : t) (file : AudioFile)
    (startFrame endFrame crossfadeFrames : Z) : outcome (option PCMBuffer) :=
  match audioFormat s with
  | None => Returns None
  | Some format =>
      let cf := Z.to_nat crossfadeFrames in
      if (crossfadeFrames <=? 0)%Z then Returns None
      else
        let* fromEnd := sub endFrame crossfadeFrames in
        let endStart := Z.max fromEnd 0 in
        match readFrames s file endStart cf with
        | None => Returns None
        | Some endBuf =>
            match readFrames s file startFrame cf with
            | None => Returns None
            | Some startBuf =>
                Returns
                  (Some (map (fun ch =>
                                map (fun i =>
                                       crossfadeSample m cf i
                                         (nth ch endBuf [])
                                         (nth ch startBuf []))
                                    (seq 0 cf))
                             (seq 0 (channelCount format))))
            end
        end
  end.

(** [AVAudioFrameCount(max(1, Int((crossfadeMs / 1000.0) * sampleRate)))] *)
Definition crossfadeFrames (s : t) : outcome Z :=
  let* n := Int (crossfadeMs s / 1000 * sampleRate s) in
  AVAudioFrameCount (Z.max 1 n).

Definition scheduleNextCycle (interrupt : bool) (s : t) : outcome t :=
  match audioFile s with
  | None => Returns s
  | Some file =>
      let* startFrame := AVAudioFramePosition (loopStartSec s * sampleRate s) in
      let* endFrame := AVAudioFramePosition (loopEndSec s * sampleRate s) in
      let* totalFrames := sub endFrame startFrame in
      if (totalFrames <=? 0)%Z then Returns s
      else
        let* cfFrames := crossfadeFrames s in
        let* rest := sub totalFrames cfFrames in
        let* mainFrames := AVAudioFrameCount (Z.max 0 rest) in
        Returns
          (set_schedulingQueue
             (schedulingQueue s
              ++ [CycleTask interrupt file startFrame endFrame mainFrames
                    cfFrames]) s)
  end.

Definition scheduleAt (timeSec : Q) (s : t) : outcome t :=
  match audioFile s with
  | None => Returns s
  | Some file =>
      let t := Qmin (Qmax timeSec (loopStartSec s)) (loopEndSec s) in
      let* startFrame := AVAudioFramePosition (t * sampleRate s) in
      let* endFrame := AVAudioFramePosition (loopEndSec s * sampleRate s) in
      let* cfFrames := crossfadeFrames s in
      let* toEnd := sub endFrame startFrame in
      let* rest := sub toEnd cfFrames in
      let* framesToEnd := AVAudioFrameCount (Z.max 0 rest) in
      Returns
        (set_schedulingQueue
           (schedulingQueue s
            ++ [SeekTask file startFrame framesToEnd cfFrames]) s)
  end.

Definition setLoopPoints (start end_ : Q) (s : t) : outcome t :=
  let s := set_loopStartSec (Qmax 0 start) s in
  let s := set_loopEndSec (Qmax (loopStartSec s) end_) s in
  if isPlaying s then scheduleNextCycle true s else Returns s.


Definition setPitch (semitones : Q) (s : t) : t :=
  set_pitch (semitones * 100) s.

Definition play (s : t) : outcome t :=
  if isPlaying s then Returns s
  else
    let s := set_isPlaying true s in
    let s := if engineRunning s then s else set_engineRunning true s in
    let* s := scheduleNextCycle true s in
    Returns (set_playerPlaying true s).

Definition pause (s : t) : t :=
  set_playerPlaying false (set_isPlaying false s).

Definition seek (time : Q) (s : t) : outcome t :=
  let t := Qmax 0 time in
  scheduleAt t s.

Definition getCurrentTime (s : t) : Q :=
  match playerSampleTime s with
  | None => loopStartSec s
  | Some sampleTime =>
      inject_Z sampleTime / sampleRate s
      / (if Qeq_bool (rate s) 0 then 1 else rate s)
  end.

(** The body of a dispatched block. *)
Definition runTask (m : Float.libm) (k : task) (s : t) : outcome t :=
  match k with
  | CycleTask interrupt file startFrame endFrame mainFrames cfFrames =>
      let s := if interrupt then playerStop s else s in
      let s := if (mainFrames >? 0)%Z
               then playerSchedule (Segment startFrame mainFrames) s
               else s in
      let* made := makeCrossfadeBuffer m s file startFrame endFrame cfFrames in
      Returns
        match made with
        | Some xfade => playerSchedule (Buffer xfade NextCycleIfPlaying) s
        | None => s
        end
  | SeekTask file startFrame framesToEnd cfFrames =>
      let s := playerStop s in
      let s := if (framesToEnd >? 0)%Z
               then playerSchedule (Segment startFrame framesToEnd) s
               else s in
      let* loopStartFrame :=
        AVAudioFramePosition (loopStartSec s * sampleRate s) in
      let* loopEndFrame :=
        AVAudioFramePosition (loopEndSec s * sampleRate s) in
      let* made :=
        makeCrossfadeBuffer m s file loopStartFrame loopEndFrame cfFrames in
      let s :=
        match made with
        | Some xfade => playerSchedule (Buffer xfade NextCycle) s
        | None => s
        end in
      Returns (set_isPlaying true (set_playerPlaying true s))
  end.

(** The scheduling queue is serial: it runs its oldest block. *)
Definition runNext (m : Float.libm) (s : t) : outcome t :=
  match schedulingQueue s with
  | [] => Returns s
  | k :: rest => runTask m k (set_schedulingQueue rest s)
  end.


(** [handleInterruption] for an interruption that began. *)
Definition handleInterruptionBegan (s : t) : t := pause s.

(** Frames an item of the player's queue lasts: a crossfade buffer has
    as many frames as each of its channels. *)
Definition itemFrames (item : scheduledItem) : Z :=
  match item with
  | Segment _ frameCount => frameCount
  | Buffer samples _ => Z.of_nat (List.length (nth 0 samples []))
  end.

Definition queuedFrames (q : list scheduledItem) : Z :=
  fold_right (fun item acc => (itemFrames item + acc)%Z) 0%Z q.

(** The state a method leaves, the state before it when it trapped. *)
Definition result (before : t) (o : outcome t) : t :=
  match o with
  | Returns s => s
  | Traps => before
  end.

(** The frames of the loop region and of the crossfade, as the
    conversions give them when they succeed. *)
Definition loopStartFrame (s : t) : Z := JS.trunc (loopStartSec s * sampleRate s).
Definition loopEndFrame (s : t) : Z := JS.trunc (loopEndSec s * sampleRate s).
Definition cfFrames (s : t) : Z :=
  Z.max 1 (JS.trunc (crossfadeMs s / 1000 * sampleRate s)).

(** The frame positions of the loop region and the frame counts of a
    cycle fit their integer types: positions are 64-bit integers, not
    negative, and the crossfade and the region have fewer than [2 ^ 32]
    frames. *)
Definition fits (s : t) : Prop :=
  (0 <= loopStartFrame s < 2 ^ 63)%Z /\
  (0 <= loopEndFrame s < 2 ^ 63)%Z /\
  (loopEndFrame s - loopStartFrame s < 2 ^ 32)%Z /\
  (- 2 ^ 63 <= JS.trunc (crossfadeMs s / 1000 * sampleRate s) < 2 ^ 32)%Z.

(** *** A session of the native looper

    A ten-second mono file at 44100 Hz holding a sawtooth of period 8
    frames between -1/2 and 3/8; reading succeeds inside the file.
    [demoRegion] has the region from 2 s to 4 s set and is not playing.
    [demoLooping] loops the first four seconds, started from 0 s by a
    seek; [demoAtThree] is that session once the player has rendered
    three seconds. *)
Definition demoSample (frame : Z) : Q := inject_Z (frame mod 8 - 4) / 8.

Definition demoFile : AudioFile :=
  {| fileLength := 441000;
     processingFormat := {| channelCount := 1 |};
     fileSampleRate := 44100;
     readInto := fun start count =>
       if ((0 <=? start) && (start + Z.of_nat count <=? 441000))%Z
       then Some [map (fun k => demoSample (start + Z.of_nat k)) (seq 0 count)]
       else None |}.

Definition demoLoaded : t := fst (loadAudio demoFile init).





End NativeAudioLooperImpl.

(** ** The waveform worker (src/workers/WaveformWorker.ts) *)

Module WaveformWorker.
Import JS.

(** The values a bin can hold: a number, [NaN], or [undefined] for a
    hole of the array. *)
Inductive value : Type :=
| Number (q : Q)
| NaN
| Undefined.

(** The array index a number denotes, if it is a non-negative
    integer. *)
Definition toIndex (x : Q) : option nat :=
  if Qeq_bool (inject_Z (Qfloor x)) x && (0 <=? Qfloor x)%Z
  then Some (Z.to_nat (Qfloor x)) else None.

(** [audioData[j]] on a typed array. *)
Definition read (audioData : list Q) (j : Q) : value :=
  match toIndex j with
  | Some n =>
      match audioData !! n with
      | Some x => Number x
      | None => Undefined
      end
  | None => Undefined
  end.

(** [Math.abs] and [Math.max]: what is not a number gives [NaN]. *)
Definition abs (v : value) : value :=
  match v with
  | Number q => Number (Qabs q)
  | _ => NaN
  end.

Definition max2 (a b : value) : value :=
  match a, b with
  | Number x, Number y => Number (Qmax x y)
  | _, _ => NaN
  end.

(** [waveformData[i] = v] on an array: an index past the end leaves
    holes, a key that is no index leaves the elements alone. *)
Definition write (data : list value) (i : Q) (v : value) : list value :=
  match toIndex i with
  | Some n =>
      if (n <? List.length data)%nat then <[n := v]> data
      else data ++ repeat Undefined (n - List.length data) ++ [v]
  | None => data
  end.

(** The values of [x] in [for (let x = from; x < to; x++)]. *)
Definition upTo (from to_ : Q) : list Q :=
  map (fun k => from + inject_Z (Z.of_nat k))
      (seq 0 (Z.to_nat (Qceiling (to_ - from)))).

(** The message received; [sampleRate] is not used. *)
Record request : Type := {
  audioData : list Q;
  samples : Q;
  startSample : option Q;
  endSample : option Q
}.

Inductive message : Type :=
| ProgressMessage (progress : Q)
| WaveformGenerated (waveformData : list value) (totalSamples : Q).

Definition audioLength (r : request) : Q :=
  inject_Z (Z.of_nat (List.length (audioData r))).

(** [endSample || audioData.length]: 0 is falsy. *)
Definition actualEndSample (r : request) : Q :=
  match endSample r with
  | Some e => if Qeq_bool e 0 then audioLength r else e
  | None => audioLength r
  end.

Definition actualStartSample (r : request) : Q :=
  max 0 (match startSample r with Some s => s | None => 0 end).

Definition actualEndSampleClamped (r : request) : Q :=
  min (actualEndSample r) (audioLength r).

Definition actualSampleRange (r : request) : Q :=
  actualEndSampleClamped r - actualStartSample r.

(** For [samples = 0] the quotient of the source is infinite or [NaN];
    no bin is computed then. *)
Definition samplesPerBin (r : request) : Q :=
  max 1 (inject_Z (floor (actualSampleRange r / samples r))).

(** The body of the loop over [i]: the peak of bin [i]. *)
Definition bin (r : request) (i : Q) : value :=
  let start := actualStartSample r + i * samplesPerBin r in
  let end_ := min (start + samplesPerBin r) (actualEndSampleClamped r) in
  fold_left
    (fun max j =>
       if ltb j (audioLength r)
       then max2 max (abs (read (audioData r) j))
       else max)
    (upTo start end_) (Number 0).

(** The variables [processChunk] closes over, and the messages
    posted. *)
Record state : Type := {
  processed : Q;
  waveformData : list value;
  posted : list message
}.

Definition chunkSize : Q := 1000.

(** One call of [processChunk]: the state it leaves and whether it
    asked to be called again. *)
Definition processChunk (r : request) (st : state) : state * bool :=
  let endIndex := min (processed st + chunkSize) (samples r) in
  let data :=
    fold_left (fun d i => write d i (bin r i))
      (upTo (processed st) endIndex) (waveformData st) in
  let processed' := endIndex in
  let posted' :=
    if gtb (audioLength r) 1000000 && Qeq_bool (rem processed' 100) 0
    then posted st ++ [ProgressMessage (processed' / samples r)]
    else posted st in
  if ltb processed' (samples r)
  then ({| processed := processed'; waveformData := data;
           posted := posted' |}, true)
  else ({| processed := processed'; waveformData := data;
           posted := posted'
                     ++ [WaveformGenerated data (actualSampleRange r)] |},
        false).

(** The chain of calls through [setTimeout], at most [fuel] of them. *)
Fixpoint run (fuel : nat) (r : request) (st : state) : option state :=
  match fuel with
  | O => None
  | S fuel' =>
      let '(st', again) := processChunk r st in
      if again then run fuel' r st' else Some st'
  end.

(** The handler of a [generateWaveform] message. *)
Definition onmessage (fuel : nat) (r : request) : option state :=
  run fuel r {| processed := 0; waveformData := []; posted := [] |}.

(** Two values that are the same number, up to the representation of
    the rational. *)
Definition sameValue (a b : value) : Prop :=
  match a, b with
  | Number x, Number y => x == y
  | NaN, NaN => True
  | Undefined, Undefined => True
  | _, _ => False
  end.

(** The samples bin [n] looks at: from [first] on, [count] of them at
    most, none at or past [stop]. *)
Definition window (audioData : list Q) (first count stop : Z)
  : list Q :=
  take (Z.to_nat (Z.min count (stop - first)))
       (drop (Z.to_nat first) audioData).

(** The largest magnitude in a list of samples, 0 for none. *)
Definition peak (l : list Q) : Q :=
  fold_left (fun m x => Qmax m (Qabs x)) l 0.

(** The peak bin [n] should hold: the largest magnitude among the
    [samplesPerBin] samples from [actualStartSample + n * samplesPerBin]
    on that lie before [actualEndSampleClamped]. *)
Definition binPeak (r : request) (n : nat) : Q :=
  peak (window (audioData r)
          (Qfloor (actualStartSample r)
           + Z.of_nat n * Qfloor (samplesPerBin r))
          (Qfloor (samplesPerBin r))
          (Qceiling (actualEndSampleClamped r))).

Definition isProgress (m : message) : Prop :=
  match m with
  | ProgressMessage _ => True
  | WaveformGenerated _ _ => False
  end.

(** A quarter of a second of a ramp at 8 Hz, asked for in three
    bins. *)
Definition demoRequest : request :=
  {| audioData := [0; 1 # 4; -(1 # 2); 3 # 4; -1; 1 # 2; 0];
     samples := 3; startSample := Some 1; endSample := None |}.

End WaveformWorker.

(** ** The handlers of the player interface (component
    [PlayerInterface])

    A handler is modelled as the function from the state its closure
    reads to the values it hands to the state setters and to the
    looper. *)

Module PlayerInterface.
Import JS.

(** [Math.round]. *)
Definition round (x : Q) : Z := Qfloor (x + (1 # 2)).

(** *** Tap tempo *)


(** [intervals.reduce((sum, interval) => sum + interval, 0)]. *)
Definition sum (l : list Q) : Q := fold_left Qplus l 0.


(** *** Automatic speed ramp *)




(** *** The loop markers *)

(** The state the marker handlers read and set. *)
Record markers : Type := {
  loopStart : option Q;
  loopEnd : option Q;
  duration : Q;
  lastScrubTime : Q
}.

Definition set_loopStart (v : option Q) (m : markers) : markers :=
  {| loopStart := v; loopEnd := loopEnd m; duration := duration m;
     lastScrubTime := lastScrubTime m |}.

Definition set_loopEnd (v : option Q) (m : markers) : markers :=
  {| loopStart := loopStart m; loopEnd := v; duration := duration m;
     lastScrubTime := lastScrubTime m |}.

Definition set_lastScrubTime (v : Q) (m : markers) : markers :=
  {| loopStart := loopStart m; loopEnd := loopEnd m;
     duration := duration m; lastScrubTime := v |}.

(** [calculateTimeFromPosition(clientX)], for a progress bar at
    [rectLeft] of width [rectWidth]. *)
Definition calculateTimeFromPosition (rectLeft rectWidth clientX : Q)
    (m : markers) : Q :=
  if Qeq_bool (duration m) 0 then 0
  else
    let clickX := clientX - rectLeft in
    let clickRatio := max 0 (min 1 (clickX / rectWidth)) in
    clickRatio * duration m.

Inductive direction : Type := left | right.
Inductive dragType : Type := start | end_.

(** [getNudgeIncrement()]. *)
Definition getNudgeIncrement (isAudio : bool) : Q :=
  if isAudio then 5 # 1000 else 1 # 60.

Definition orElse (v : option Q) (d : Q) : Q :=
  match v with
  | Some x => x
  | None => d
  end.

(** [handleMarkerDrag] while a marker of type [type] is dragged, for
    the time [newTime] under the pointer: the state after it and the
    time the looper is asked to seek to, if the pointer moved enough. *)
Definition handleMarkerDrag (type : dragType) (newTime : Q) (m : markers)
  : markers * option Q :=
  let scrub := gtb (Qabs (newTime - lastScrubTime m)) (16 # 1000) in
  let m1 := if scrub then set_lastScrubTime newTime m else m in
  let m2 :=
    match type with
    | start =>
        let maxTime := orElse (loopEnd m) (duration m) in
        set_loopStart (Some (max 0 (min newTime maxTime))) m1
    | end_ =>
        let minTime := orElse (loopStart m) 0 in
        set_loopEnd (Some (max minTime (min newTime (duration m)))) m1
    end in
  (m2, if scrub then Some newTime else None).

(** [handleNudgeLoopStart] and [handleNudgeLoopEnd]: the markers after
    the call and the time the looper is asked to seek to. *)
Definition handleNudgeLoopStart (isAudio : bool) (d : direction)
    (m : markers) : markers * option Q :=
  match loopStart m with
  | None => (m, None)
  | Some loopStart =>
      let increment := getNudgeIncrement isAudio in
      let newTime :=
        match d with
        | left => max 0 (loopStart - increment)
        | right =>
            min (orElse (loopEnd m) (duration m)) (loopStart + increment)
        end in
      (set_loopStart (Some newTime) m, Some newTime)
  end.

Definition handleNudgeLoopEnd (isAudio : bool) (d : direction)
    (m : markers) : markers * option Q :=
  match loopEnd m with
  | None => (m, None)
  | Some loopEnd =>
      let increment := getNudgeIncrement isAudio in
      let newTime :=
        match d with
        | left => max (orElse (loopStart m) 0) (loopEnd - increment)
        | right => min (duration m) (loopEnd + increment)
        end in
      (set_loopEnd (Some newTime) m, Some newTime)
  end.

(** The gestures that move a marker. *)
Inductive gesture : Type :=
| Drag (type : dragType) (rectLeft rectWidth clientX : Q)
| NudgeStart (d : direction)
| NudgeEnd (d : direction).

(** A gesture on the markers of the render it happens in: the markers
    after it and the seek it asks of the looper. *)
Definition perform (isAudio : bool) (g : gesture) (m : markers)
  : markers * option Q :=
  match g with
  | Drag type rectLeft rectWidth clientX =>
      handleMarkerDrag type
        (calculateTimeFromPosition rectLeft rectWidth clientX m) m
  | NudgeStart d => handleNudgeLoopStart isAudio d m
  | NudgeEnd d => handleNudgeLoopEnd isAudio d m
  end.

(** Gestures one after the other, each on the markers the previous one
    left. *)
Fixpoint performAll (isAudio : bool) (gs : list gesture) (m : markers)
  : markers * list Q :=
  match gs with
  | [] => (m, [])
  | g :: gs' =>
      let '(m1, sought) := perform isAudio g m in
      let '(m2, rest) := performAll isAudio gs' m1 in
      (m2, match sought with Some t => t :: rest | None => rest end)
  end.

(** A gesture on a progress bar that has a width. *)
Definition onBar (g : gesture) : Prop :=
  match g with
  | Drag _ _ rectWidth _ => 0 < rectWidth
  | _ => True
  end.

(** Markers inside the media and in order. *)
Definition inside (m : markers) (x : option Q) : Prop :=
  match x with
  | Some t => 0 <= t /\ t <= duration m
  | None => True
  end.

Definition ordered (m : markers) : Prop :=
  0 <= duration m /\ inside m (loopStart m) /\ inside m (loopEnd m) /\
  match loopStart m, loopEnd m with
  | Some a, Some b => a <= b
  | _, _ => True
  end.


Definition demoMarkers : markers :=
  {| loopStart := Some 2; loopEnd := Some 4; duration := 10;
     lastScrubTime := 0 |}.

End PlayerInterface.

(** ** The throttled state hook (src/hooks/useThrottledState.ts) *)

Module ThrottledState.
Import JS.

Section Hook.
Context {T : Type}.

(** The state of the hook: the React state, the three refs (a timeout
    is kept with the time it is due; a value of [T] is never [null]),
    and the clock readings at which [setState] was called. *)
Record t : Type := {
  state : T;
  lastUpdate : Q;
  pendingUpdate : option T;
  timeout : option Q;
  updates : list Q
}.

(** [setThrottledState(newValue)] at clock reading [now]. *)
Definition setThrottledState (throttleMs now : Q) (newValue : T) (s : t)
  : t :=
  let timeSinceLastUpdate := now - lastUpdate s in
  if geb timeSinceLastUpdate throttleMs then
    {| state := newValue; lastUpdate := now; pendingUpdate := None;
       timeout := None; updates := updates s ++ [now] |}
  else
    let remainingTime := throttleMs - timeSinceLastUpdate in
    {| state := state s; lastUpdate := lastUpdate s;
       pendingUpdate := Some newValue;
       timeout := match timeout s with
                  | Some due => Some due
                  | None => Some (now + remainingTime)
                  end;
       updates := updates s |}.

(** The callback of the timeout, run at clock reading [now]. *)
Definition timeoutCallback (now : Q) (s : t) : t :=
  match pendingUpdate s with
  | Some v =>
      {| state := v; lastUpdate := now; pendingUpdate := None;
         timeout := None; updates := updates s ++ [now] |}
  | None =>
      {| state := state s; lastUpdate := lastUpdate s;
         pendingUpdate := None; timeout := None; updates := updates s |}
  end.

(** What happens to the hook: a call of the setter, or the platform
    running the timeout, which it does only when one is armed and
    due. *)
Inductive event : Type :=
| Set_ (now : Q) (newValue : T)
| Fire (now : Q).

Definition step (throttleMs : Q) (e : event) (s : t) : t :=
  match e with
  | Set_ now v => setThrottledState throttleMs now v s
  | Fire now =>
      match timeout s with
      | Some due => if leb due now then timeoutCallback now s else s
      | None => s
      end
  end.

Definition run (throttleMs : Q) (es : list event) (s : t) : t :=
  fold_left (fun s e => step throttleMs e s) es s.

(** The value of the last call of the setter among the events. *)
Fixpoint lastSet (es : list event) (before : option T) : option T :=
  match es with
  | [] => before
  | Set_ _ v :: es' => lastSet es' (Some v)
  | Fire _ :: es' => lastSet es' before
  end.

Definition init (initialValue : T) : t :=
  {| state := initialValue; lastUpdate := 0; pendingUpdate := None;
     timeout := None; updates := [] |}.

(** Consecutive readings at least [gap] apart. *)
Fixpoint spaced (gap : Q) (l : list Q) : Prop :=
  match l with
  | a :: (b :: _) as rest => a + gap <= b /\ spaced gap rest
  | _ => True
  end.

End Hook.

Arguments t T : clear implicits.
Arguments event T : clear implicits.

End ThrottledState.

(** ** The pointer guard hook ([usePointerActionGuard]) *)

Module PointerActionGuard.

Inductive event : Type :=
| PointerDown
| PointerUp
| PointerCancel
| Click.

(** The guard: [handledRef.current] and the number of times [action]
    was called. *)
Record t : Type := {
  handled : bool;
  calls : nat
}.

Definition init : t := {| handled := false; calls := 0 |}.

Definition onPointerDown (g : t) : t :=
  {| handled := true; calls := S (calls g) |}.

Definition onPointerUp (g : t) : t :=
  {| handled := false; calls := calls g |}.

Definition onPointerCancel (g : t) : t :=
  {| handled := false; calls := calls g |}.

Definition onClick (g : t) : t :=
  {| handled := false;
     calls := if handled g then calls g else S (calls g) |}.

Definition handle (e : event) (g : t) : t :=
  match e with
  | PointerDown => onPointerDown g
  | PointerUp => onPointerUp g
  | PointerCancel => onPointerCancel g
  | Click => onClick g
  end.

Definition run (es : list event) (g : t) : t :=
  fold_left (fun g e => handle e g) es g.

Definition isPointerDown (e : event) : bool :=
  match e with
  | PointerDown => true
  | _ => false
  end.

Definition isClick (e : event) : bool :=
  match e with
  | Click => true
  | _ => false
  end.

(** No click comes directly after a pointer-down: something, a
    pointer-up for one, is delivered between the two. *)
Fixpoint separated (es : list event) : Prop :=
  match es with
  | PointerDown :: (Click :: _) => False
  | _ :: es' => separated es'
  | [] => True
  end.

End PointerActionGuard.

(** * Properties *)

(** ** Arithmetic of the remainder *)

Section Remainder.
Import JS.

Lemma Qdiv_nonneg (x y : Q) : 0 <= x -> 0 < y -> 0 <= x / y.
Proof.
  intros Hx Hy. apply Qle_shift_div_l; [exact Hy|]. lra.
Qed.

Lemma trunc_nonneg (q : Q) : 0 <= q -> trunc q = Qfloor q.
Proof.
  intros Hq. unfold trunc.
  destruct (Qle_bool 0 q) eqn:E; [reflexivity|].
  apply Qle_bool_iff in Hq. congruence.
Qed.

Lemma floor_div_bounds (x y : Q) :
  0 < y ->
  y * inject_Z (Qfloor (x / y)) <= x /\
  x < y * inject_Z (Qfloor (x / y)) + y.
Proof.
  intros Hy.
  assert (Hxy : x == (x / y) * y) by (field; lra).
  pose proof (Qfloor_le (x / y)) as Hlo.
  pose proof (Qlt_floor (x / y)) as Hhi.
  rewrite inject_Z_plus in Hhi. change (inject_Z 1) with 1 in Hhi.
  set (q := inject_Z (Qfloor (x / y))) in *.
  set (d := x / y) in *.
  split.
  - rewrite Hxy. nra.
  - rewrite Hxy at 1. nra.
Qed.

Lemma modulo_range (x y : Q) : 0 < y -> 0 <= modulo x y /\ modulo x y < y.
Proof.
  intros Hy. unfold modulo.
  destruct (floor_div_bounds x y Hy). split; lra.
Qed.

Lemma rem_modulo (x y : Q) : 0 <= x -> 0 < y -> rem x y = modulo x y.
Proof.
  intros Hx Hy. unfold rem, modulo.
  rewrite trunc_nonneg; [reflexivity|]. now apply Qdiv_nonneg.
Qed.

Lemma Qfloor_unit (q : Q) : 0 <= q -> q < 1 -> Qfloor q = 0%Z.
Proof.
  intros H0 H1.
  pose proof (Qfloor_le q) as Hlo.
  pose proof (Qlt_floor q) as Hhi.
  assert (Ha : (Qfloor q < 1)%Z).
  { rewrite Zlt_Qlt. change (inject_Z 1) with 1. lra. }
  assert (Hb : (-1 < Qfloor q)%Z).
  { rewrite Zlt_Qlt. rewrite inject_Z_plus in Hhi.
    change (inject_Z 1) with 1 in Hhi. change (inject_Z (-1)) with (-1).
    lra. }
  lia.
Qed.

Lemma modulo_small (r y : Q) : 0 <= r -> r < y -> modulo r y == r.
Proof.
  intros H0 H1. unfold modulo.
  assert (Hy : 0 < y) by lra.
  rewrite (Qfloor_unit (r / y)).
  - change (inject_Z 0) with 0. lra.
  - now apply Qdiv_nonneg.
  - apply Qlt_shift_div_r; lra.
Qed.

Lemma Qdiv_comp_l (a b y : Q) : a == b -> a / y == b / y.
Proof. intros E. now rewrite E. Qed.

Lemma modulo_comp (a b y : Q) : a == b -> modulo a y == modulo b y.
Proof.
  intros E. unfold modulo.
  rewrite (Qfloor_comp _ _ (Qdiv_comp_l a b y E)). now rewrite E.
Qed.

End Remainder.

(** ** The channel loops of [process] *)

Section ChannelLoop.
Import JS LoopProcessor.

(** A loop over the channels [a .. a+n-1] whose body writes [val ch]
    at frame [sample] of channel [ch] changes those rows of the block at
    that frame, and nothing else. *)
Lemma channel_loop (val : nat -> Q) (body : nat -> block -> res block)
    (sample : nat) :
  forall (n a : nat) (output : block),
    (forall ch out, (a <= ch < a + n)%nat ->
       body ch out = Ok (write out ch sample (val ch))) ->
    exists output',
      for_each (seq a n) body output = Ok output' /\
      forall ch,
        ((a <= ch < a + n)%nat ->
           output' !! ch = (fun d => <[sample := val ch]> d) <$> output !! ch) /\
        ((ch < a \/ a + n <= ch)%nat -> output' !! ch = output !! ch).
Proof.
  induction n as [|n IH]; intros a output Hbody.
  - exists output. split; [reflexivity|].
    intros ch. split; [lia | reflexivity].
  - cbn [seq for_each].
    rewrite (Hbody a output) by lia. cbn [bind].
    destruct (IH (S a) (write output a sample (val a))) as (output' & Hrun & Hrows).
    { intros ch out Hch. apply Hbody. lia. }
    exists output'. split; [exact Hrun|].
    intros ch. split.
    + intros Hch. destruct (Nat.eq_dec ch a) as [->|Hne].
      * destruct (Hrows a) as [_ Hout]. rewrite Hout by lia.
        unfold write. apply list_lookup_alter_eq.
      * destruct (Hrows ch) as [Hin _]. rewrite Hin by lia.
        unfold write. rewrite list_lookup_alter_ne by congruence.
        reflexivity.
    + intros Hch. destruct (Hrows ch) as [_ Hout]. rewrite Hout by lia.
      unfold write. rewrite list_lookup_alter_ne by lia. reflexivity.
Qed.

Lemma getChannelData_ok (p : t) (b : AudioBuffer) (channel : nat) :
  wf p -> audioBuffer p = Some b -> (channel < bufferChannels p)%nat ->
  exists d, getChannelData b channel = Ok d /\
            Z.of_nat (List.length d) = bufferLength p.
Proof.
  unfold wf. intros Hwf Hb Hch. rewrite Hb in Hwf.
  destruct Hwf as ((Hlen & _ & Hall) & Hc & Hl).
  unfold getChannelData.
  destruct (channels b !! channel) as [d|] eqn:E.
  - exists d. split; [reflexivity|].
    rewrite Hl. exact (Forall_lookup_1 _ _ _ _ Hall E).
  - apply lookup_ge_None in E. lia.
Qed.

Lemma getInterpolatedSample_ok (p : t) (i : Z) (fr : Q) (channel : nat) :
  wf p -> (channel < bufferChannels p)%nat ->
  exists v, getInterpolatedSample p i fr channel = Ok v.
Proof.
  intros Hwf Hch. unfold getInterpolatedSample.
  destruct (audioBuffer p) as [b|] eqn:Hb; [|eauto].
  destruct (i >=? bufferLength p - 1)%Z; [eauto|].
  destruct (getChannelData_ok p b channel Hwf Hb Hch) as (d & -> & _).
  cbn [bind]. eauto.
Qed.

End ChannelLoop.

(** ** The loop processor: wrap at the loop boundary *)

Section LoopWrap.
Import JS LoopProcessor.

Lemma floor_ge_cursor (c bound : Q) :
  bound <= inject_Z (floor c) -> bound <= c.
Proof.
  intros H. pose proof (Qfloor_le c). unfold floor in H. lra.
Qed.

Lemma atLoopEnd_true (p : t) :
  isLooping p = true ->
  0 < loopEndSample p ->
  loopEndSample p <= inject_Z (floor (currentSample p)) ->
  atLoopEnd p = true.
Proof.
  intros Hl Hpos Hge. unfold atLoopEnd, gtb, geb. rewrite Hl. cbn [andb].
  apply andb_true_intro. split.
  - apply negb_true_iff. apply not_true_iff_false.
    rewrite Qle_bool_iff. lra.
  - apply Qle_bool_iff. exact Hge.
Qed.

(** C1.  With looping enabled, a loop end after the loop start and the
    integer part of the cursor at or past the loop end, the position
    [wrapCursor] jumps to is [loopStart + ((c - loopEnd) mod loopLength)];
    it lies in [[loopStart, loopEnd)] and keeps the overshoot,
    [(new - loopStart) mod loopLength = (c - loopEnd) mod loopLength].
    When moreover the loop end is positive (the guard of [process]),
    the frame moves the cursor there before advancing it by the
    playback rate, and every channel of that frame receives the sample
    interpolated at the new position, scaled by the volume. *)
Theorem wrap_keeps_overshoot (p : t) (channelCount sample : nat)
    (output : block) (log : list effect) :
  isLooping p = true ->
  loopStartSample p < loopEndSample p ->
  loopEndSample p <= inject_Z (floor (currentSample p)) ->
  let c := currentSample p in
  let loopLength := loopEndSample p - loopStartSample p in
  let c' := wrapCursor p in
  let p' := set_currentSample c' p in
  c' == loopStartSample p + modulo (c - loopEndSample p) loopLength /\
  (loopStartSample p <= c' /\ c' < loopEndSample p) /\
  modulo (c' - loopStartSample p) loopLength
    == modulo (c - loopEndSample p) loopLength /\
  rem (c' - loopStartSample p) loopLength
    == rem (c - loopEndSample p) loopLength /\
  (0 < loopEndSample p -> wf p -> (channelCount <= bufferChannels p)%nat ->
   exists output',
     frame channelCount sample (p, output, log)
     = Ok (set_currentSample (c' + playbackRate p) p', output',
           log ++ [LoopLog (floor c) (floor c') c']) /\
     forall channel, (channel < channelCount)%nat ->
       exists v,
         getInterpolatedSample p' (floor c') (c' - inject_Z (floor c'))
           channel = Ok v /\
         output' !! channel
         = (fun d => <[sample := v * volume p]> d) <$> output !! channel).
Proof.
  intros Hloop Hlen Hge c loopLength c' p'.
  assert (Hc : loopEndSample p <= c) by (now apply floor_ge_cursor).
  assert (Hx : 0 <= c - loopEndSample p) by lra.
  assert (Hl : 0 < loopLength) by (unfold loopLength; lra).
  assert (Hrem : rem (c - loopEndSample p) loopLength
                 = modulo (c - loopEndSample p) loopLength)
    by (now apply rem_modulo).
  destruct (modulo_range (c - loopEndSample p) loopLength Hl) as [Hr0 Hr1].
  assert (Hc' : c' = loopStartSample p
                     + modulo (c - loopEndSample p) loopLength).
  { unfold c', wrapCursor. fold loopLength. fold c. now rewrite Hrem. }
  assert (Hdiff : c' - loopStartSample p
                  == modulo (c - loopEndSample p) loopLength)
    by (rewrite Hc'; lra).
  assert (Hmod : modulo (c' - loopStartSample p) loopLength
                 == modulo (c - loopEndSample p) loopLength).
  { rewrite (modulo_comp _ _ loopLength Hdiff).
    now apply modulo_small. }
  split; [rewrite Hc'; reflexivity|].
  split.
  { rewrite Hc'.
    assert (HL : loopLength == loopEndSample p - loopStartSample p)
      by reflexivity.
    revert Hr0 Hr1 HL.
    generalize (modulo (c - loopEndSample p) loopLength) as r.
    generalize loopLength as len.
    intros len r Hr0 Hr1 HL. split; lra. }
  split; [exact Hmod|].
  split.
  { assert (H0 : 0 <= c' - loopStartSample p).
    { apply Qle_trans with (1 := Hr0). apply Qle_lteq. right.
      symmetry. exact Hdiff. }
    rewrite Hrem. rewrite (rem_modulo _ _ H0 Hl). exact Hmod. }
  intros Hpos Hwf Hcc.
  pose (val := fun channel =>
    match getInterpolatedSample p' (floor c') (c' - inject_Z (floor c'))
            channel with
    | Ok v => v * volume p
    | Throw _ => 0
    end).
  assert (Hwf' : wf p') by exact Hwf.
  destruct (channel_loop val
              (fun channel out =>
                 do channelSample <-
                   getInterpolatedSample p' (floor (currentSample p'))
                     (currentSample p' - inject_Z (floor (currentSample p')))
                     channel ;
                 Ok (write out channel sample (channelSample * volume p')))
              sample channelCount 0%nat output) as (output' & Hrun & Hrows).
  { intros channel out Hch. unfold val. cbn [currentSample p' set_currentSample].
    destruct (getInterpolatedSample_ok p' (floor c')
                (c' - inject_Z (floor c')) channel Hwf') as (v & Hv).
    { cbn. lia. }
    unfold p' in Hv |- *. rewrite Hv. reflexivity. }
  exists output'. split.
  - unfold frame. rewrite (atLoopEnd_true p Hloop Hpos Hge).
    fold c' p'. rewrite Hrun. reflexivity.
  - intros channel Hch.
    destruct (getInterpolatedSample_ok p' (floor c')
                (c' - inject_Z (floor c')) channel Hwf') as (v & Hv).
    { cbn. lia. }
    exists v. split; [exact Hv|].
    destruct (Hrows channel) as [Hin _]. rewrite Hin by lia.
    unfold val. rewrite Hv. reflexivity.
Qed.

End LoopWrap.

(** ** The loop processor: past the end of the asset *)

Section PastTheEnd.
Import JS LoopProcessor.






End PastTheEnd.

(** ** The loop processor: the callback returns *)

Section NeverThrows.
Import JS LoopProcessor.

Lemma interpolation_loop (p : t) (i : Z) (fr : Q) (channelCount sample : nat)
    (output : block) :
  wf p -> (channelCount <= bufferChannels p)%nat ->
  exists output',
    for_each (seq 0 channelCount)
      (fun channel out =>
         do channelSample <- getInterpolatedSample p i fr channel ;
         Ok (write out channel sample (channelSample * volume p)))
      output = Ok output'.
Proof.
  intros Hwf Hcc.
  destruct (channel_loop
              (fun channel =>
                 match getInterpolatedSample p i fr channel with
                 | Ok v => v * volume p
                 | Throw _ => 0
                 end)
              (fun channel out =>
                 do channelSample <- getInterpolatedSample p i fr channel ;
                 Ok (write out channel sample (channelSample * volume p)))
              sample channelCount 0%nat output) as (output' & Hrun & _).
  - intros channel out Hch.
    destruct (getInterpolatedSample_ok p i fr channel Hwf) as (v & ->);
      [lia | reflexivity].
  - eauto.
Qed.

Lemma frame_ok (channelCount sample : nat) (p : t) (output : block)
    (log : list effect) :
  wf p -> (channelCount <= bufferChannels p)%nat ->
  exists p' output' log',
    frame channelCount sample (p, output, log) = Ok (p', output', log') /\
    wf p' /\ bufferChannels p' = bufferChannels p.
Proof.
  intros Hwf Hcc. unfold frame.
  destruct (atLoopEnd p).
  - set (p1 := set_currentSample (wrapCursor p) p).
    destruct (interpolation_loop p1 (floor (currentSample p1))
                (currentSample p1 - inject_Z (floor (currentSample p1)))
                channelCount sample output Hwf Hcc) as (output' & ->).
    cbn [bind]. eexists _, _, _. split; [reflexivity|]. split; [exact Hwf|].
    reflexivity.
  - destruct (floor (currentSample p) <? bufferLength p)%Z.
    + destruct (interpolation_loop p (floor (currentSample p))
                  (currentSample p - inject_Z (floor (currentSample p)))
                  channelCount sample output Hwf Hcc) as (output' & ->).
      cbn [bind]. eexists _, _, _. split; [reflexivity|].
      split; [exact Hwf | reflexivity].
    + destruct (channel_loop (fun _ => 0)
                  (fun channel out => Ok (write out channel sample 0))
                  sample channelCount 0%nat output) as (output' & -> & _);
        [reflexivity|].
      cbn [bind]. eexists _, _, _. split; [reflexivity|].
      split; [exact Hwf | reflexivity].
Qed.

Lemma frames_ok (channelCount : nat) :
  forall (frames : list nat) (p : t) (output : block) (log : list effect),
    wf p -> (channelCount <= bufferChannels p)%nat ->
    exists p' output' log',
      for_each frames (frame channelCount) (p, output, log)
      = Ok (p', output', log') /\ wf p'.
Proof.
  induction frames as [|sample frames IH]; intros p output log Hwf Hcc.
  - cbn. eauto 6.
  - cbn [for_each].
    destruct (frame_ok channelCount sample p output log Hwf Hcc)
      as (p' & output' & log' & -> & Hwf' & Hch).
    cbn [bind]. apply IH; [exact Hwf' | lia].
Qed.

(** [process] returns, and keeps the invariant, given at least one
    output. *)
Lemma process_ok (p : t) (outputs : list block) :
  wf p -> outputs <> [] ->
  exists p' outputs' log,
    process p outputs = Ok (p', outputs', log, true) /\ wf p'.
Proof.
  intros Hwf Hne. unfold process.
  destruct (negb (isPlaying p)); [eauto 7|].
  destruct (audioBuffer p) eqn:Hb; [|eauto 7].
  destruct outputs as [|output others]; [congruence|].
  destruct output as [|first rest]; [eauto 7|].
  destruct (frames_ok
              (Nat.min (List.length (first :: rest)) (bufferChannels p))
              (seq 0 (List.length first)) p (first :: rest) [] Hwf)
    as (p' & output' & log & -> & Hwf'); [lia|].
  cbn [bind]. eauto 7.
Qed.

(** The invariant holds initially and every message keeps it, a buffer
    received being one of the platform's. *)
Lemma wf_init (sr : Q) : wf (init sr).
Proof. exact I. Qed.

Lemma wf_handleMessage (c : command) (p : t) :
  wf p ->
  match c with
  | SET_BUFFER b => wf_buffer b
  | _ => True
  end ->
  wf (fst (handleMessage c p)).
Proof.
  intros Hwf Hc. destruct c; try exact Hwf.
  cbn. unfold wf. cbn. auto.
Qed.

Lemma index_in_range (d : list Q) (i : Z) :
  (0 <= i < Z.of_nat (List.length d))%Z -> is_Some (index d i).
Proof.
  intros Hi. unfold index.
  destruct (i <? 0)%Z eqn:E; [apply Z.ltb_lt in E; lia|].
  apply lookup_lt_is_Some. lia.
Qed.

(** C10 (amended).  Given at least one output, as the host passes,
    [process] returns without an exception in every state kept by
    [setBuffer]; when playback is not active or no asset is loaded it
    returns the state and the output block unchanged and emits nothing;
    the interpolation returns 0 when no buffer is present or the index
    is at or past [bufferLength - 1]; and for a cursor that is not
    negative both reads of the interpolation fall inside the channel
    data. *)
Theorem process_returns :
  (forall (p : t) (outputs : list block),
     wf p -> outputs <> [] -> exists r, process p outputs = Ok r) /\
  (forall (p : t) (outputs : list block),
     isPlaying p = false \/ audioBuffer p = None ->
     process p outputs = Ok (p, outputs, [], true)) /\
  (forall (p : t) (sampleIndex : Z) (fraction : Q) (channel : nat),
     audioBuffer p = None \/ (bufferLength p - 1 <= sampleIndex)%Z ->
     getInterpolatedSample p sampleIndex fraction channel = Ok 0) /\
  (forall (p : t) (b : AudioBuffer) (channel : nat) (cursor : Q),
     wf p -> audioBuffer p = Some b ->
     (channel < bufferChannels p)%nat ->
     0 <= cursor ->
     (floor cursor < bufferLength p - 1)%Z ->
     exists channelData,
       getChannelData b channel = Ok channelData /\
       is_Some (index channelData (floor cursor)) /\
       is_Some (index channelData (floor cursor + 1))).
Proof.
  split.
  { intros p outputs Hwf Hne.
    destruct (process_ok p outputs Hwf Hne) as (p' & o & l & H & _). eauto. }
  split; [|split].
  - intros p outputs [H|H]; unfold process; rewrite H; [reflexivity|].
    destruct (negb (isPlaying p)); reflexivity.
  - intros p i fr ch [H|H]; unfold getInterpolatedSample.
    + now rewrite H.
    + destruct (audioBuffer p); [|reflexivity].
      assert (E : (i >=? bufferLength p - 1)%Z = true)
        by (apply Z.geb_le; exact H).
      now rewrite E.
  - intros p b ch c Hwf Hb Hch Hc Hlt.
    destruct (getChannelData_ok p b ch Hwf Hb Hch) as (d & Hd & Hlen).
    exists d. split; [exact Hd|].
    assert (H0 : (0 <= floor c)%Z).
    { change 0%Z with (Qfloor 0). apply Qfloor_resp_le. exact Hc. }
    split; apply index_in_range; lia.
Qed.

End NeverThrows.

(** ** The loop processor over a whole session *)

Section ProcessorSession.
Import JS LoopProcessor.

(** From any state kept by [setBuffer], a session of admissible inputs
    runs to its end without an exception: every block asked for is
    rendered. *)
Lemma session_returns :
  forall (ins : list input) (p : t),
    wf p -> Forall admissible ins ->
    exists p' rendered log,
      session ins p = Ok (p', rendered, log) /\ wf p' /\
      List.length rendered = renders ins.
Proof.
  induction ins as [|i ins IH]; intros p Hwf Hall.
  - exists p, [], []. auto.
  - inversion Hall as [|? ? Hi Hrest]; subst.
    destruct i as [data|outputs]; cbn [session renders].
    + destruct (handleMessage data p) as [p1 sent] eqn:Hm.
      assert (Hwf1 : wf p1).
      { replace p1 with (fst (handleMessage data p)) by (now rewrite Hm).
        apply wf_handleMessage; [exact Hwf|].
        destruct data; try exact I. exact Hi. }
      destruct (IH p1 Hwf1 Hrest) as (p' & rendered & log & -> & Hwf' & Hlen).
      cbn [bind]. eauto 7.
    + destruct (process_ok p outputs Hwf Hi) as (p1 & o1 & sent & -> & Hwf1).
      cbn [bind].
      destruct (IH p1 Hwf1 Hrest) as (p' & rendered & log & -> & Hwf' & Hlen).
      cbn [bind]. eexists _, _, _. split; [reflexivity|].
      split; [exact Hwf'|]. cbn [List.length]. now rewrite Hlen.
Qed.

(** X1.  A processor created at any sample rate runs every session of
    admissible inputs (buffers of the platform, at least one output per
    call of [process]) to its end: no message and no block makes it
    throw, and it renders as many blocks as it was asked for. *)
Theorem session_never_throws (sr : Q) (ins : list input) :
  Forall admissible ins ->
  exists p' rendered log,
    session ins (init sr) = Ok (p', rendered, log) /\
    wf p' /\ List.length rendered = renders ins.
Proof. intros Hall. apply session_returns; [apply wf_init | exact Hall]. Qed.

End ProcessorSession.

(** ** The loop processor: the shape of the block *)

Section BlockShape.
Import JS LoopProcessor.

Lemma sameShape_refl (o : block) : sameShape o o.
Proof. split; reflexivity. Qed.

Lemma sameShape_trans (o1 o2 o3 : block) :
  sameShape o1 o2 -> sameShape o2 o3 -> sameShape o1 o3.
Proof.
  intros [L1 S1] [L2 S2]. split; [congruence|].
  intros ch. now rewrite S2, S1.
Qed.

Lemma write_shape (o : block) (ch s : nat) (v : Q) :
  sameShape o (write o ch s v) /\
  forall ch', ch' <> ch -> write o ch s v !! ch' = o !! ch'.
Proof.
  unfold write. split.
  - split; [apply length_alter|].
    intros ch'. destruct (Nat.eq_dec ch ch') as [<-|Hne].
    + rewrite list_lookup_alter_eq.
      destruct (o !! ch) as [d|]; cbn; [|reflexivity].
      now rewrite length_insert.
    + now rewrite list_lookup_alter_ne by exact Hne.
  - intros ch' Hne. apply list_lookup_alter_ne. congruence.
Qed.

(** A loop over channels whose body, when it returns, has written one
    sample of its channel keeps the shape of the block and the channels
    it does not visit. *)
Lemma channel_loop_shape (body : nat -> block -> res block) (s : nat) :
  (forall ch out out', body ch out = Ok out' ->
     exists v, out' = write out ch s v) ->
  forall (l : list nat) (out out' : block),
    for_each l body out = Ok out' ->
    sameShape out out' /\
    forall ch, ~ In ch l -> out' !! ch = out !! ch.
Proof.
  intros Hbody. induction l as [|c l IH]; intros out out' H.
  - injection H as <-. split; [apply sameShape_refl | reflexivity].
  - cbn [for_each] in H.
    destruct (body c out) as [out1|] eqn:Hb; cbn [bind] in H;
      [|discriminate].
    destruct (Hbody _ _ _ Hb) as (v & ->).
    destruct (IH _ _ H) as [Hs Hrest].
    destruct (write_shape out c s v) as [Hw Hother].
    split; [eapply sameShape_trans; eauto|].
    intros ch Hin. rewrite Hrest by (intros Hc; apply Hin; now right).
    apply Hother. intros ->. apply Hin. now left.
Qed.

Lemma interpolating_body (p : t) (i : Z) (fr : Q) (s : nat) :
  forall ch out out',
    (do channelSample <- getInterpolatedSample p i fr ch ;
     Ok (write out ch s (channelSample * volume p))) = Ok out' ->
    exists v, out' = write out ch s v.
Proof.
  intros ch out out' H.
  destruct (getInterpolatedSample p i fr ch) as [v|]; cbn [bind] in H;
    [|discriminate].
  injection H as <-. eauto.
Qed.

Lemma frame_shape (cc s : nat) (p p' : t) (out out' : block)
    (log log' : list effect) :
  frame cc s (p, out, log) = Ok (p', out', log') ->
  sameShape out out' /\
  forall ch, (cc <= ch)%nat -> out' !! ch = out !! ch.
Proof.
  unfold frame. intros H.
  assert (Hnot : forall ch, (cc <= ch)%nat -> ~ In ch (seq 0 cc)).
  { intros ch Hch Hin. apply in_seq in Hin. lia. }
  destruct (atLoopEnd p).
  - match type of H with
    | context [for_each ?l ?b ?o] => destruct (for_each l b o) as [o1|] eqn:Hl
    end; cbn [bind] in H; [|discriminate].
    injection H as <- <- <-.
    destruct (channel_loop_shape _ s (interpolating_body _ _ _ s) _ _ _ Hl)
      as [Hs Hrest].
    split; [exact Hs|]. intros ch Hch. apply Hrest. now apply Hnot.
  - destruct (floor (currentSample p) <? bufferLength p)%Z.
    + match type of H with
      | context [for_each ?l ?b ?o] =>
          destruct (for_each l b o) as [o1|] eqn:Hl
      end; cbn [bind] in H; [|discriminate].
      injection H as <- <- <-.
      destruct (channel_loop_shape _ s (interpolating_body _ _ _ s) _ _ _ Hl)
        as [Hs Hrest].
      split; [exact Hs|]. intros ch Hch. apply Hrest. now apply Hnot.
    + match type of H with
      | context [for_each ?l ?b ?o] =>
          destruct (for_each l b o) as [o1|] eqn:Hl
      end; cbn [bind] in H; [|discriminate].
      injection H as <- <- <-.
      assert (Hb : forall ch o o', Ok (write o ch s 0) = Ok o' ->
                                   exists v, o' = write o ch s v).
      { intros ch o o' E. injection E as <-. eauto. }
      destruct (channel_loop_shape _ s Hb _ _ _ Hl) as [Hs Hrest].
      split; [exact Hs|]. intros ch Hch. apply Hrest. now apply Hnot.
Qed.

Lemma frames_shape (cc : nat) :
  forall (frames : list nat) (p p' : t) (out out' : block)
         (log log' : list effect),
    for_each frames (frame cc) (p, out, log) = Ok (p', out', log') ->
    sameShape out out' /\
    forall ch, (cc <= ch)%nat -> out' !! ch = out !! ch.
Proof.
  induction frames as [|s frames IH]; intros p p' out out' log log' H.
  - injection H as <- <- <-. split; [apply sameShape_refl | reflexivity].
  - cbn [for_each] in H.
    destruct (frame cc s (p, out, log)) as [[[p1 out1] log1]|] eqn:Hf;
      cbn [bind] in H; [|discriminate].
    destruct (frame_shape _ _ _ _ _ _ _ _ Hf) as [Hs1 Hr1].
    destruct (IH _ _ _ _ _ _ H) as [Hs Hr].
    split; [eapply sameShape_trans; eauto|].
    intros ch Hch. rewrite Hr by exact Hch. now apply Hr1.
Qed.

(** X2.  When [process] returns, it returns [true]; only the first
    output was written; that block has the shape it had (as many
    channels, of the same lengths), and its channels beyond the channel
    count of the asset are exactly as the host passed them: a mono asset
    leaves the second channel of a stereo output alone. *)
Theorem process_keeps_shape (p p' : t) (outputs outputs' : list block)
    (log : list effect) (keep : bool) :
  process p outputs = Ok (p', outputs', log, keep) ->
  keep = true /\
  (outputs = [] -> outputs' = []) /\
  forall output others,
    outputs = output :: others ->
    exists output',
      outputs' = output' :: others /\
      sameShape output output' /\
      forall ch,
        (Nat.min (List.length output) (bufferChannels p) <= ch)%nat ->
        output' !! ch = output !! ch.
Proof.
  unfold process. intros H.
  assert (Hid : keep = true -> outputs' = outputs ->
    keep = true /\
    (outputs = [] -> outputs' = []) /\
    forall output others,
      outputs = output :: others ->
      exists output',
        outputs' = output' :: others /\
        sameShape output output' /\
        forall ch,
          (Nat.min (List.length output) (bufferChannels p) <= ch)%nat ->
          output' !! ch = output !! ch).
  { intros -> ->. split; [reflexivity|]. split; [auto|].
    intros output others ->. exists output.
    split; [reflexivity|]. split; [apply sameShape_refl | reflexivity]. }
  destruct (negb (isPlaying p));
    [injection H as _ <- _ <-; now apply Hid|].
  destruct (audioBuffer p); [|injection H as _ <- _ <-; now apply Hid].
  destruct outputs as [|output others]; [discriminate|].
  destruct output as [|first rest];
    [injection H as _ <- _ <-; now apply Hid|].
  match type of H with
  | context [for_each ?l ?b ?o] =>
      destruct (for_each l b o) as [[[p1 out1] log1]|] eqn:Hl
  end; cbn [bind] in H; [|discriminate].
  injection H as _ <- _ <-. split; [reflexivity|].
  split; [discriminate|].
  intros output others' E. injection E as <- <-.
  destruct (frames_shape _ _ _ _ _ _ _ _ Hl) as [Hs Hr].
  exists out1. split; [reflexivity|]. split; [exact Hs | exact Hr].
Qed.

End BlockShape.
(** ** The loop processor: how the cursor moves *)

Section CursorMoves.
Import JS LoopProcessor.

(** The fields a frame never writes. *)
Lemma frame_cursor (cc s : nat) (p p' : t) (out out' : block)
    (log log' : list effect) :
  frame cc s (p, out, log) = Ok (p', out', log') ->
  p' = set_currentSample (readPosition p + playbackRate p) p.
Proof.
  unfold frame, readPosition. intros H.
  destruct (atLoopEnd p).
  - match type of H with
    | context [for_each ?l ?b ?o] => destruct (for_each l b o) as [o1|]
    end; cbn [bind] in H; [|discriminate].
    injection H as <- _ _. reflexivity.
  - destruct (floor (currentSample p) <? bufferLength p)%Z;
      match type of H with
      | context [for_each ?l ?b ?o] => destruct (for_each l b o) as [o1|]
      end; cbn [bind] in H; try discriminate;
      injection H as <- _ _; reflexivity.
Qed.




Lemma not_atLoopEnd_below (p : t) (e : Z) :
  isLooping p = true -> 0 < loopEndSample p ->
  loopEndSample p == inject_Z e ->
  atLoopEnd p = false -> currentSample p < loopEndSample p.
Proof.
  intros Hl Hpos He Hat. unfold atLoopEnd, gtb, geb in Hat.
  rewrite Hl in Hat. cbn [andb] in Hat.
  assert (Hg : Qle_bool (loopEndSample p) 0 = false).
  { apply not_true_iff_false. rewrite Qle_bool_iff. lra. }
  rewrite Hg in Hat. cbn [negb andb] in Hat.
  apply not_true_iff_false in Hat. rewrite Qle_bool_iff in Hat.
  assert (Hz : (floor (currentSample p) < e)%Z).
  { rewrite Zlt_Qlt. rewrite <- He. lra. }
  pose proof (Qlt_floor (currentSample p)) as Hlt.
  assert (Hle : inject_Z (Qfloor (currentSample p) + 1) <= inject_Z e).
  { rewrite <- Zle_Qle. unfold floor in Hz. lia. }
  rewrite He. lra.
Qed.

Lemma atLoopEnd_inv (p : t) :
  atLoopEnd p = true ->
  isLooping p = true /\ 0 < loopEndSample p /\
  loopEndSample p <= currentSample p.
Proof.
  unfold atLoopEnd, gtb, geb. intros H.
  apply andb_true_iff in H. destruct H as [H Hge].
  apply andb_true_iff in H. destruct H as [Hl Hpos].
  split; [exact Hl|]. split.
  - apply negb_true_iff, not_true_iff_false in Hpos.
    rewrite Qle_bool_iff in Hpos. lra.
  - apply Qle_bool_iff in Hge. now apply floor_ge_cursor.
Qed.

Lemma wrapCursor_range (p : t) :
  loopStartSample p < loopEndSample p ->
  loopEndSample p <= currentSample p ->
  loopStartSample p <= wrapCursor p /\ wrapCursor p < loopEndSample p.
Proof.
  intros Hlen Hc. unfold wrapCursor.
  set (len := loopEndSample p - loopStartSample p).
  assert (Hl : 0 < len) by (unfold len; lra).
  rewrite rem_modulo by lra.
  destruct (modulo_range (currentSample p - loopEndSample p) len Hl)
    as [H0 H1].
  assert (HL : len == loopEndSample p - loopStartSample p) by reflexivity.
  revert H0 H1 HL.
  generalize (modulo (currentSample p - loopEndSample p) len) as r.
  generalize len as l. intros l r H0 H1 HL. split; lra.
Qed.

(** The position read by a frame of a looping processor. *)
Lemma readPosition_in_region (p : t) (e : Z) :
  isLooping p = true -> 0 < loopEndSample p ->
  loopStartSample p < loopEndSample p ->
  loopEndSample p == inject_Z e ->
  readPosition p < loopEndSample p /\
  (loopStartSample p <= currentSample p ->
   loopStartSample p <= readPosition p).
Proof.
  intros Hl Hpos Hlen He. unfold readPosition.
  destruct (atLoopEnd p) eqn:Hat.
  - destruct (atLoopEnd_inv p Hat) as (_ & _ & Hc).
    destruct (wrapCursor_range p Hlen Hc). auto.
  - split; [|auto]. eapply not_atLoopEnd_below; eauto.
Qed.

Lemma frames_in_region (cc : nat) (e : Z) :
  forall (frames : list nat) (p p' : t) (out out' : block)
         (log log' : list effect),
    isLooping p = true -> 0 < loopEndSample p ->
    loopStartSample p < loopEndSample p ->
    loopEndSample p == inject_Z e ->
    0 <= playbackRate p ->
    for_each frames (frame cc) (p, out, log) = Ok (p', out', log') ->
    (loopStartSample p <= currentSample p ->
     loopStartSample p <= currentSample p') /\
    (currentSample p < loopEndSample p + playbackRate p ->
     currentSample p' < loopEndSample p + playbackRate p) /\
    (frames <> [] ->
     currentSample p' < loopEndSample p + playbackRate p).
Proof.
  induction frames as [|s frames IH];
    intros p p' out out' log log' Hl Hpos Hlen He Hrate H.
  - injection H as <- <- <-. split; [auto|]. split; [auto | congruence].
  - cbn [for_each] in H.
    destruct (frame cc s (p, out, log)) as [[[p1 out1] log1]|] eqn:Hf;
      cbn [bind] in H; [|discriminate].
    pose proof (frame_cursor _ _ _ _ _ _ _ _ Hf) as ->.
    destruct (readPosition_in_region p e Hl Hpos Hlen He) as [Hhi Hlo].
    destruct (IH (set_currentSample (readPosition p + playbackRate p) p)
                p' out1 out' log1 log' Hl Hpos Hlen He Hrate H)
      as (Ha & Hb & _).
    cbn [currentSample loopStartSample loopEndSample playbackRate
         set_currentSample] in Ha, Hb.
    split.
    { intros H0. apply Ha. specialize (Hlo H0). lra. }
    assert (Hend : currentSample p' < loopEndSample p + playbackRate p)
      by (apply Hb; lra).
    split; auto.
Qed.

(** X4.  A looping processor whose loop end is a positive whole number
    of samples after the loop start, run at a rate that is not negative,
    never reads the asset at or past the loop end; once its cursor is
    at or after the loop start it never reads before it; and after
    every block the cursor is below the loop end plus one step of the
    rate, and not before the loop start if it was not. *)
Theorem looping_stays_in_region (p : t) (e : Z) :
  isLooping p = true -> 0 < loopEndSample p ->
  loopStartSample p < loopEndSample p ->
  loopEndSample p == inject_Z e ->
  0 <= playbackRate p ->
  (readPosition p < loopEndSample p /\
   (loopStartSample p <= currentSample p ->
    loopStartSample p <= readPosition p)) /\
  forall (outputs outputs' : list block) (p' : t) (log : list effect)
         (keep : bool),
    process p outputs = Ok (p', outputs', log, keep) ->
    (loopStartSample p <= currentSample p ->
     loopStartSample p <= currentSample p') /\
    (currentSample p < loopEndSample p + playbackRate p ->
     currentSample p' < loopEndSample p + playbackRate p).
Proof.
  intros Hl Hpos Hlen He Hrate.
  split; [now apply readPosition_in_region with (e := e)|].
  intros outputs outputs' p' log keep H. unfold process in H.
  destruct (negb (isPlaying p)); [injection H as <- _ _ _; auto|].
  destruct (audioBuffer p); [|injection H as <- _ _ _; auto].
  destruct outputs as [|output others]; [discriminate|].
  destruct output as [|first rest]; [injection H as <- _ _ _; auto|].
  match type of H with
  | context [for_each ?l ?b ?o] =>
      destruct (for_each l b o) as [[[p1 out1] log1]|] eqn:Hf
  end; cbn [bind] in H; [|discriminate].
  injection H as <- _ _ _.
  destruct (frames_in_region _ e _ _ _ _ _ _ _ Hl Hpos Hlen He Hrate Hf)
    as (Ha & Hb & _).
  auto.
Qed.

End CursorMoves.
(** ** The loop processor: interpolation and the unused crossfade *)

Section Interpolation.
Import JS LoopProcessor.

Lemma between_neighbours (s1 s2 fr : Q) :
  0 <= fr -> fr <= 1 ->
  Qmin s1 s2 <= s1 + (s2 - s1) * fr /\ s1 + (s2 - s1) * fr <= Qmax s1 s2.
Proof.
  intros H0 H1. destruct (Qlt_le_dec s2 s1) as [Hlt|Hle].
  - rewrite Q.min_r, Q.max_l by lra. split; nra.
  - rewrite Q.min_l, Q.max_r by lra. split; nra.
Qed.

Lemma fraction_range (c : Q) :
  0 <= c - inject_Z (floor c) /\ c - inject_Z (floor c) < 1.
Proof.
  unfold floor. pose proof (Qfloor_le c) as Hlo.
  pose proof (Qlt_floor c) as Hhi.
  rewrite inject_Z_plus in Hhi. change (inject_Z 1) with 1 in Hhi.
  split; lra.
Qed.

(** X5.  Inside the asset (index from 0 to [bufferLength - 2]) the
    interpolation reads two samples that exist, returns
    [s1 + (s2 - s1) * fraction], which for a fraction between 0 and 1
    (as the fraction of every cursor is) lies between the two samples
    and is [s1] itself for a whole cursor; at index [bufferLength - 1]
    it returns 0: the last sample of the asset is never output. *)
Theorem interpolation_between_neighbours (p : t) (b : AudioBuffer)
    (channel : nat) (sampleIndex : Z) :
  wf p -> audioBuffer p = Some b -> (channel < bufferChannels p)%nat ->
  (0 <= sampleIndex < bufferLength p - 1)%Z ->
  (exists channelData s1 s2,
     getChannelData b channel = Ok channelData /\
     channelData !! Z.to_nat sampleIndex = Some s1 /\
     channelData !! Z.to_nat (sampleIndex + 1) = Some s2 /\
     forall fraction,
       getInterpolatedSample p sampleIndex fraction channel
       = Ok (s1 + (s2 - s1) * fraction) /\
       (fraction == 0 -> s1 + (s2 - s1) * fraction == s1) /\
       (0 <= fraction -> fraction <= 1 ->
        Qmin s1 s2 <= s1 + (s2 - s1) * fraction /\
        s1 + (s2 - s1) * fraction <= Qmax s1 s2)) /\
  (forall fraction,
     getInterpolatedSample p (bufferLength p - 1) fraction channel = Ok 0) /\
  (forall cursor,
     0 <= cursor - inject_Z (floor cursor) /\
     cursor - inject_Z (floor cursor) < 1).
Proof.
  intros Hwf Hb Hch Hi.
  split; [|split; [|exact fraction_range]].
  - destruct (getChannelData_ok p b channel Hwf Hb Hch) as (d & Hd & Hlen).
    destruct (index_in_range d sampleIndex) as [s1 H1]; [lia|].
    destruct (index_in_range d (sampleIndex + 1)) as [s2 H2]; [lia|].
    exists d, s1, s2. split; [exact Hd|].
    assert (E1 : d !! Z.to_nat sampleIndex = Some s1).
    { unfold index in H1.
      destruct (sampleIndex <? 0)%Z; [discriminate | exact H1]. }
    assert (E2 : d !! Z.to_nat (sampleIndex + 1) = Some s2).
    { unfold index in H2.
      destruct (sampleIndex + 1 <? 0)%Z; [discriminate | exact H2]. }
    split; [exact E1|]. split; [exact E2|].
    intros fr. split.
    + unfold getInterpolatedSample. rewrite Hb.
      assert (E : (sampleIndex >=? bufferLength p - 1)%Z = false)
        by (rewrite Z.geb_leb; apply Z.leb_gt; lia).
      rewrite E, Hd. cbn [bind]. rewrite H1, H2. reflexivity.
    + split; [intros ->; lra | apply between_neighbours].
  - intros fr. unfold getInterpolatedSample. rewrite Hb.
    assert (E : (bufferLength p - 1 >=? bufferLength p - 1)%Z = true)
      by (apply Z.geb_le; lia).
    now rewrite E.
Qed.

(** X6.  The linear crossfade of the processor (which [process] does not
    call): with a sample rate of at least 1000 Hz, so that the fade
    length [floor (sampleRate / 1000)] is at least one sample, it gives
    the output sample at fade position 0, the loop sample at the full
    fade length, and in between a value between the two. *)
Theorem applyCrossfade_blends (p : t) (outputSample loopSample : Q) :
  1000 <= sampleRate p ->
  (1 <= crossfadeSamples p)%Z /\
  applyCrossfade p outputSample loopSample 0 == outputSample /\
  applyCrossfade p outputSample loopSample (inject_Z (crossfadeSamples p))
    == loopSample /\
  forall fadePosition,
    0 <= fadePosition -> fadePosition <= inject_Z (crossfadeSamples p) ->
    Qmin outputSample loopSample
      <= applyCrossfade p outputSample loopSample fadePosition /\
    applyCrossfade p outputSample loopSample fadePosition
      <= Qmax outputSample loopSample.
Proof.
  intros Hsr.
  assert (Hcf : (1 <= crossfadeSamples p)%Z).
  { unfold crossfadeSamples, floor.
    assert (H1 : 1 <= sampleRate p * (1 # 1000)) by lra.
    exact (Qfloor_resp_le _ _ H1). }
  assert (Hq : 1 <= inject_Z (crossfadeSamples p)).
  { change 1 with (inject_Z 1). now rewrite <- Zle_Qle. }
  split; [exact Hcf|]. unfold applyCrossfade.
  set (n := inject_Z (crossfadeSamples p)) in *.
  split; [field; lra|]. split; [field; lra|].
  intros pos H0 H1.
  assert (Hr0 : 0 <= pos / n) by (apply Qle_shift_div_l; lra).
  assert (Hr1 : pos / n <= 1) by (apply Qle_shift_div_r; lra).
  destruct (between_neighbours outputSample loopSample (pos / n) Hr0 Hr1)
    as [Ha Hb].
  set (r := pos / n) in *. split.
  - eapply Qle_trans; [exact Ha|]. apply Qle_lteq. right. ring.
  - eapply Qle_trans; [|exact Hb]. apply Qle_lteq. right. ring.
Qed.

End Interpolation.

(** ** The worklet facade and its processor *)

Section Facade.
Import JS AudioWorkletLooper.


Lemma round_mono (x y : Q) : x <= y -> (round x <= round y)%Z.
Proof. intros H. unfold round. apply Qfloor_resp_le. lra. Qed.

Lemma round_step (x y : Q) : x + 1 <= y -> (round x + 1 <= round y)%Z.
Proof.
  intros H. unfold round.
  assert (E : (Qfloor (x + (1 # 2)) + 1)%Z = Qfloor (x + (1 # 2) + 1)).
  { pose proof (Qfloor_le (x + (1 # 2))) as Hlo.
    pose proof (Qlt_floor (x + (1 # 2))) as Hhi.
    pose proof (Qfloor_le (x + (1 # 2) + 1)) as Hlo'.
    pose proof (Qlt_floor (x + (1 # 2) + 1)) as Hhi'.
    rewrite inject_Z_plus in Hhi, Hhi'.
    change (inject_Z 1) with 1 in Hhi, Hhi'.
    assert (A : (Qfloor (x + (1 # 2)) < Qfloor (x + (1 # 2) + 1))%Z).
    { rewrite Zlt_Qlt. lra. }
    assert (B : (Qfloor (x + (1 # 2) + 1) < Qfloor (x + (1 # 2)) + 2)%Z).
    { rewrite Zlt_Qlt, inject_Z_plus. change (inject_Z 2) with 2. clear A. lra. }
    lia. }
  rewrite E. apply Qfloor_resp_le. lra.
Qed.


(** X8.  Loop points set through the facade reach the processor as whole
    samples, in the order of the times: a start not after the end gives
    a loop start not after the loop end, a region of at least one sample
    period gives a loop of at least one sample, and a start that is not
    negative a loop start that is not negative. *)
Theorem facade_loop_points (f : t) (p : LoopProcessor.t) (a : DecodedAudio)
    (startTime endTime : Q) :
  workletNode f = true -> audioBuffer f = Some a -> 0 < bufferRate a ->
  let after := post (snd (setLoopPoints startTime endTime f))
                 (fst (setLoopPoints startTime endTime f), p) in
  let startSample := round (startTime * bufferRate a) in
  let endSample := round (endTime * bufferRate a) in
  LoopProcessor.loopStartSample (snd after) = inject_Z startSample /\
  LoopProcessor.loopEndSample (snd after) = inject_Z endSample /\
  loopStartTime (fst after) = startTime /\
  loopEndTime (fst after) = endTime /\
  (startTime <= endTime -> (startSample <= endSample)%Z) /\
  (1 <= (endTime - startTime) * bufferRate a ->
   (startSample + 1 <= endSample)%Z) /\
  (0 <= startTime -> (0 <= startSample)%Z).
Proof.
  intros Hw Ha Hr after startSample endSample.
  unfold after, setLoopPoints. rewrite Hw, Ha.
  cbn [negb fst snd post fold_left LoopProcessor.handleMessage
       LoopProcessor.setLoopPoints LoopProcessor.loopStartSample
       LoopProcessor.loopEndSample loopStartTime loopEndTime
       set_loopStartTime set_loopEndTime].
  do 4 (split; [reflexivity|]).
  split; [|split].
  - intros H. apply round_mono. nra.
  - intros H. apply round_step. nra.
  - intros H. change 0%Z with (round 0). apply round_mono. nra.
Qed.

Lemma frames_move_only_cursor (cc : nat) :
  forall (frames : list nat) (p p' : LoopProcessor.t)
         (out out' : list (list Q)) (log log' : list LoopProcessor.effect),
    for_each frames (LoopProcessor.frame cc) (p, out, log)
    = Ok (p', out', log') ->
    p' = LoopProcessor.set_currentSample (LoopProcessor.currentSample p') p.
Proof.
  induction frames as [|s frames IH]; intros p p' out out' log log' H.
  - injection H as <- <- <-. now destruct p.
  - cbn [for_each] in H.
    destruct (LoopProcessor.frame cc s (p, out, log))
      as [[[p1 out1] log1]|] eqn:Hf; cbn [bind] in H; [|discriminate].
    pose proof (frame_cursor _ _ _ _ _ _ _ _ Hf) as ->.
    apply IH in H. rewrite H. reflexivity.
Qed.

(** [process] writes no field of the processor but the cursor. *)
Lemma process_moves_only_cursor (p p' : LoopProcessor.t)
    (outputs outputs' : list (list (list Q)))
    (log : list LoopProcessor.effect) (keep : bool) :
  LoopProcessor.process p outputs = Ok (p', outputs', log, keep) ->
  p' = LoopProcessor.set_currentSample (LoopProcessor.currentSample p') p.
Proof.
  unfold LoopProcessor.process. intros H.
  destruct (negb (LoopProcessor.isPlaying p));
    [injection H as <- _ _ _; now destruct p|].
  destruct (LoopProcessor.audioBuffer p);
    [|injection H as <- _ _ _; now destruct p].
  destruct outputs as [|output others]; [discriminate|].
  destruct output as [|first rest];
    [injection H as <- _ _ _; now destruct p|].
  match type of H with
  | context [for_each ?l ?b ?o] =>
      destruct (for_each l b o) as [[[p1 out1] log1]|] eqn:Hf
  end; cbn [bind] in H; [|discriminate].
  injection H as <- _ _ _. eapply frames_move_only_cursor; eauto.
Qed.

Lemma perform_forwarded (c : call) (f : t) :
  allowed (Call c) -> Forall forwarded (snd (perform c f)).
Proof.
  intros Hc. destruct c; cbn [perform].
  - unfold loadAudio.
    destruct (negb (audioContext f) || negb (workletNode f));
      cbn [snd]; [constructor|].
    constructor; [exact Hc|constructor].
  - unfold play. destruct (negb (workletNode f)); cbn; repeat constructor.
  - unfold pause. destruct (negb (workletNode f)); cbn; repeat constructor.
  - unfold seek. destruct (negb (workletNode f)); [constructor|].
    destruct (audioBuffer f); cbn; repeat constructor.
  - unfold setLoopPoints. destruct (negb (workletNode f)); [constructor|].
    destruct (audioBuffer f); cbn; repeat constructor.
  - unfold setLooping. destruct (negb (workletNode f)); cbn; repeat constructor.
  - unfold setPlaybackRate.
    destruct (negb (workletNode f)); cbn; repeat constructor.
  - unfold setVolume. destruct (negb (gainNode f)); cbn; constructor.
  - unfold getCurrentTime.
    destruct (negb (workletNode f)); cbn; repeat constructor.
Qed.

Lemma post_forwarded :
  forall (cmds : list LoopProcessor.command) (f : t) (p : LoopProcessor.t),
    Forall forwarded cmds -> LoopProcessor.wf p ->
    LoopProcessor.wf (snd (post cmds (f, p))) /\
    LoopProcessor.volume (snd (post cmds (f, p))) = LoopProcessor.volume p.
Proof.
  unfold post. induction cmds as [|c cmds IH]; intros f p Hall Hwf.
  - auto.
  - inversion Hall as [|? ? Hc Hrest]; subst. cbn [fold_left].
    destruct (LoopProcessor.handleMessage c p) as [p1 replies] eqn:Hm.
    assert (H1 : LoopProcessor.wf p1 /\
                 LoopProcessor.volume p1 = LoopProcessor.volume p).
    { replace p1 with (fst (LoopProcessor.handleMessage c p))
        by (now rewrite Hm).
      split.
      - apply wf_handleMessage; [exact Hwf|].
        destruct c; try exact I. exact Hc.
      - destruct c; try reflexivity. destruct Hc. }
    destruct H1 as [Hwf1 Hv1].
    destruct (IH (fold_left (fun g r => handleWorkletMessage r g) replies f)
                p1 Hrest Hwf1) as [Hwf' Hv'].
    split; [exact Hwf'|]. now rewrite Hv'.
Qed.

(** X9.  Whatever a user calls on the facade and however many blocks the
    host asks for (assets of the platform, at least one output per
    block), the processor never throws and its own volume stays as it
    was: the facade never posts a volume, which it applies on its gain
    node instead. *)
Theorem facade_session_is_safe :
  forall (hs : list happening) (f : t) (p : LoopProcessor.t),
    LoopProcessor.wf p -> Forall allowed hs ->
    exists f' p',
      drive hs (f, p) = Ok (f', p') /\
      LoopProcessor.wf p' /\
      LoopProcessor.volume p' = LoopProcessor.volume p.
Proof.
  induction hs as [|h hs IH]; intros f p Hwf Hall.
  - exists f, p. auto.
  - inversion Hall as [|? ? Hh Hrest]; subst.
    destruct h as [c|outputs]; cbn [drive fst snd].
    + destruct (perform c f) as [f1 cmds] eqn:Hp.
      assert (Hfw : Forall forwarded cmds).
      { replace cmds with (snd (perform c f)) by (now rewrite Hp).
        now apply perform_forwarded. }
      destruct (post_forwarded cmds f1 p Hfw Hwf) as [Hwf1 Hv1].
      destruct (post cmds (f1, p)) as [f2 p2] eqn:Hpost.
      cbn [snd] in Hwf1, Hv1.
      destruct (IH f2 p2 Hwf1 Hrest) as (f' & p' & Hd & Hwf' & Hv').
      exists f', p'. split; [exact Hd|]. split; [exact Hwf'|]. congruence.
    + destruct (process_ok p outputs Hwf Hh) as (p1 & o1 & sent & Hpr & Hwf1).
      rewrite Hpr. cbn [bind].
      pose proof (process_moves_only_cursor _ _ _ _ _ _ Hpr) as Hp1.
      destruct (IH (fold_left (fun g e => handleWorkletMessage e g) sent f)
                  p1 Hwf1 Hrest) as (f' & p' & Hd & Hwf' & Hv').
      exists f', p'. split; [exact Hd|]. split; [exact Hwf'|].
      rewrite Hv', Hp1. reflexivity.
Qed.

End Facade.

(** ** Rounding: the error of one operation *)

Section Rounding.
Import IEEE.


Lemma pow2_Z (a : Z) : (0 <= a)%Z -> inject_Z (2 ^ a) == 2 ^ a.
Proof. intros Ha. now rewrite Zpower_Qpower. Qed.

Lemma Qabs_frac (x : Q) :
  Qabs x == inject_Z (Z.abs (Qnum x)) / inject_Z (Zpos (Qden x)).
Proof.
  destruct x as [n d]. unfold Qabs. cbn [Qnum Qden].
  unfold Qeq, Qdiv, Qmult, Qinv, inject_Z. cbn. lia.
Qed.


Lemma ilog2_lt (x : Q) : ~ x == 0 -> Qabs x < 2 ^ (ilog2 x + 1).
Proof.
  intros Hx. unfold ilog2.
  set (n := Z.abs (Qnum x)). set (d := Zpos (Qden x)).
  destruct (Qle_bool (2 ^ (Z.log2 n - Z.log2 d)) (Qabs x)) eqn:E.
  - assert (Hn : (0 < n)%Z).
    { unfold n. destruct x as [a b]. unfold Qeq in Hx. cbn in *. lia. }
    assert (Hd : (0 < d)%Z) by (unfold d; lia).
    destruct (Z.log2_spec n Hn) as [_ Hn2].
    destruct (Z.log2_spec d Hd) as [Hd1 _].
    pose proof (Z.log2_nonneg n) as Ln. pose proof (Z.log2_nonneg d) as Ld.
    replace (Z.log2 n - Z.log2 d + 1)%Z
      with (Z.succ (Z.log2 n) - Z.log2 d)%Z by lia.
    rewrite Qpower_minus by discriminate.
    rewrite <- !pow2_Z by lia.
    rewrite Qabs_frac. fold n d.
    assert (A : inject_Z n < inject_Z (2 ^ Z.succ (Z.log2 n)))
      by (rewrite <- Zlt_Qlt; exact Hn2).
    assert (B : inject_Z (2 ^ Z.log2 d) <= inject_Z d)
      by (rewrite <- Zle_Qle; lia).
    assert (Dp : 0 < inject_Z (2 ^ Z.log2 d)).
    { change 0 with (inject_Z 0). rewrite <- Zlt_Qlt.
      apply Z.pow_pos_nonneg; lia. }
    assert (Np : 0 < inject_Z n)
      by (change 0 with (inject_Z 0); rewrite <- Zlt_Qlt; exact Hn).
    set (a := inject_Z (2 ^ Z.succ (Z.log2 n))) in *.
    set (b := inject_Z (2 ^ Z.log2 d)) in *.
    set (n' := inject_Z n) in *. set (d' := inject_Z d) in *.
    clearbody a b n' d'. clear - A B Dp Np.
    apply Qlt_shift_div_r; [lra|].
    assert (E : a / b * d' == a * (d' / b)) by (field; lra).
    rewrite E.
    assert (F : 1 <= d' / b) by (apply Qle_shift_div_l; lra).
    nra.
  - replace (Z.log2 n - Z.log2 d - 1 + 1)%Z with (Z.log2 n - Z.log2 d)%Z
      by lia.
    apply Qnot_le_lt. intros H. apply Qle_bool_iff in H. congruence.
Qed.







End Rounding.

(** * Floating-point lemmas

    Rounding to [Float] read in the reals, the bounds of pi, the
    propagation of rounding errors through the crossfade formula, and
    the accuracy of the series [Float.series]. *)

Section FloatReal.
Local Open Scope R_scope.






End FloatReal.

Section PiBounds.
Local Open Scope R_scope.

End PiBounds.

Section ErrorAnalysis.
Local Open Scope R_scope.
Variables u eta : R.
Hypothesis Hu : 0 <= u <= / 1000.
Hypothesis Heta : 0 <= eta <= u.

(** [near z' z]: [z'] is a rounding of [z]. *)
Local Abbreviation near z' z := (Rabs (z' - z) <= Rabs z * u + eta).








End ErrorAnalysis.

Section Series.
Local Open Scope R_scope.








End Series.

Section Tails.
Local Open Scope R_scope.






End Tails.

Section Accuracy.
Local Open Scope R_scope.






End Accuracy.

Section Trig.
Local Open Scope R_scope.




End Trig.

(** ** The buffer-scheduling looper: the advance of the schedule *)

Section Schedule.
Import JS WebAudioLooper.

Lemma sameParams_refl (w : t) : sameParams w w.
Proof. unfold sameParams. tauto. Qed.

Lemma sameParams_trans (w1 w2 w3 : t) :
  sameParams w1 w2 -> sameParams w2 w3 -> sameParams w1 w3.
Proof. unfold sameParams. intuition congruence. Qed.

Lemma sameParams_duration (w w' : t) :
  sameParams w w' ->
  exactLoopDurationSeconds w' = exactLoopDurationSeconds w.
Proof.
  intros (H1 & H2 & H3 & _). unfold exactLoopDurationSeconds.
  now rewrite H1, H2, H3.
Qed.

Lemma untouched_refl (w : t) : untouched w w.
Proof.
  split; [apply sameParams_refl|]. do 2 (split; [reflexivity|]). eauto.
Qed.

Lemma untouched_trans (w1 w2 w3 : t) :
  untouched w1 w2 -> untouched w2 w3 -> untouched w1 w3.
Proof.
  intros (P1 & N1 & L1 & S1) (P2 & N2 & L2 & S2).
  split; [eapply sameParams_trans; eauto|].
  split; [congruence|]. split; [congruence|].
  intros i node Hi. destruct (S1 i node Hi) as (n1 & Hn1 & E1).
  destruct (S2 i n1 Hn1) as (n2 & Hn2 & E2).
  exists n2. split; [exact Hn2 | congruence].
Qed.

Lemma untouched_scheduled (w w' : t) : untouched w w' -> scheduled w w' 0.
Proof.
  intros (P & N & L & S). split; [exact P|].
  split; [lia|].
  split; [rewrite N; change (inject_Z (Z.of_nat 0)) with 0; lra|].
  split; [exact S|]. intros j Hj. lia.
Qed.

Lemma scheduled_trans (w1 w2 w3 : t) (k1 k2 : nat) :
  scheduled w1 w2 k1 -> scheduled w2 w3 k2 -> scheduled w1 w3 (k1 + k2).
Proof.
  intros (P1 & L1 & N1 & S1 & G1) (P2 & L2 & N2 & S2 & G2).
  pose proof (sameParams_duration _ _ P1) as Hd.
  assert (Hls : loopStart w2 = loopStart w1) by apply P1.
  split; [eapply sameParams_trans; eauto|].
  split; [lia|].
  split.
  { rewrite N2, N1, Hd. rewrite Nat2Z.inj_add, inject_Z_plus. lra. }
  split.
  { intros i node Hi. destruct (S1 i node Hi) as (n1 & Hn1 & E1).
    destruct (S2 i n1 Hn1) as (n2 & Hn2 & E2).
    exists n2. split; [exact Hn2 | congruence]. }
  intros j Hj. destruct (Nat.lt_ge_cases j k1) as [Hlt|Hge].
  - destruct (G1 j Hlt) as (n1 & when & Hn1 & E1 & Hw).
    destruct (S2 _ n1 Hn1) as (n2 & Hn2 & E2).
    exists n2, when. split; [exact Hn2|]. split; [congruence | exact Hw].
  - destruct (G2 (j - k1)%nat) as (n2 & when & Hn2 & E2 & Hw); [lia|].
    exists n2, when.
    replace (List.length (sources w1) + j)%nat
      with (List.length (sources w2) + (j - k1))%nat by lia.
    split; [exact Hn2|]. split; [congruence|].
    rewrite Hw, N1, Hd.
    replace (Z.of_nat j) with (Z.of_nat k1 + Z.of_nat (j - k1))%Z by lia.
    rewrite inject_Z_plus. lra.
Qed.

Lemma createSource_inv (w w1 : t) (source : option nat) :
  createSource w = (w1, source) ->
  (source = None /\ w1 = w) \/
  (source = Some (List.length (sources w)) /\
   w1 = set_sources
          (sources w ++ [{| src_playbackRate := playbackRate w;
                            src_started := None; src_stopped := false;
                            src_onended := false;
                            src_dispatched := false |}]) w).
Proof.
  unfold createSource. intros H.
  destruct (negb (audioContext w)); [left; split; congruence|].
  destruct (audioBuffer w); [|left; split; congruence].
  destruct (negb (gainNode w)); [left; split; congruence|].
  right. split; congruence.
Qed.

(** One iteration of the loop that obtains a source schedules exactly
    one segment, at [nextStartTime], and moves [nextStartTime] by the
    exact loop duration. *)
Lemma iteration_scheduled (w w1 w2 : t) (i : nat) (d : Q) :
  createSource w = (w1, Some i) ->
  start i (nextStartTime w1) (loopStart w1) d w1 = Done w2 ->
  d = exactLoopDurationSeconds w ->
  scheduled w (set_nextStartTime (nextStartTime w2 + d) w2) 1.
Proof.
  intros Hc Hs Hd.
  destruct (createSource_inv _ _ _ Hc) as [[Hn _]|[Hi Hw1]]; [discriminate|].
  injection Hi as ->. subst w1.
  unfold start in Hs. cbn [sources set_sources] in Hs.
  rewrite lookup_app_r in Hs by lia. rewrite Nat.sub_diag in Hs.
  cbn [lookup list_lookup src_started] in Hs.
  destruct (ltb _ 0 || ltb _ 0 || ltb d 0); [discriminate|].
  injection Hs as <-.
  split; [unfold sameParams; cbn; tauto|].
  split.
  { cbn [sources set_sources set_nextStartTime].
    rewrite length_insert, length_app. reflexivity. }
  split.
  { cbn [nextStartTime set_sources set_nextStartTime].
    rewrite Hd. change (inject_Z (Z.of_nat 1)) with 1. lra. }
  split.
  { intros j node Hj. exists node. split; [|reflexivity].
    cbn [sources set_sources set_nextStartTime].
    pose proof (lookup_lt_Some _ _ _ Hj) as Hlt.
    rewrite list_lookup_insert_ne by lia.
    rewrite lookup_app_l by lia. exact Hj. }
  intros j Hj. assert (j = 0)%nat as -> by lia.
  rewrite Nat.add_0_r.
  eexists. exists (nextStartTime w).
  split.
  { cbn [sources set_sources set_nextStartTime].
    apply list_lookup_insert_eq. rewrite length_app. cbn. lia. }
  split.
  { cbn. rewrite Hd. reflexivity. }
  change (inject_Z (Z.of_nat 0)) with 0. lra.
Qed.

Lemma scheduleLoop_scheduled (now : Q) :
  forall (fuel : nat) (w w' : t),
    scheduleLoop fuel now (exactLoopDurationSeconds w) w = Done w' ->
    exists k,
      scheduled w w' k /\
      now + scheduleAheadTime w <= nextStartTime w' /\
      schedulingActive w' = schedulingActive w /\
      frameRequests w' = frameRequests w /\
      nextHandle w' = nextHandle w.
Proof.
  induction fuel as [|fuel IH]; intros w w' H.
  - cbn [scheduleLoop] in H.
    destruct (ltb (nextStartTime w) (now + scheduleAheadTime w)) eqn:E;
      [discriminate|].
    injection H as <-. exists 0%nat.
    split; [apply untouched_scheduled, untouched_refl|].
    split; [|auto].
    unfold ltb in E. apply negb_false_iff, Qle_bool_iff in E. exact E.
  - cbn [scheduleLoop] in H.
    destruct (ltb (nextStartTime w) (now + scheduleAheadTime w)) eqn:E.
    + destruct (createSource w) as [w1 source] eqn:Hc.
      destruct source as [i|].
      * destruct (start i (nextStartTime w1) (loopStart w1)
                    (exactLoopDurationSeconds w) w1) as [w2| |] eqn:Hs;
          cbn [andThen] in H; try discriminate.
        pose proof (iteration_scheduled _ _ _ _ _ Hc Hs eq_refl) as H1.
        set (w3 := set_nextStartTime
                     (nextStartTime w2 + exactLoopDurationSeconds w) w2) in *.
        assert (Hd : exactLoopDurationSeconds w3 = exactLoopDurationSeconds w)
          by (apply sameParams_duration, H1).
        rewrite <- Hd in H.
        destruct (IH w3 w' H) as (k & Hk & Hh & Ha & Hf & Hn).
        exists (1 + k)%nat.
        split; [eapply scheduled_trans; eauto|].
        assert (Hahead : scheduleAheadTime w3 = scheduleAheadTime w)
          by apply H1.
        rewrite Hahead in Hh. split; [exact Hh|].
        destruct (createSource_inv _ _ _ Hc) as [[Hn' _]|[_ Hw1]];
          [discriminate|].
        subst w1. unfold start in Hs. destruct (sources _ !! i);
          [|discriminate].
        destruct (ltb _ 0 || ltb _ 0 || ltb _ 0); [discriminate|].
        destruct (src_started s); [discriminate|].
        injection Hs as <-. cbn in Ha, Hf, Hn. auto.
      * destruct (createSource_inv _ _ _ Hc) as [[_ ->]|[Hi _]];
          [|discriminate].
        exact (IH w w' H).
    + injection H as <-. exists 0%nat.
      split; [apply untouched_scheduled, untouched_refl|].
      split; [|auto].
      unfold ltb in E. apply negb_false_iff, Qle_bool_iff in E. exact E.
Qed.

Lemma requestAnimationFrame_untouched (cb : callback) (w : t) :
  untouched w (fst (requestAnimationFrame cb w)).
Proof.
  split; [unfold sameParams; cbn; tauto|].
  do 2 (split; [reflexivity|]). cbn. eauto.
Qed.

Lemma scheduleBuffersAhead_scheduled (fuel : nat) (w w' : t) :
  scheduleBuffersAhead fuel w = Done w' ->
  exists k, scheduled w w' k.
Proof.
  unfold scheduleBuffersAhead. intros H.
  destruct (negb (audioContext w) || negb (schedulingActive w)).
  - injection H as <-. exists 0%nat.
    apply untouched_scheduled, untouched_refl.
  - destruct (scheduleLoop fuel (currentTime w)
                (exactLoopDurationSeconds w) w) as [w1| |] eqn:Hl;
      cbn [andThen] in H; try discriminate.
    destruct (scheduleLoop_scheduled _ _ _ _ Hl) as (k & Hk & _).
    exists k. destruct (schedulingActive w1); injection H as <-;
      [|exact Hk].
    replace k with (k + 0)%nat by lia.
    eapply scheduled_trans; [exact Hk|].
    apply untouched_scheduled, requestAnimationFrame_untouched.
Qed.

Lemma notify_untouched (n : notification) (w : t) :
  untouched w (notify n w).
Proof.
  split; [unfold sameParams; cbn; tauto|].
  do 2 (split; [reflexivity|]). cbn. eauto.
Qed.

Lemma updateTime_untouched (w : t) : untouched w (updateTime w).
Proof.
  unfold updateTime. destruct (isPlaying w); [|apply untouched_refl].
  destruct (onTimeUpdate w);
    (split; [unfold sameParams; cbn; tauto|]);
    (do 2 (split; [reflexivity|])); cbn; eauto.
Qed.

Lemma onended_untouched (w : t) : untouched w (onended w).
Proof.
  unfold onended. cbn [onEnded set_pausedAt set_isPlaying].
  destruct (onEnded w);
    (split; [unfold sameParams; cbn; tauto|]);
    (do 2 (split; [reflexivity|])); cbn; eauto.
Qed.

Lemma set_frameRequests_untouched (l : list (nat * callback)) (w : t) :
  untouched w (set_frameRequests l w).
Proof.
  split; [unfold sameParams; cbn; tauto|].
  do 2 (split; [reflexivity|]). cbn. eauto.
Qed.

Lemma set_currentTime_untouched (c : Q) (w : t) :
  untouched w (set_currentTime c w).
Proof.
  split; [unfold sameParams; cbn; tauto|].
  do 2 (split; [reflexivity|]). cbn. eauto.
Qed.

Lemma untouched_then_scheduled (w1 w2 w3 : t) (k : nat) :
  untouched w1 w2 -> scheduled w2 w3 k -> scheduled w1 w3 k.
Proof.
  intros H1 H2. change k with (0 + k)%nat.
  eapply scheduled_trans; [apply untouched_scheduled|]; eauto.
Qed.

Lemma runCallbacks_scheduled (fuel : nat) :
  forall (cbs : list (nat * callback)) (w w' : t),
    runCallbacks fuel cbs w = Done w' -> exists k, scheduled w w' k.
Proof.
  induction cbs as [|[h cb] rest IH]; intros w w' H; cbn [runCallbacks] in H.
  - injection H as <-. exists 0%nat.
    apply untouched_scheduled, untouched_refl.
  - destruct (existsb (Nat.eqb h) (map fst (frameRequests w))); [|eauto].
    set (w0 := set_frameRequests _ w) in H.
    assert (H0 : untouched w w0) by apply set_frameRequests_untouched.
    destruct (runCallback fuel cb w0) as [w1| |] eqn:Hcb;
      cbn [andThen] in H; try discriminate.
    destruct (IH _ _ H) as (k2 & Hk2).
    assert (exists k1, scheduled w0 w1 k1) as (k1 & Hk1).
    { destruct cb; cbn [runCallback] in Hcb.
      - eapply scheduleBuffersAhead_scheduled; eauto.
      - injection Hcb as <-. exists 0%nat.
        apply untouched_scheduled, updateTime_untouched. }
    exists (k1 + k2)%nat.
    eapply untouched_then_scheduled; [exact H0|].
    eapply scheduled_trans; eauto.
Qed.

Lemma step_scheduled (fuel : nat) (e : event) (w w' : t) :
  step fuel e w = Done w' -> exists k, scheduled w w' k.
Proof.
  destruct e as [time|i]; cbn [step]; intros H.
  - destruct (runCallbacks_scheduled _ _ _ _ H) as (k & Hk).
    exists k. eapply untouched_then_scheduled; [|exact Hk].
    apply set_currentTime_untouched.
  - exists 0%nat. apply untouched_scheduled.
    destruct (sources w !! i) as [node|] eqn:Hi;
      [|injection H as <-; apply untouched_refl].
    destruct (src_started node) eqn:Hst;
      [|injection H as <-; apply untouched_refl].
    destruct (src_dispatched node);
      [injection H as <-; apply untouched_refl|].
    injection H as <-.
    set (w1 := set_sources _ w).
    assert (H1 : untouched w w1).
    { split; [unfold sameParams; cbn; tauto|].
      split; [reflexivity|].
      split; [cbn; apply length_insert|].
      intros j n Hj. cbn [sources w1 set_sources].
      destruct (Nat.eq_dec i j) as [<-|Hne].
      - eexists. split.
        + apply list_lookup_insert_eq. eapply lookup_lt_Some; eauto.
        + cbn. congruence.
      - exists n. rewrite list_lookup_insert_ne by exact Hne. auto. }
    destruct (src_onended node); [|exact H1].
    eapply untouched_trans; [exact H1 | apply onended_untouched].
Qed.

Lemma run_scheduled (fuel : nat) :
  forall (es : list event) (w w' : t),
    run fuel es w = Done w' -> exists k, scheduled w w' k.
Proof.
  induction es as [|e es IH]; intros w w' H; cbn [run] in H.
  - injection H as <-. exists 0%nat.
    apply untouched_scheduled, untouched_refl.
  - destruct (step fuel e w) as [w1| |] eqn:Hs;
      cbn [andThen] in H; try discriminate.
    destruct (step_scheduled _ _ _ _ Hs) as (k1 & H1).
    destruct (IH _ _ H) as (k2 & H2).
    exists (k1 + k2)%nat. eapply scheduled_trans; eauto.
Qed.

(** With a positive loop duration the loop ends: every iteration moves
    [nextStartTime] toward the horizon by the same positive amount. *)
Lemma scheduleLoop_returns (now d : Q) :
  0 < d ->
  forall (fuel : nat) (w : t),
    audioContext w = true -> is_Some (audioBuffer w) ->
    gainNode w = true ->
    0 <= loopStart w -> 0 <= nextStartTime w ->
    now + scheduleAheadTime w - nextStartTime w
      < inject_Z (Z.of_nat fuel) * d ->
    exists w', scheduleLoop fuel now d w = Done w'.
Proof.
  intros Hd. induction fuel as [|fuel IH];
    intros w Hctx Hbuf Hgain Hls Hnext Hbudget; cbn [scheduleLoop].
  - destruct (ltb (nextStartTime w) (now + scheduleAheadTime w)) eqn:E;
      [|eauto].
    unfold ltb in E. apply negb_true_iff, not_true_iff_false in E.
    rewrite Qle_bool_iff in E. change (inject_Z (Z.of_nat 0)) with 0 in Hbudget.
    exfalso. apply E. lra.
  - destruct (ltb (nextStartTime w) (now + scheduleAheadTime w)); [|eauto].
    unfold createSource. rewrite Hctx, Hgain.
    pose proof Hbuf as [b Hb]. rewrite Hb.
    cbn [negb].
    unfold start. cbn [sources set_sources nextStartTime loopStart].
    rewrite lookup_app_r by lia. rewrite Nat.sub_diag.
    cbn [lookup list_lookup src_started].
    assert (E1 : ltb (nextStartTime w) 0 = false).
    { unfold ltb. apply negb_false_iff, Qle_bool_iff. exact Hnext. }
    assert (E2 : ltb (loopStart w) 0 = false).
    { unfold ltb. apply negb_false_iff, Qle_bool_iff. exact Hls. }
    assert (E3 : ltb d 0 = false).
    { unfold ltb. apply negb_false_iff, Qle_bool_iff. lra. }
    rewrite E1, E2, E3. cbn [orb andThen].
    rewrite Nat2Z.inj_succ in Hbudget. unfold Z.succ in Hbudget.
    rewrite inject_Z_plus in Hbudget.
    change (inject_Z 1) with 1 in Hbudget.
    apply IH;
      cbn [audioContext audioBuffer gainNode loopStart nextStartTime
           scheduleAheadTime set_nextStartTime set_sources];
      [assumption | exact Hbuf | assumption | assumption | lra | lra].
Qed.

(** Without a positive duration the loop does not end: with a loop of
    no sample (as after [loadAudio] alone, which sets [loopEnd] but not
    the sample counts) [nextStartTime] never moves. *)
Remark scheduleLoop_zero_duration (now d : Q) :
  d == 0 ->
  forall (fuel : nat) (w w' : t),
    nextStartTime w < now + scheduleAheadTime w ->
    scheduleLoop fuel now d w <> Done w'.
Proof.
  intros Hd. induction fuel as [|fuel IH]; intros w w' Hlt;
    assert (E : ltb (nextStartTime w) (now + scheduleAheadTime w) = true)
      by (unfold ltb; apply negb_true_iff, not_true_iff_false;
          rewrite Qle_bool_iff; lra);
    cbn [scheduleLoop]; rewrite E; [discriminate|].
  destruct (createSource w) as [w1 source] eqn:Hc.
  destruct (createSource_inv _ _ _ Hc) as [[-> ->]|[-> ->]].
  - now apply IH.
  - destruct (start _ _ _ d _) as [w2| |] eqn:Hs; cbn [andThen];
      try discriminate.
    apply IH. unfold start in Hs.
    destruct (sources _ !! _); [|discriminate].
    destruct (ltb _ 0 || ltb _ 0 || ltb d 0); [discriminate|].
    destruct (src_started s); [discriminate|].
    injection Hs as <-.
    cbn [nextStartTime scheduleAheadTime set_nextStartTime set_sources].
    lra.
Qed.

Lemma enough_fuel (x d : Q) :
  0 < d -> exists fuel : nat, x < inject_Z (Z.of_nat fuel) * d.
Proof.
  intros Hd. exists (Z.to_nat (Qceiling (x / d) + 1)).
  pose proof (Qle_ceiling (x / d)) as Hc.
  assert (Hx : x == x / d * d) by (field; lra).
  destruct (Z_lt_le_dec (Qceiling (x / d) + 1) 0) as [Hneg|Hpos].
  - rewrite Z2Nat.nonpos by lia. change (inject_Z (Z.of_nat 0)) with 0.
    assert (Hq : inject_Z (Qceiling (x / d) + 1) < 0).
    { change 0 with (inject_Z 0). rewrite <- Zlt_Qlt. exact Hneg. }
    rewrite inject_Z_plus in Hq. change (inject_Z 1) with 1 in Hq.
    rewrite Hx. set (q := x / d) in *. nra.
  - rewrite Z2Nat.id by lia. rewrite inject_Z_plus.
    change (inject_Z 1) with 1. rewrite Hx at 1.
    set (q := x / d) in *. nra.
Qed.

Lemma scheduleBuffersAhead_returns (w : t) :
  audioContext w = true -> is_Some (audioBuffer w) -> gainNode w = true ->
  0 < exactLoopDurationSeconds w ->
  0 <= loopStart w -> 0 <= nextStartTime w ->
  exists fuel w' k,
    scheduleBuffersAhead fuel w = Done w' /\ scheduled w w' k.
Proof.
  intros Hctx Hbuf Hgain Hd Hls Hnext.
  destruct (enough_fuel
              (currentTime w + scheduleAheadTime w - nextStartTime w)
              (exactLoopDurationSeconds w) Hd) as (fuel & Hfuel).
  exists fuel.
  destruct (scheduleLoop_returns (currentTime w) _ Hd fuel w
              Hctx Hbuf Hgain Hls Hnext Hfuel) as (w1 & Hl).
  assert (exists w', scheduleBuffersAhead fuel w = Done w') as (w' & Hw').
  { unfold scheduleBuffersAhead.
    destruct (negb (audioContext w) || negb (schedulingActive w)); [eauto|].
    rewrite Hl. cbn [andThen]. destruct (schedulingActive w1); eauto. }
  exists w'. destruct (scheduleBuffersAhead_scheduled _ _ _ Hw') as (k & Hk).
  eauto.
Qed.

(** *** The step in rounded arithmetic *)

Lemma rounded_identity (fuel : nat) (w : t) :
  Rounded.scheduleBuffersAhead (fun x => x) fuel w
  = scheduleBuffersAhead fuel w.
Proof. reflexivity. Qed.





(** C3.  When the horizon is already filled the scheduling step
    schedules nothing and leaves [nextStartTime] alone: it only renews
    its animation-frame request (when scheduling is active), so the
    horizon is still filled afterwards and any number of repetitions
    schedules nothing either. *)
Theorem filled_horizon_is_noop (fuel : nat) (w : t) :
  currentTime w + scheduleAheadTime w <= nextStartTime w ->
  (exists w',
     scheduleBuffersAhead fuel w = Done w' /\
     (w' = w \/ w' = fst (requestAnimationFrame ScheduleBuffersAhead w)) /\
     sources w' = sources w /\
     nextStartTime w' = nextStartTime w /\
     currentTime w' + scheduleAheadTime w' <= nextStartTime w') /\
  (forall n, exists w'',
     repeatSchedule n fuel w = Done w'' /\
     sources w'' = sources w /\
     nextStartTime w'' = nextStartTime w).
Proof.
  assert (Hone : forall w0,
    currentTime w0 + scheduleAheadTime w0 <= nextStartTime w0 ->
    exists w',
      scheduleBuffersAhead fuel w0 = Done w' /\
      (w' = w0 \/ w' = fst (requestAnimationFrame ScheduleBuffersAhead w0)) /\
      sources w' = sources w0 /\
      nextStartTime w' = nextStartTime w0 /\
      currentTime w' + scheduleAheadTime w' <= nextStartTime w').
  { intros w0 H0. unfold scheduleBuffersAhead.
    destruct (negb (audioContext w0) || negb (schedulingActive w0)).
    { exists w0. auto 6. }
    assert (Hl : scheduleLoop fuel (currentTime w0)
                   (exactLoopDurationSeconds w0) w0 = Done w0).
    { assert (E : ltb (nextStartTime w0)
                    (currentTime w0 + scheduleAheadTime w0) = false).
      { unfold ltb. apply negb_false_iff, Qle_bool_iff. exact H0. }
      destruct fuel; cbn [scheduleLoop]; rewrite E; reflexivity. }
    rewrite Hl. cbn [andThen].
    destruct (schedulingActive w0); eexists; (split; [reflexivity|]);
      cbn; auto 6. }
  intros Hfilled. split; [apply Hone; exact Hfilled|].
  intros n. revert w Hfilled.
  induction n as [|n IH]; intros w Hfilled; cbn [repeatSchedule].
  - eauto.
  - destruct (Hone w Hfilled) as (w' & Hrun & _ & Hs & Hn & Hf).
    rewrite Hrun. cbn [andThen].
    destruct (IH w' Hf) as (w'' & Hrun' & Hs' & Hn').
    exists w''. split; [exact Hrun'|]. split; congruence.
Qed.

End Schedule.

(** ** The buffer-scheduling looper: pause and the end of the asset *)

Section PauseAndEnd.
Import JS WebAudioLooper.

Lemma stop_other (i j : nat) (w w' : t) (node : SourceNode) :
  stop i w = Done w' -> i <> j ->
  sources w !! j = Some node -> sources w' !! j = Some node.
Proof.
  unfold stop. intros H Hne Hj.
  destruct (sources w !! i) as [n|]; [|discriminate].
  destruct (src_started n); [|discriminate].
  injection H as <-. cbn [sources set_sources].
  rewrite list_lookup_insert_ne by exact Hne. exact Hj.
Qed.

(** [pause] stops the sources held in [currentSource] and [nextSource]
    and no other. *)
Lemma pause_spares_other_sources (w w' : t) (j : nat) (node : SourceNode) :
  pause w = Done w' ->
  sources w !! j = Some node ->
  currentSource w <> Some j -> nextSource w <> Some j ->
  sources w' !! j = Some node.
Proof.
  unfold pause. intros H Hj Hc Hn.
  cbn [currentSource nextSource set_schedulingActive] in H.
  destruct (stop_field (currentSource w) (set_schedulingActive false w))
    as [w1| |] eqn:H1; cbn [andThen] in H; try discriminate.
  assert (Hj1 : sources w1 !! j = Some node).
  { destruct (currentSource w) as [i|]; cbn [stop_field] in H1.
    - eapply stop_other; eauto; congruence.
    - injection H1 as <-. exact Hj. }
  assert (Hn1 : nextSource w1 = nextSource w).
  { destruct (currentSource w) as [i|]; cbn [stop_field] in H1.
    - unfold stop in H1.
      destruct (sources _ !! i) as [n|]; [|discriminate].
      destruct (src_started n); [|discriminate].
      injection H1 as <-. reflexivity.
    - injection H1 as <-. reflexivity. }
  cbn [nextSource set_currentSource] in H. rewrite Hn1 in H.
  destruct (stop_field (nextSource w) (set_currentSource None w1))
    as [w2| |] eqn:H2; cbn [andThen] in H; try discriminate.
  assert (Hj2 : sources w2 !! j = Some node).
  { destruct (nextSource w) as [i|]; cbn [stop_field] in H2.
    - eapply stop_other; eauto; congruence.
    - injection H2 as <-. exact Hj1. }
  injection H as <-.
  match goal with
  | |- context [if ?c then _ else _] => destruct c
  end; exact Hj2.
Qed.

(** The scheduling loop keeps no reference to the sources it starts:
    [currentSource] and [nextSource] are as before. *)
Lemma scheduleLoop_keeps_no_reference (now d : Q) :
  forall (fuel : nat) (w w' : t),
    scheduleLoop fuel now d w = Done w' ->
    currentSource w' = currentSource w /\ nextSource w' = nextSource w.
Proof.
  induction fuel as [|fuel IH]; intros w w' H; cbn [scheduleLoop] in H;
    destruct (ltb (nextStartTime w) (now + scheduleAheadTime w));
    try discriminate; try (injection H as <-; auto).
  destruct (createSource w) as [w1 source] eqn:Hc.
  destruct (createSource_inv _ _ _ Hc) as [[-> ->]|[-> ->]].
  - now apply IH.
  - destruct (start _ _ _ d _) as [w2| |] eqn:Hs; cbn [andThen] in H;
      try discriminate.
    apply IH in H. cbn [currentSource nextSource set_nextStartTime] in H.
    unfold start in Hs.
    destruct (sources _ !! _); [|discriminate].
    destruct (ltb _ 0 || ltb _ 0 || ltb d 0); [discriminate|].
    destruct (src_started s); [discriminate|].
    injection Hs as <-. exact H.
Qed.

(** C4.  In the session [demoFrame] (looping from 2 s to 4 s, played,
    one animation frame rendered) the look-ahead loop has scheduled a
    segment for the clock reading 0.1 s; [pause] then returns with the
    scheduler switched off, but that segment's source was not stopped:
    it is still pending and will be played. *)
Theorem pause_leaves_scheduled_segment :
  exists w node,
    pause demoFrame = Done w /\
    isPlaying w = false /\
    schedulingActive w = false /\
    sources w !! 0%nat = Some node /\
    src_stopped node = false /\
    pendingSegment w node = true.
Proof.
  eexists. eexists.
  split; [vm_compute; reflexivity|].
  repeat split; vm_compute; reflexivity.
Qed.









End PauseAndEnd.

(** ** The buffer-scheduling looper: pause, play and the reported time *)

Section Quiet.
Import JS WebAudioLooper.

Lemma stop_field_fields (node : option nat) (w w' : t) :
  stop_field node w = Done w' ->
  exists l, w' = set_sources l w /\
    List.length l = List.length (sources w) /\
    (forall i n, sources w !! i = Some n ->
       exists n', l !! i = Some n' /\ src_started n' = src_started n).
Proof.
  destruct node as [i|]; cbn [stop_field].
  - unfold stop. destruct (sources w !! i) as [n|] eqn:Hi; [|discriminate].
    destruct (src_started n) eqn:Hs; [|discriminate].
    intros H. injection H as <-. eexists. split; [reflexivity|].
    split; [apply length_insert|].
    intros j m Hj. destruct (Nat.eq_dec i j) as [->|Hne].
    + rewrite list_lookup_insert_eq by (eapply lookup_lt_Some; eauto).
      eexists. split; [reflexivity|]. cbn. congruence.
    + rewrite list_lookup_insert_ne by exact Hne. eauto.
  - intros H. injection H as <-. exists (sources w).
    split; [now destruct w|]. eauto.
Qed.







Lemma filter_twice (h : nat) (l : list (nat * callback)) :
  filter (fun r => fst r <> h) (filter (fun r => fst r <> h) l)
  = filter (fun r => fst r <> h) l.
Proof.
  induction l as [|r l IH]; [reflexivity|].
  rewrite (filter_cons _ r l). destruct (decide (fst r <> h)) as [Hr|Hr].
  - rewrite (filter_cons _ r _). destruct (decide (fst r <> h)); [|tauto].
    now rewrite IH.
  - exact IH.
Qed.

(** A looper that holds no source, plays nothing and has its pending
    time update cancelled is a fixed point of [pause]. *)
Lemma pause_at_rest (w : t) :
  currentSource w = None -> nextSource w = None ->
  schedulingActive w = false -> isPlaying w = false ->
  filter (fun r => fst r <> animationFrame w) (frameRequests w)
  = frameRequests w \/ animationFrame w = 0%nat ->
  pause w = Done w.
Proof.
  intros Hc Hn Hs Hp Hf. destruct w. cbn in Hc, Hn, Hs, Hp, Hf. subst.
  unfold pause, getCurrentTime, cancelAnimationFrame.
  cbn [stop_field andThen currentSource nextSource set_schedulingActive
       set_currentSource set_nextSource set_pausedAt set_isPlaying
       audioContext isPlaying pausedAt animationFrame frameRequests
       set_frameRequests negb].
  rewrite orb_true_r.
  destruct (Nat.eqb_spec animationFrame0 0) as [E|E]; [reflexivity|].
  destruct Hf as [Hf|Hf]; [|contradiction]. now rewrite Hf.
Qed.

(** X11.  [pause] is idempotent: on a looper that a [pause] has just
    left, a second [pause] returns and changes nothing, the recorded
    position included. *)
Theorem pause_twice (w w1 : t) :
  pause w = Done w1 -> pause w1 = Done w1.
Proof.
  unfold pause at 1. intros H.
  destruct (stop_field _ _) as [wa| |] eqn:H1 in H; cbn [andThen] in H;
    try discriminate.
  destruct (stop_field _ _) as [wb| |] eqn:H2 in H; cbn [andThen] in H;
    try discriminate.
  destruct (stop_field_fields _ _ _ H1) as (l1 & -> & _).
  destruct (stop_field_fields _ _ _ H2) as (l2 & -> & _).
  injection H as <-.
  cbn [animationFrame set_isPlaying set_pausedAt set_nextSource
       set_sources set_currentSource set_schedulingActive].
  destruct (Nat.eqb_spec (animationFrame w) 0) as [E|E].
  - apply pause_at_rest; try reflexivity. right. exact E.
  - apply pause_at_rest; try reflexivity. left.
    unfold cancelAnimationFrame.
    cbn [animationFrame frameRequests set_frameRequests set_isPlaying
         set_pausedAt set_nextSource set_sources set_currentSource
         set_schedulingActive].
    apply filter_twice.
Qed.

End Quiet.

Section LoopingPlay.
Import JS WebAudioLooper.

Lemma ltb_irrefl (x : Q) : ltb x x = false.
Proof.
  unfold ltb. apply negb_false_iff, Qle_bool_iff, Qle_refl.
Qed.

Lemma gtb_true (x y : Q) : y < x -> gtb x y = true.
Proof.
  intros H. unfold gtb. apply negb_true_iff, not_true_iff_false.
  rewrite Qle_bool_iff. lra.
Qed.

(** [play] in loop mode: the state it returns, for any budget of loop
    iterations, none being used. *)
Lemma play_looping_state (fuel : nat) (w : t) :
  audioContext w = true -> is_Some (audioBuffer w) -> looping w ->
  let w0 := set_isPlaying true
              (if suspended w then set_suspended false w else w) in
  let w1 := set_pausedAt (loopStart w)
              (set_startTime (currentTime w + scheduleAheadTime w)
                 (fst (requestAnimationFrame ScheduleBuffersAhead
                         (set_schedulingActive true
                            (set_nextStartTime
                               (currentTime w + scheduleAheadTime w) w0)))))
  in
  play fuel w = Done (updateTime w1).
Proof.
  intros Hctx [b Hb] [Hl Hr] w0 w1. unfold play.
  rewrite Hctx, Hb. cbn [negb]. fold w0.
  assert (E0 : isLooping w0 = true /\ loopEnd w0 = loopEnd w /\
               loopStart w0 = loopStart w /\ audioContext w0 = true /\
               audioBuffer w0 = Some b /\
               currentTime w0 = currentTime w /\
               scheduleAheadTime w0 = scheduleAheadTime w).
  { unfold w0. destruct (suspended w); cbn; auto 10. }
  destruct E0 as (E1 & E2 & E3 & E4 & E5 & E6 & E7).
  rewrite E1, E2, E3, (gtb_true _ _ Hr). cbn [andb].
  unfold startSampleAccurateLoop. rewrite E4, E1, E5. cbn [negb orb].
  rewrite E6, E7.
  unfold scheduleBuffersAhead.
  cbn [audioContext schedulingActive set_schedulingActive
       set_nextStartTime currentTime]. rewrite E4. cbn [negb orb].
  rewrite E6.
  destruct fuel as [|fuel]; cbn [scheduleLoop];
    cbn [nextStartTime scheduleAheadTime set_schedulingActive
         set_nextStartTime]; rewrite E7, ltb_irrefl; cbn [andThen];
    cbn [schedulingActive set_schedulingActive]; cbn [andThen];
    unfold w1, requestAnimationFrame;
    cbn [fst loopStart nextStartTime set_startTime set_nextHandle
         set_frameRequests set_schedulingActive set_nextStartTime];
    rewrite E3; reflexivity.
Qed.

(** An [UpdateTime] callback alone always returns, and leaves the
    schedule alone. *)
Lemma run_updateTime (fuel h : nat) (w : t) :
  exists w', runCallbacks fuel [(h, UpdateTime)] w = Done w' /\
             untouched w w'.
Proof.
  cbn [runCallbacks]. destruct (existsb _ _).
  - cbn [runCallback andThen]. eexists. split; [reflexivity|].
    eapply untouched_trans;
      [apply set_frameRequests_untouched|apply updateTime_untouched].
  - exists w. split; [reflexivity|apply untouched_refl].
Qed.

(** The looper after [play] in loop mode, no callback being pending
    before, and what its first animation frame runs: the scheduler,
    then the time update. *)
Lemma first_frame_after_play (w : t) (t : Q) :
  audioContext w = true -> is_Some (audioBuffer w) -> looping w ->
  frameRequests w = [] ->
  exists w1 wa : WebAudioLooper.t,
    (forall fuel, play fuel w = Done w1) /\
    sources w1 = sources w /\
    schedulingActive w1 = true /\ isPlaying w1 = true /\
    startTime w1 = currentTime w + scheduleAheadTime w /\
    pausedAt w1 = loopStart w /\
    (forall fuel,
       step fuel (Frame t) w1
       = andThen (scheduleBuffersAhead fuel wa)
           (runCallbacks fuel [(S (nextHandle w), UpdateTime)])) /\
    sameParams w wa /\ sources wa = sources w /\
    schedulingActive wa = true /\
    nextStartTime wa = currentTime w + scheduleAheadTime w /\
    currentTime wa = max (currentTime w) t.
Proof.
  intros Hctx Hbuf Hloop Hreq.
  pose proof (fun fuel => play_looping_state fuel w Hctx Hbuf Hloop) as Hplay.
  cbn zeta in Hplay.
  set (w0 := set_isPlaying true
               (if suspended w then set_suspended false w else w)) in *.
  set (wp := set_pausedAt _ _) in Hplay.
  assert (E0 : sources w0 = sources w /\
               frameRequests w0 = [] /\ nextHandle w0 = nextHandle w /\
               sameParams w w0 /\ currentTime w0 = currentTime w /\
               onTimeUpdate w0 = onTimeUpdate w).
  { unfold w0, sameParams. destruct (suspended w); cbn; auto 20. }
  destruct E0 as (S0 & R0 & N0 & P0 & T0 & O0).
  set (h := nextHandle w).
  assert (Hw1 : exists w1,
             updateTime wp = w1 /\ sources w1 = sources w /\
             schedulingActive w1 = true /\ isPlaying w1 = true /\
             startTime w1 = currentTime w + scheduleAheadTime w /\
             pausedAt w1 = loopStart w /\
             nextStartTime w1 = currentTime w + scheduleAheadTime w /\
             currentTime w1 = currentTime w /\
             frameRequests w1
             = [(h, ScheduleBuffersAhead); (S h, UpdateTime)] /\
             sameParams w w1).
  { eexists. split; [reflexivity|].
    unfold updateTime, wp, requestAnimationFrame.
    cbn [isPlaying set_pausedAt set_startTime fst set_nextHandle
         set_frameRequests set_schedulingActive set_nextStartTime].
    replace (isPlaying w0) with true by (unfold w0; reflexivity).
    cbn [onTimeUpdate set_pausedAt set_startTime fst set_nextHandle
         set_frameRequests set_schedulingActive set_nextStartTime].
    rewrite O0.
    destruct P0 as (P1 & P2 & P3 & P4 & P5 & P6 & P7 & P8).
    destruct (onTimeUpdate w);
      cbn; rewrite ?S0, ?R0, ?N0, ?T0;
      unfold sameParams; cbn;
      repeat split; auto;
      unfold h; destruct (suspended w); cbn; rewrite Hreq; reflexivity. }
  destruct Hw1 as (w1 & Hu & HS1 & HA1 & HI1 & HT1 & HP1 & HN1 & HC1 & HR1
                   & HPar).
  rewrite Hu in Hplay.
  set (wa := set_frameRequests [(S h, UpdateTime)]
               (set_currentTime (max (currentTime w1) t) w1)).
  exists w1, wa.
  split; [exact Hplay|]. split; [exact HS1|]. split; [exact HA1|].
  split; [exact HI1|]. split; [exact HT1|]. split; [exact HP1|].
  split.
  { intros fuel. cbn [step]. set (wt := set_currentTime _ w1).
    change (frameRequests wt) with (frameRequests w1). rewrite HR1.
    cbn [runCallbacks].
    change (frameRequests wt) with (frameRequests w1). rewrite HR1.
    cbn [map fst existsb]. rewrite Nat.eqb_refl. cbn [orb].
    assert (Ef : filter (fun r : nat * callback => fst r <> h)
                   [(h, ScheduleBuffersAhead); (S h, UpdateTime)]
                 = [(S h, UpdateTime)]).
    { rewrite filter_cons. cbn [fst].
      destruct (decide (h <> h)); [congruence|].
      rewrite filter_cons. cbn [fst].
      destruct (decide (S h <> h)); [reflexivity|lia]. }
    rewrite Ef. reflexivity. }
  split; [exact HPar|]. split; [exact HS1|]. split; [exact HA1|].
  split; [exact HN1|].
  unfold wa. cbn [currentTime set_currentTime set_frameRequests].
  now rewrite HC1.
Qed.

(** X12.  [play] in loop mode schedules nothing itself: for any budget
    of loop iterations it returns with the sources as they were, the
    scheduler armed and [startTime] one look-ahead after the clock.  On
    a looper with no callback pending, the first animation frame after
    it (the clock having moved) schedules the first cycle: a new source
    started exactly at [startTime], from [loopStart], for the exact loop
    duration. *)
Theorem first_cycle_starts_at_startTime (w : t) (t : Q) :
  ready w -> looping w -> frameRequests w = [] ->
  0 < exactLoopDurationSeconds w -> 0 <= loopStart w ->
  0 <= currentTime w + scheduleAheadTime w ->
  currentTime w < t ->
  exists (fuel : nat) (w1 w2 : WebAudioLooper.t) (node : SourceNode)
         (when : Q),
    (forall fuel', play fuel' w = Done w1) /\
    sources w1 = sources w /\
    schedulingActive w1 = true /\ isPlaying w1 = true /\
    startTime w1 = currentTime w + scheduleAheadTime w /\
    pausedAt w1 = loopStart w /\
    step fuel (Frame t) w1 = Done w2 /\
    sources w2 !! List.length (sources w) = Some node /\
    src_started node
    = Some (when, loopStart w, exactLoopDurationSeconds w) /\
    when == startTime w1.
Proof.
  intros (Hctx & Hbuf & Hgain) Hloop Hreq Hd Hls Hnext Ht.
  destruct (first_frame_after_play w t Hctx Hbuf Hloop Hreq)
    as (w1 & wa & Hplay & HS1 & HA1 & HI1 & HT1 & HP1 & Hstep & HPar & HSa
        & HAa & HNa & HCa).
  assert (Hda : exactLoopDurationSeconds wa = exactLoopDurationSeconds w)
    by exact (sameParams_duration _ _ HPar).
  destruct HPar as (_ & _ & _ & Hla & Hsa & HXa & HBa & HGa).
  assert (Hmax : t <= currentTime wa) by (rewrite HCa; apply Q.le_max_r).
  destruct (enough_fuel
              (currentTime wa + scheduleAheadTime wa - nextStartTime wa)
              (exactLoopDurationSeconds wa)) as (fuel & Hfuel);
    [rewrite Hda; exact Hd|].
  destruct (scheduleLoop_returns (currentTime wa)
              (exactLoopDurationSeconds wa) ltac:(rewrite Hda; exact Hd)
              fuel wa) as (wb & Hwb); try assumption.
  { congruence. }
  { rewrite HBa. exact Hbuf. }
  { congruence. }
  { rewrite Hla. exact Hls. }
  { rewrite HNa. exact Hnext. }
  destruct (scheduleLoop_scheduled _ _ _ _ Hwb)
    as (k & Hk & Hexit & Hact & _ & _).
  destruct Hk as (Pab & Lab & Nab & _ & Seg).
  assert (Hk1 : (0 < k)%nat).
  { destruct k as [|k]; [|lia]. exfalso.
    change (inject_Z (Z.of_nat 0)) with 0 in Nab.
    rewrite Hsa in Hexit. rewrite HNa in Nab.
    set (n := nextStartTime wb) in *.
    set (c := currentTime wa) in *.
    set (a := scheduleAheadTime w) in *.
    set (c0 := currentTime w) in *.
    assert (Nab' : n == c0 + a) by (rewrite Nab; ring).
    clearbody n c a c0. clear - Nab' Hexit Hmax Ht. lra. }
  destruct (Seg 0%nat Hk1) as (node & when & Hnode & Hst & Hwhen).
  set (wc := fst (requestAnimationFrame ScheduleBuffersAhead wb)).
  destruct (run_updateTime fuel (S (nextHandle w)) wc) as (w2 & Hw2 & U2).
  assert (Hnode2 : exists node', sources w2 !! List.length (sources w)
                                 = Some node' /\
                                 src_started node' = src_started node).
  { destruct U2 as (_ & _ & _ & Keep). apply Keep.
    unfold wc. cbn [sources requestAnimationFrame fst set_nextHandle
                    set_frameRequests].
    rewrite <- Hnode. f_equal. rewrite HSa. lia. }
  destruct Hnode2 as (node' & Hn' & Hs').
  exists fuel, w1, w2, node', when.
  split; [exact Hplay|]. split; [exact HS1|]. split; [exact HA1|].
  split; [exact HI1|]. split; [exact HT1|]. split; [exact HP1|].
  split.
  { rewrite Hstep. unfold scheduleBuffersAhead.
    rewrite HXa, Hctx, HAa. cbn [negb orb]. rewrite Hwb. cbn [andThen].
    rewrite Hact, HAa. cbn [andThen]. exact Hw2. }
  split; [exact Hn'|]. split.
  - rewrite Hs', Hst, Hla, Hda. reflexivity.
  - rewrite Hwhen. change (inject_Z (Z.of_nat 0)) with 0.
    rewrite HNa, HT1. ring.
Qed.

(** With a loop of no sample the scheduling loop never ends: every
    iteration starts a source of no duration and leaves [nextStartTime]
    where it was. *)
Lemma scheduleLoop_hangs (now d : Q) :
  d == 0 ->
  forall (fuel : nat) (w : t),
    audioContext w = true -> is_Some (audioBuffer w) ->
    gainNode w = true ->
    0 <= loopStart w -> 0 <= nextStartTime w ->
    nextStartTime w < now + scheduleAheadTime w ->
    scheduleLoop fuel now d w = OutOfFuel.
Proof.
  intros Hd. induction fuel as [|fuel IH];
    intros w Hctx Hbuf Hgain Hls Hnext Hlt;
    assert (E : ltb (nextStartTime w) (now + scheduleAheadTime w) = true)
      by (unfold ltb; apply negb_true_iff, not_true_iff_false;
          rewrite Qle_bool_iff; lra);
    cbn [scheduleLoop]; rewrite E; [reflexivity|].
  unfold createSource. rewrite Hctx, Hgain.
  pose proof Hbuf as [b Hb]. rewrite Hb. cbn [negb].
  unfold start. cbn [sources set_sources nextStartTime loopStart].
  rewrite lookup_app_r by lia. rewrite Nat.sub_diag.
  cbn [lookup list_lookup src_started].
  assert (E1 : ltb (nextStartTime w) 0 = false).
  { unfold ltb. apply negb_false_iff, Qle_bool_iff. exact Hnext. }
  assert (E2 : ltb (loopStart w) 0 = false).
  { unfold ltb. apply negb_false_iff, Qle_bool_iff. exact Hls. }
  assert (E3 : ltb d 0 = false).
  { unfold ltb. apply negb_false_iff, Qle_bool_iff. lra. }
  rewrite E1, E2, E3. cbn [orb andThen].
  apply IH;
    cbn [audioContext audioBuffer gainNode loopStart nextStartTime
         scheduleAheadTime set_nextStartTime set_sources];
    [assumption | exact Hbuf | assumption | assumption | lra | lra].
Qed.

(** X15.  A looper put in loop mode whose sample counts say the loop
    has no sample (as after [loadAudio] and [setLooping] alone: only
    [setLoopPoints] computes them) starts to play, and then never
    finishes its first animation frame: whatever the budget of
    iterations, the scheduling loop uses it up. *)
Theorem empty_loop_hangs_first_frame (w : t) (t : Q) :
  ready w -> looping w -> frameRequests w = [] ->
  loopDurationSamples w = 0%Z ->
  0 < sampleRate w -> 0 < playbackRate w ->
  0 <= loopStart w -> 0 <= currentTime w + scheduleAheadTime w ->
  currentTime w < t ->
  exists w1 : WebAudioLooper.t,
    (forall fuel, play fuel w = Done w1) /\
    isPlaying w1 = true /\
    forall fuel, step fuel (Frame t) w1 = OutOfFuel.
Proof.
  intros (Hctx & Hbuf & Hgain) Hloop Hreq Hzero Hsr Hrate Hls Hnext Ht.
  destruct (first_frame_after_play w t Hctx Hbuf Hloop Hreq)
    as (w1 & wa & Hplay & HS1 & HA1 & HI1 & HT1 & HP1 & Hstep & HPar & HSa
        & HAa & HNa & HCa).
  exists w1. split; [exact Hplay|]. split; [exact HI1|].
  intros fuel. rewrite Hstep.
  assert (Hda : exactLoopDurationSeconds wa = exactLoopDurationSeconds w)
    by exact (sameParams_duration _ _ HPar).
  destruct HPar as (_ & _ & _ & Hla & Hsa & HXa & HBa & HGa).
  unfold scheduleBuffersAhead.
  rewrite HXa, Hctx, HAa. cbn [negb orb].
  rewrite scheduleLoop_hangs; [reflexivity| | | | | | | ].
  - rewrite Hda. unfold exactLoopDurationSeconds. rewrite Hzero.
    unfold Qdiv. ring.
  - congruence.
  - rewrite HBa. exact Hbuf.
  - congruence.
  - rewrite Hla. exact Hls.
  - rewrite HNa. exact Hnext.
  - rewrite HNa, HCa, Hsa.
    pose proof (Q.le_max_r (currentTime w) t) as Hm. unfold max.
    set (m := Qmax (currentTime w) t) in *.
    set (c := currentTime w) in *. set (a := scheduleAheadTime w) in *.
    clearbody m c a. clear - Hm Ht. lra.
Qed.

End LoopingPlay.

Section ReportedTime.
Import JS WebAudioLooper.





End ReportedTime.

Section LoopPoints.
Import JS WebAudioLooper.



End LoopPoints.

Section OutsideTheAsset.
Import JS WebAudioLooper.

(** Without a loop [play] starts a source at offset [pausedAt] for the
    rest of the asset; the platform rejects a negative offset and a
    negative duration. *)
Lemma play_outside_raises (fuel : nat) (w : t) (b : AudioBuffer) :
  audioContext w = true -> audioBuffer w = Some b -> gainNode w = true ->
  isLooping w && gtb (loopEnd w) (loopStart w) = false ->
  pausedAt w < 0 \/ duration b < pausedAt w ->
  play fuel w = Raised RangeError.
Proof.
  intros Hctx Hb Hg Hnl Hout. unfold play. rewrite Hctx, Hb. cbn [negb].
  set (w0 := set_isPlaying true
               (if suspended w then set_suspended false w else w)).
  assert (E0 : isLooping w0 = isLooping w /\ loopEnd w0 = loopEnd w /\
               loopStart w0 = loopStart w /\ audioContext w0 = true /\
               audioBuffer w0 = Some b /\ gainNode w0 = true /\
               pausedAt w0 = pausedAt w).
  { unfold w0. destruct (suspended w); cbn; auto 10. }
  destruct E0 as (E1 & E2 & E3 & E4 & E5 & E6 & E7).
  rewrite E1, E2, E3, Hnl.
  unfold createSource. rewrite E4, E5, E6. cbn [negb].
  unfold start.
  cbn [sources set_sources set_currentSource pausedAt].
  rewrite lookup_app_r by lia. rewrite Nat.sub_diag.
  cbn [lookup list_lookup]. rewrite E7.
  assert (E : ltb 0 0 || ltb (pausedAt w) 0
              || ltb (duration b - pausedAt w) 0 = true).
  { rewrite ltb_irrefl. cbn [orb]. apply orb_true_iff.
    unfold ltb. rewrite !negb_true_iff.
    destruct Hout as [Hneg|Hpast]; [left|right];
      apply not_true_iff_false; rewrite Qle_bool_iff; lra. }
  rewrite E. reflexivity.
Qed.

Lemma pause_keeps_asset (w w1 : t) :
  pause w = Done w1 ->
  audioContext w1 = audioContext w /\ audioBuffer w1 = audioBuffer w /\
  gainNode w1 = gainNode w /\ isLooping w1 = isLooping w /\
  loopStart w1 = loopStart w /\ loopEnd w1 = loopEnd w.
Proof.
  unfold pause. intros H.
  destruct (stop_field _ _) as [wa| |] eqn:H1 in H; cbn [andThen] in H;
    try discriminate.
  destruct (stop_field _ _) as [wb| |] eqn:H2 in H; cbn [andThen] in H;
    try discriminate.
  destruct (stop_field_fields _ _ _ H1) as (l1 & -> & _).
  destruct (stop_field_fields _ _ _ H2) as (l2 & -> & _).
  injection H as <-.
  match goal with
  | |- context [if ?c then _ else _] => destruct c
  end; repeat split.
Qed.

(** X17.  Without a loop, a seek outside the asset (before 0 or past
    its duration) is not clamped and ends in a [RangeError] of the
    platform: raised by the seek itself when the looper plays, and by
    the next [play] when it is paused. *)
Theorem seek_outside_asset_raises (fuel : nat) (w : t) (b : AudioBuffer)
    (time : Q) :
  audioContext w = true -> audioBuffer w = Some b -> gainNode w = true ->
  isLooping w && gtb (loopEnd w) (loopStart w) = false ->
  time < 0 \/ duration b < time ->
  (isPlaying w = false ->
   andThen (seek fuel time w) (play fuel) = Raised RangeError) /\
  (isPlaying w = true ->
   forall w1, pause w = Done w1 ->
   seek fuel time w = Raised RangeError).
Proof.
  intros Hctx Hb Hg Hnl Hout. split.
  - intros Hp. unfold seek. rewrite Hp. cbn [andThen].
    apply play_outside_raises with (b := b); auto.
  - intros Hp w1 Hw1. unfold seek. rewrite Hp, Hw1. cbn [andThen].
    destruct (pause_keeps_asset _ _ Hw1) as (A1 & A2 & A3 & A4 & A5 & A6).
    apply play_outside_raises with (b := b);
      cbn [audioContext audioBuffer gainNode isLooping loopEnd loopStart
           pausedAt set_pausedAt]; try congruence.
Qed.

(** X18.  [pause] records the position, but the source it stopped still
    carries the handler [play] installed: when the platform then
    delivers the [ended] event of that source, the position recorded by
    [pause] is replaced by 0 and a subscriber is told that playback
    ended. *)
Theorem pause_then_ended_loses_position (w : t) (i : nat)
    (node : SourceNode) :
  currentSource w = Some i -> nextSource w = None ->
  sources w !! i = Some node -> is_Some (src_started node) ->
  src_onended node = true -> src_dispatched node = false ->
  exists w1 : WebAudioLooper.t,
    pause w = Done w1 /\
    pausedAt w1 = getCurrentTime w /\
    forall fuel, exists w2 : WebAudioLooper.t,
      step fuel (SourceEnded i) w1 = Done w2 /\
      pausedAt w2 = 0 /\ isPlaying w2 = false /\
      notified w2
      = notified w ++ (if onEnded w then [Ended] else []).
Proof.
  intros Hc Hn Hi [st Hst] Hon Hdis.
  unfold pause. cbn [currentSource set_schedulingActive]. rewrite Hc.
  cbn [stop_field]. unfold stop. cbn [sources set_schedulingActive].
  rewrite Hi, Hst. cbn [andThen nextSource set_currentSource set_sources
                        set_schedulingActive].
  rewrite Hn. cbn [stop_field andThen].
  eexists. split; [reflexivity|].
  split.
  { match goal with
    | |- context [if ?c then _ else _] => destruct c
    end; reflexivity. }
  intros fuel.
  set (node1 := set_src_stopped true node).
  assert (Hl : forall w', sources w' = <[i := node1]> (sources w) ->
               sources w' !! i = Some node1).
  { intros w' ->. apply list_lookup_insert_eq.
    eapply lookup_lt_Some; eauto. }
  match goal with
  | |- context [if ?c then ?a else ?b] =>
      set (wq := if c then a else b);
      assert (Hq : sources wq = <[i := node1]> (sources w) /\
                   notified wq = notified w /\ onEnded wq = onEnded w)
        by (unfold wq; destruct c; repeat split)
  end.
  destruct Hq as (Hq1 & Hq2 & Hq3).
  cbn [step]. rewrite (Hl wq Hq1).
  change (src_started node1) with (src_started node). rewrite Hst.
  change (src_dispatched node1) with (src_dispatched node). rewrite Hdis.
  change (src_onended node1) with (src_onended node). rewrite Hon.
  eexists. split; [reflexivity|].
  unfold onended.
  cbn [onEnded set_pausedAt set_isPlaying set_sources].
  rewrite Hq3. destruct (onEnded w); cbn; rewrite Hq2;
    repeat split; now rewrite ?app_nil_r.
Qed.

End OutsideTheAsset.

(** ** The native looper: loop points, rate and rescheduling *)

Section NativeLoop.
Import NativeAudioLooperImpl.
Variable m : Float.libm.

Lemma nth_map_seq {A} (f : nat -> A) (n i : nat) (d : A) :
  (i < n)%nat -> nth i (map f (seq 0 n)) d = f i.
Proof.
  intros Hi.
  rewrite (nth_indep _ d (f 0%nat)) by (rewrite length_map, length_seq; lia).
  rewrite (map_nth f (seq 0 n) 0%nat i). now rewrite seq_nth.
Qed.


Lemma Int_fits (x : Q) :
  (- 2 ^ 63 <= JS.trunc x < 2 ^ 63)%Z -> Int x = Returns (JS.trunc x).
Proof.
  intros [H1 H2]. unfold Int, inInt64.
  apply Z.leb_le in H1. apply Z.ltb_lt in H2. now rewrite H1, H2.
Qed.


Lemma AVAudioFrameCount_fits (n : Z) :
  (0 <= n < 2 ^ 32)%Z -> AVAudioFrameCount n = Returns n.
Proof.
  intros [H1 H2]. unfold AVAudioFrameCount, inUInt32.
  apply Z.leb_le in H1. apply Z.ltb_lt in H2. now rewrite H1, H2.
Qed.

Lemma AVAudioFrameCount_traps (n : Z) :
  (2 ^ 32 <= n)%Z -> AVAudioFrameCount n = Traps.
Proof.
  intros H. unfold AVAudioFrameCount, inUInt32. apply Z.ltb_ge in H.
  rewrite H. now rewrite andb_false_r.
Qed.

Lemma sub_fits (a b : Z) :
  (- 2 ^ 63 <= a - b < 2 ^ 63)%Z -> sub a b = Returns (a - b)%Z.
Proof.
  intros [H1 H2]. unfold sub, inInt64.
  apply Z.leb_le in H1. apply Z.ltb_lt in H2. now rewrite H1, H2.
Qed.

Lemma crossfadeFrames_fits (s : t) :
  fits s -> crossfadeFrames s = Returns (cfFrames s).
Proof.
  intros (_ & _ & _ & Hc). unfold crossfadeFrames, cfFrames.
  rewrite Int_fits by lia. cbn [andThen].
  apply AVAudioFrameCount_fits. lia.
Qed.

Lemma cfFrames_pos (s : t) : (1 <= cfFrames s)%Z.
Proof. unfold cfFrames. lia. Qed.

Lemma cfFrames_fits (s : t) : fits s -> (cfFrames s < 2 ^ 32)%Z.
Proof. intros (_ & _ & _ & Hc). unfold cfFrames. lia. Qed.

Lemma makeCrossfadeBuffer_format (s s' : t) (file : AudioFile)
    (startFrame endFrame cf : Z) :
  audioFormat s' = audioFormat s ->
  makeCrossfadeBuffer m s' file startFrame endFrame cf
  = makeCrossfadeBuffer m s file startFrame endFrame cf.
Proof.
  intros H. unfold makeCrossfadeBuffer, readFrames. now rewrite H.
Qed.


(** What the player holds after the block of an interrupting cycle. *)
Lemma runTask_interrupting_cycle (s : t) (file : AudioFile)
    (startFrame endFrame mainFrames cf : Z)
    (made : option PCMBuffer) :
  makeCrossfadeBuffer m s file startFrame endFrame cf = Returns made ->
  exists s',
    runTask m (CycleTask true file startFrame endFrame mainFrames cf) s
    = Returns s' /\
    playerQueue s'
    = (if (mainFrames >? 0)%Z then [Segment startFrame mainFrames] else [])
      ++ match made with
         | Some xfade => [Buffer xfade NextCycleIfPlaying]
         | None => []
         end /\
    isPlaying s' = isPlaying s /\ playerPlaying s' = false /\
    playerSampleTime s' = None /\
    schedulingQueue s' = schedulingQueue s /\
    audioFile s' = audioFile s /\ audioFormat s' = audioFormat s /\
    loopStartSec s' = loopStartSec s /\ loopEndSec s' = loopEndSec s /\
    sampleRate s' = sampleRate s /\ crossfadeMs s' = crossfadeMs s.
Proof.
  intros Hmade. cbn [runTask].
  set (s1 := if (mainFrames >? 0)%Z then _ else _).
  assert (Hf : audioFormat s1 = audioFormat s)
    by (unfold s1; destruct (mainFrames >? 0)%Z; reflexivity).
  assert (Hq : playerQueue s1
               = if (mainFrames >? 0)%Z
                 then [Segment startFrame mainFrames] else [])
    by (unfold s1; destruct (mainFrames >? 0)%Z; reflexivity).
  assert (Hrest : isPlaying s1 = isPlaying s /\ playerPlaying s1 = false /\
                  playerSampleTime s1 = None /\
                  schedulingQueue s1 = schedulingQueue s /\
                  audioFile s1 = audioFile s /\
                  loopStartSec s1 = loopStartSec s /\
                  loopEndSec s1 = loopEndSec s /\
                  sampleRate s1 = sampleRate s /\
                  crossfadeMs s1 = crossfadeMs s)
    by (unfold s1; destruct (mainFrames >? 0)%Z; cbn; auto 10).
  rewrite (makeCrossfadeBuffer_format s s1 _ _ _ _ Hf), Hmade.
  cbn [andThen]. eexists. split; [reflexivity|].
  destruct Hrest as (R1 & R2 & R3 & R4 & R5 & R6 & R7 & R8 & R9).
  destruct made as [xfade|].
  - cbn [playerSchedule playerQueue set_playerQueue isPlaying playerPlaying
         playerSampleTime schedulingQueue audioFile audioFormat loopStartSec
         loopEndSec sampleRate crossfadeMs].
    rewrite Hq. auto 15.
  - rewrite Hq, app_nil_r. auto 15.
Qed.

Lemma scheduleNextCycle_enqueues (interrupt : bool) (s : t)
    (file : AudioFile) :
  audioFile s = Some file -> fits s ->
  (0 < loopEndFrame s - loopStartFrame s)%Z ->
  scheduleNextCycle interrupt s
  = Returns
      (set_schedulingQueue
         (schedulingQueue s
          ++ [CycleTask interrupt file (loopStartFrame s) (loopEndFrame s)
                (Z.max 0 (loopEndFrame s - loopStartFrame s - cfFrames s))
                (cfFrames s)]) s).
Proof.
  intros Hf Hfits Hpos. pose proof Hfits as (H1 & H2 & H3 & H4).
  pose proof (cfFrames_pos s) as Hc1.
  pose proof (cfFrames_fits s Hfits) as Hc2.
  unfold scheduleNextCycle, AVAudioFramePosition. rewrite Hf.
  fold (loopStartFrame s) in *. fold (loopEndFrame s) in *.
  unfold loopStartFrame, loopEndFrame in *.
  rewrite !Int_fits by lia. cbn [andThen].
  rewrite sub_fits by lia. cbn [andThen].
  destruct (_ <=? 0)%Z eqn:E; [apply Z.leb_le in E; lia|].
  rewrite (crossfadeFrames_fits s Hfits). cbn [andThen].
  rewrite sub_fits by lia. cbn [andThen].
  rewrite AVAudioFrameCount_fits by lia. reflexivity.
Qed.






End NativeLoop.

(** ** The native looper: the equal-power crossfade *)

Section EqualPower.
Import NativeAudioLooperImpl.
Variable m : Float.libm.
Local Open Scope R_scope.








End EqualPower.

(** ** The native looper: cycles and who starts the player *)

Section NativeCycles.
Import NativeAudioLooperImpl.
Variable m : Float.libm.

(** A crossfade buffer that was made has [cf] frames in its first
    channel. *)
Lemma makeCrossfadeBuffer_frames (s : t) (file : AudioFile)
    (startFrame endFrame cf : Z) (format : AudioFormat) (buf : PCMBuffer) :
  audioFormat s = Some format -> (1 <= channelCount format)%nat ->
  makeCrossfadeBuffer m s file startFrame endFrame cf = Returns (Some buf) ->
  Z.of_nat (List.length (nth 0 buf [])) = cf.
Proof.
  intros Hf Hch H. unfold makeCrossfadeBuffer in H. rewrite Hf in H.
  destruct (cf <=? 0)%Z eqn:E; [discriminate|].
  destruct (sub endFrame cf); cbn [andThen] in H; [|discriminate].
  destruct (readFrames _ _ _ _) as [endBuf|]; [|discriminate].
  destruct (readFrames _ _ _ _) as [startBuf|]; [|discriminate].
  injection H as <-.
  rewrite nth_map_seq by lia. rewrite length_map, length_seq.
  apply Z.leb_gt in E. lia.
Qed.

(** X19.  One cycle of the loop, as the block of [scheduleNextCycle]
    hands it to the player, for a region and a crossfade whose frames
    fit their integer types: the main segment from the loop start and
    the crossfade buffer last together as many frames as the region
    has, whenever the region is at least as long as the crossfade (of
    one frame at least); a shorter region is played for the whole
    crossfade length instead. *)
Theorem cycle_lasts_the_region (s : t) (file : AudioFile)
    (format : AudioFormat) (buf : PCMBuffer) :
  audioFile s = Some file -> audioFormat s = Some format ->
  (1 <= channelCount format)%nat ->
  schedulingQueue s = [] ->
  fits s ->
  let startFrame := loopStartFrame s in
  let endFrame := loopEndFrame s in
  let cf := cfFrames s in
  (0 < endFrame - startFrame)%Z ->
  makeCrossfadeBuffer m s file startFrame endFrame cf = Returns (Some buf) ->
  exists s1 s',
    scheduleNextCycle true s = Returns s1 /\
    runNext m s1 = Returns s' /\
    (1 <= cf)%Z /\
    queuedFrames (playerQueue s') = Z.max (endFrame - startFrame) cf /\
    (cf <= endFrame - startFrame ->
     queuedFrames (playerQueue s') = endFrame - startFrame)%Z /\
    schedulingQueue s' = [].
Proof.
  intros Hfile Hfmt Hch Hq Hfits startFrame endFrame cf Htotal Hbuf.
  rewrite (scheduleNextCycle_enqueues true s file Hfile Hfits Htotal).
  fold startFrame endFrame cf.
  set (s0 := set_schedulingQueue [] s).
  assert (Hbuf0 : makeCrossfadeBuffer m s0 file startFrame endFrame cf
                  = Returns (Some buf))
    by (rewrite (makeCrossfadeBuffer_format m s s0) by reflexivity;
        exact Hbuf).
  destruct (runTask_interrupting_cycle m s0 file startFrame endFrame
              (Z.max 0 (endFrame - startFrame - cf)) cf _ Hbuf0)
    as (s' & Hrun & Hqueue & _ & _ & _ & Hsq & _).
  eexists. exists s'. split; [reflexivity|].
  split.
  { unfold runNext. cbn [schedulingQueue set_schedulingQueue].
    rewrite Hq. exact Hrun. }
  pose proof (cfFrames_pos s) as Hcf. fold cf in Hcf.
  split; [exact Hcf|].
  pose proof (makeCrossfadeBuffer_frames _ _ _ _ _ _ _ Hfmt Hch Hbuf)
    as Hlen.
  assert (Hframes : queuedFrames (playerQueue s')
                    = Z.max (endFrame - startFrame) cf).
  { rewrite Hqueue.
    destruct (Z.max 0 (endFrame - startFrame - cf) >? 0)%Z eqn:E;
      cbn [app queuedFrames fold_right itemFrames]; rewrite Hlen.
    - apply Z.gtb_lt in E. lia.
    - rewrite Z.gtb_ltb in E. apply Z.ltb_ge in E. lia. }
  split; [exact Hframes|]. split; [rewrite Hframes; lia|].
  rewrite Hsq. reflexivity.
Qed.

End NativeCycles.

Section WhoStartsThePlayer.
Import NativeAudioLooperImpl.
Variable m : Float.libm.





End WhoStartsThePlayer.

(** ** The waveform worker: what the bins hold *)

Section Waveform.
Import JS WaveformWorker.

Lemma toIndex_int (x : Q) (z : Z) :
  x == inject_Z z -> (0 <= z)%Z -> toIndex x = Some (Z.to_nat z).
Proof.
  intros Hx Hz. unfold toIndex.
  assert (Hf : Qfloor x = z) by (rewrite (Qfloor_comp _ _ Hx); apply Qfloor_Z).
  rewrite Hf.
  assert (E : Qeq_bool (inject_Z z) x = true)
    by (apply Qeq_eq_bool; symmetry; exact Hx).
  rewrite E. cbn [andb].
  destruct (Z.leb_spec 0 z); [reflexivity|lia].
Qed.

Lemma ceiling_unique (x : Q) (z : Z) :
  inject_Z (z - 1) < x -> x <= inject_Z z -> Qceiling x = z.
Proof.
  intros Hlo Hhi.
  pose proof (Qle_ceiling x) as H1. pose proof (Qceiling_lt x) as H2.
  assert (A : (Qceiling x - 1 < z)%Z).
  { rewrite Zlt_Qlt. eapply Qlt_le_trans; eauto. }
  assert (B : (z - 1 < Qceiling x)%Z).
  { rewrite Zlt_Qlt. eapply Qlt_le_trans; eauto. }
  lia.
Qed.

Lemma ceiling_sub_int (y x : Q) (a : Z) :
  x == inject_Z a -> Qceiling (y - x) = (Qceiling y - a)%Z.
Proof.
  intros Hx. apply ceiling_unique.
  - pose proof (Qceiling_lt y) as H. unfold Z.sub in *.
    rewrite !inject_Z_plus, !inject_Z_opp in *. rewrite Hx. lra.
  - pose proof (Qle_ceiling y) as H. unfold Z.sub.
    rewrite inject_Z_plus, inject_Z_opp. rewrite Hx. lra.
Qed.

Lemma ltb_true (x y : Q) : x < y -> ltb x y = true.
Proof.
  intros H. unfold ltb. apply negb_true_iff, not_true_iff_false.
  rewrite Qle_bool_iff. lra.
Qed.

Lemma ltb_false (x y : Q) : y <= x -> ltb x y = false.
Proof.
  intros H. unfold ltb. now apply negb_false_iff, Qle_bool_iff.
Qed.

(** The inner loop over [j]: from an integer position it reads the
    samples in order; all of them lie in the array. *)
Lemma inner_loop (d : list Q) (start : Q) (first : Z) :
  start == inject_Z first -> (0 <= first)%Z ->
  forall (n a : nat) (m : Q),
    ((0 < n)%nat -> (Z.to_nat first + a + n <= List.length d)%nat) ->
    fold_left
      (fun max j =>
         if ltb j (inject_Z (Z.of_nat (List.length d)))
         then max2 max (abs (read d j))
         else max)
      (map (fun k => start + inject_Z (Z.of_nat k)) (seq a n)) (Number m)
    = Number (fold_left (fun m x => Qmax m (Qabs x))
                (take n (drop (Z.to_nat first + a) d)) m).
Proof.
  intros Hs Hf. induction n as [|n IH]; intros a m Hlen.
  - reflexivity.
  - cbn [seq map fold_left].
    assert (Hj : start + inject_Z (Z.of_nat a)
                 == inject_Z (first + Z.of_nat a)).
    { rewrite inject_Z_plus, Hs. reflexivity. }
    assert (Hlt : (Z.to_nat first + a < List.length d)%nat) by lia.
    destruct (lookup_lt_is_Some_2 d _ Hlt) as [x Hx].
    rewrite ltb_true.
    2:{ rewrite Hj, <- Zlt_Qlt. lia. }
    unfold read. rewrite (toIndex_int _ _ Hj) by lia.
    replace (Z.to_nat (first + Z.of_nat a)) with (Z.to_nat first + a)%nat
      by lia.
    rewrite Hx. cbn [abs max2].
    rewrite (drop_S _ _ _ Hx). cbn [take fold_left].
    rewrite IH by lia.
    replace (Z.to_nat first + S a)%nat with (S (Z.to_nat first + a)) by lia.
    reflexivity.
Qed.

Lemma samplesPerBin_int (r : request) :
  samplesPerBin r == inject_Z (Qfloor (samplesPerBin r)) /\
  (1 <= Qfloor (samplesPerBin r))%Z.
Proof.
  unfold samplesPerBin, max.
  set (q := floor (actualSampleRange r / samples r)).
  destruct (Z_le_gt_dec q 1) as [Hq|Hq].
  - assert (E : Qmax 1 (inject_Z q) == 1).
    { apply Q.max_l. change 1 with (inject_Z 1). now rewrite <- Zle_Qle. }
    rewrite (Qfloor_comp _ _ E). change (Qfloor 1) with 1%Z.
    split; [exact E|lia].
  - assert (E : Qmax 1 (inject_Z q) == inject_Z q).
    { apply Q.max_r. change 1 with (inject_Z 1). rewrite <- Zle_Qle. lia. }
    rewrite (Qfloor_comp _ _ E), Qfloor_Z. split; [exact E|lia].
Qed.

Lemma actualStartSample_nonneg (r : request) : 0 <= actualStartSample r.
Proof. unfold actualStartSample, max. apply Q.le_max_l. Qed.

Lemma actualEndSampleClamped_le (r : request) :
  actualEndSampleClamped r <= audioLength r.
Proof. unfold actualEndSampleClamped, min. apply Q.le_min_r. Qed.

(** What the loop body computes for an index that is an integer, the
    first sample being at an integer position: the peak of the bin's
    window, a number. *)
Lemma bin_peak (r : request) (i : Q) (n : nat) :
  inject_Z (Qfloor (actualStartSample r)) == actualStartSample r ->
  i == inject_Z (Z.of_nat n) ->
  bin r i = Number (binPeak r n).
Proof.
  intros Hint Hi. unfold bin, binPeak, peak, window.
  destruct (samplesPerBin_int r) as [Hb Hb1].
  set (b := Qfloor (samplesPerBin r)) in *.
  set (s := Qfloor (actualStartSample r)) in *.
  set (e := actualEndSampleClamped r).
  set (first := (s + Z.of_nat n * b)%Z).
  assert (Hs0 : (0 <= s)%Z).
  { unfold s. change 0%Z with (Qfloor 0). apply Qfloor_resp_le.
    apply actualStartSample_nonneg. }
  assert (Hfirst : (0 <= first)%Z) by (unfold first; nia).
  set (start := actualStartSample r + i * samplesPerBin r).
  assert (Hstart : start == inject_Z first).
  { unfold start, first. rewrite inject_Z_plus, inject_Z_mult.
    rewrite <- Hint, Hi, Hb. reflexivity. }
  assert (He : (Qceiling e <= Z.of_nat (List.length (audioData r)))%Z).
  { rewrite <- (Qceiling_Z (Z.of_nat _)). apply Qceiling_resp_le.
    apply actualEndSampleClamped_le. }
  assert (Hcnt : Qceiling (min (start + samplesPerBin r) e - start)
                 = Z.min b (Qceiling e - first)).
  { unfold min. destruct (Qlt_le_dec e (start + samplesPerBin r)) as [Hlt|Hle].
    - assert (E : Qmin (start + samplesPerBin r) e - start == e - start).
      { rewrite Q.min_r by lra. reflexivity. }
      rewrite (Qceiling_comp _ _ E), (ceiling_sub_int _ _ _ Hstart).
      assert (Qceiling e <= first + b)%Z; [|lia].
      rewrite <- (Qceiling_Z (first + b)). apply Qceiling_resp_le.
      rewrite inject_Z_plus, <- Hstart, <- Hb. lra.
    - assert (E : Qmin (start + samplesPerBin r) e - start == inject_Z b).
      { rewrite Q.min_l by lra. rewrite Hb. ring. }
      rewrite (Qceiling_comp _ _ E), Qceiling_Z.
      assert (first + b <= Qceiling e)%Z; [|lia].
      rewrite Zle_Qle. eapply Qle_trans; [|apply Qle_ceiling].
      rewrite inject_Z_plus, <- Hstart, <- Hb. exact Hle. }
  unfold upTo. fold start e. rewrite Hcnt.
  unfold audioLength.
  rewrite (inner_loop (audioData r) start first Hstart Hfirst).
  - now rewrite Nat.add_0_r.
  - intros Hpos. lia.
Qed.

Lemma write_append (d : list value) (i : Q) (v : value) :
  i == inject_Z (Z.of_nat (List.length d)) -> write d i v = d ++ [v].
Proof.
  intros Hi. unfold write. rewrite (toIndex_int _ _ Hi) by lia.
  rewrite Nat2Z.id, Nat.ltb_irrefl, Nat.sub_diag. reflexivity.
Qed.

(** The loop over [i] in one chunk appends one bin per index. *)
Lemma chunk_loop (r : request) (p : Q) (c0 : nat) :
  inject_Z (Qfloor (actualStartSample r)) == actualStartSample r ->
  p == inject_Z (Z.of_nat c0) ->
  forall (cnt a : nat) (d : list value),
    List.length d = (c0 + a)%nat ->
    fold_left (fun d i => write d i (bin r i))
      (map (fun k => p + inject_Z (Z.of_nat k)) (seq a cnt)) d
    = d ++ map (fun n => Number (binPeak r n)) (seq (c0 + a) cnt).
Proof.
  intros Hint Hp. induction cnt as [|cnt IH]; intros a d Hlen.
  - cbn. now rewrite app_nil_r.
  - cbn [seq map fold_left].
    assert (Hi : p + inject_Z (Z.of_nat a)
                 == inject_Z (Z.of_nat (c0 + a))).
    { rewrite Nat2Z.inj_add, inject_Z_plus, Hp. reflexivity. }
    rewrite (bin_peak r _ (c0 + a) Hint Hi).
    rewrite write_append by (now rewrite Hlen).
    rewrite IH by (rewrite length_app; cbn; lia).
    rewrite <- app_assoc. cbn [app].
    now replace (c0 + S a)%nat with (S (c0 + a)) by lia.
Qed.

Lemma run_more (r : request) :
  forall (fuel : nat) (st st' : state),
    run fuel r st = Some st' ->
    forall fuel', (fuel <= fuel')%nat -> run fuel' r st = Some st'.
Proof.
  induction fuel as [|fuel IH]; intros st st' H fuel' Hle; [discriminate|].
  destruct fuel' as [|fuel']; [lia|].
  cbn [run] in *. destruct (processChunk r st) as [st1 again].
  destruct again; [|exact H]. apply (IH _ _ H). lia.
Qed.

(** The chain of chunks, from a state that holds the first [c] bins. *)
Lemma run_chunks (r : request) :
  inject_Z (Qfloor (actualStartSample r)) == actualStartSample r ->
  forall (fuel c : nat) (st : state),
    processed st == inject_Z (Z.of_nat c) ->
    waveformData st = map (fun n => Number (binPeak r n)) (seq 0 c) ->
    Forall isProgress (posted st) ->
    (c = 0%nat \/ inject_Z (Z.of_nat c) < samples r) ->
    samples r <= inject_Z (Z.of_nat c) + 1000 * inject_Z (Z.of_nat fuel) ->
    (1 <= fuel)%nat ->
    exists (st' : state) (progress : list message),
      run fuel r st = Some st' /\
      posted st'
      = progress
        ++ [WaveformGenerated (waveformData st') (actualSampleRange r)] /\
      Forall isProgress progress /\
      waveformData st'
      = map (fun n => Number (binPeak r n))
          (seq 0 (Z.to_nat (Qceiling (samples r)))).
Proof.
  intros Hint. induction fuel as [|fuel IH];
    intros c st Hp Hd Hpost Hc Hfuel H1; [lia|].
  cbn [run]. unfold processChunk, chunkSize, min.
  set (endIndex := Qmin (processed st + 1000) (samples r)).
  set (posted' := if _ && _ then _ else posted st).
  assert (Hpost' : Forall isProgress posted').
  { unfold posted'. destruct (_ && _); [|exact Hpost].
    apply Forall_app. split; [exact Hpost|]. repeat constructor. }
  assert (Hloop : forall cnt,
             Z.to_nat (Qceiling (endIndex - processed st)) = cnt ->
             fold_left (fun d i => write d i (bin r i))
               (upTo (processed st) endIndex) (waveformData st)
             = map (fun n => Number (binPeak r n)) (seq 0 (c + cnt))).
  { intros cnt Hcnt. unfold upTo. rewrite Hcnt.
    rewrite (chunk_loop r (processed st) c Hint Hp cnt 0 (waveformData st))
      by (rewrite Hd, length_map, length_seq; lia).
    rewrite Hd, Nat.add_0_r, seq_app, map_app. reflexivity. }
  destruct (Qlt_le_dec (processed st + 1000) (samples r)) as [Hlt|Hge].
  - (* a full chunk, and more to do *)
    assert (He : endIndex == processed st + 1000)
      by (unfold endIndex; apply Q.min_l; lra).
    rewrite (ltb_true endIndex (samples r)) by (rewrite He; exact Hlt).
    assert (Hcnt : Z.to_nat (Qceiling (endIndex - processed st)) = 1000%nat).
    { assert (E : endIndex - processed st == inject_Z 1000)
        by (rewrite He; change (inject_Z 1000) with 1000; ring).
      rewrite (Qceiling_comp _ _ E), Qceiling_Z. reflexivity. }
    rewrite (Hloop _ Hcnt).
    assert (Hc' : inject_Z (Z.of_nat (c + 1000)) == processed st + 1000).
    { rewrite Nat2Z.inj_add, inject_Z_plus, Hp. reflexivity. }
    apply (IH (c + 1000)%nat); cbn [processed waveformData posted].
    + rewrite He, Hc'. reflexivity.
    + reflexivity.
    + exact Hpost'.
    + right. rewrite Hc'. exact Hlt.
    + rewrite Hc', Hp. rewrite Nat2Z.inj_succ in Hfuel.
      unfold Z.succ in Hfuel. rewrite inject_Z_plus in Hfuel.
      change (inject_Z 1) with 1 in Hfuel. lra.
    + destruct fuel as [|fuel]; [|lia]. exfalso.
      change (inject_Z (Z.of_nat 1)) with 1 in Hfuel. lra.
  - (* the last chunk *)
    assert (He : endIndex == samples r)
      by (unfold endIndex; apply Q.min_r; lra).
    rewrite (ltb_false endIndex (samples r)) by (rewrite He; apply Qle_refl).
    assert (Hcnt : (c + Z.to_nat (Qceiling (endIndex - processed st)))%nat
                   = Z.to_nat (Qceiling (samples r))).
    { assert (E : endIndex - processed st == samples r - processed st)
        by (rewrite He; reflexivity).
      rewrite (Qceiling_comp _ _ E), (ceiling_sub_int _ _ _ Hp).
      destruct Hc as [->|Hc]; [cbn; lia|].
      assert (Z.of_nat c <= Qceiling (samples r))%Z; [|lia].
      rewrite Zle_Qle. eapply Qle_trans; [|apply Qle_ceiling].
      apply Qlt_le_weak, Hc. }
    rewrite (Hloop _ eq_refl), Hcnt.
    eexists _, posted'. cbn [posted waveformData].
    split; [reflexivity|]. split; [reflexivity|].
    split; [exact Hpost'|reflexivity].
Qed.

(** X23.  The worker, asked for a waveform from an integer start
    sample, posts its result after finitely many chunks (the number of
    chunks allowed making no difference once it is enough), as its last
    message and after progress messages only.  The result has one bin
    per integer below [samples] (so [ceil samples] bins), without hole
    or [NaN], and bin [n] is the largest magnitude among the
    [samplesPerBin] samples from
    [actualStartSample + n * samplesPerBin] on, cut at the end of the
    requested range. *)
Theorem waveform_holds_the_peaks (r : request) :
  inject_Z (Qfloor (actualStartSample r)) == actualStartSample r ->
  exists (fuel : nat) (st : state) (progress : list message),
    (forall fuel', (fuel <= fuel')%nat -> onmessage fuel' r = Some st) /\
    posted st
    = progress
      ++ [WaveformGenerated (waveformData st) (actualSampleRange r)] /\
    Forall isProgress progress /\
    waveformData st
    = map (fun n => Number (binPeak r n))
        (seq 0 (Z.to_nat (Qceiling (samples r)))).
Proof.
  intros Hint.
  set (fuel := S (Z.to_nat (Qceiling (samples r / 1000)))).
  destruct (run_chunks r Hint fuel 0
              {| processed := 0; waveformData := []; posted := [] |})
    as (st & progress & Hrun & Hposted & Hprog & Hdata).
  - reflexivity.
  - reflexivity.
  - constructor.
  - now left.
  - change (inject_Z (Z.of_nat 0)) with 0. unfold fuel.
    rewrite Nat2Z.inj_succ. unfold Z.succ. rewrite inject_Z_plus.
    change (inject_Z 1) with 1.
    pose proof (Qle_ceiling (samples r / 1000)) as Hc.
    assert (Hx : samples r == samples r / 1000 * 1000) by (field; lra).
    destruct (Z_lt_le_dec (Qceiling (samples r / 1000)) 0) as [Hneg|Hpos'].
    + rewrite Z2Nat.nonpos by lia. change (inject_Z 0) with 0.
      assert (Hq : inject_Z (Qceiling (samples r / 1000)) < 0).
      { change 0 with (inject_Z 0). now rewrite <- Zlt_Qlt. }
      set (q := samples r / 1000) in *. set (s := samples r) in *.
      clearbody q s. clear - Hx Hc Hq.
      change (inject_Z (Z.of_nat 0)) with 0. lra.
    + rewrite Z2Nat.id by lia.
      set (q := samples r / 1000) in *. set (s := samples r) in *.
      set (z := inject_Z (Qceiling q)) in *.
      clearbody q s z. clear - Hx Hc. lra.
  - unfold fuel. lia.
  - exists fuel, st, progress.
    split; [|auto].
    intros fuel' Hle. unfold onmessage. eapply run_more; eauto.
Qed.

Lemma peak_from (l : list Q) :
  forall m : Q,
    m <= fold_left (fun m x => Qmax m (Qabs x)) l m /\
    Forall (fun x => Qabs x <= fold_left (fun m x => Qmax m (Qabs x)) l m)
      l /\
    (fold_left (fun m x => Qmax m (Qabs x)) l m == m \/
     Exists (fun x => fold_left (fun m x => Qmax m (Qabs x)) l m == Qabs x)
       l).
Proof.
  induction l as [|x l IH]; intros m; cbn [fold_left].
  - split; [apply Qle_refl|]. split; [constructor|]. left. reflexivity.
  - destruct (IH (Qmax m (Qabs x))) as (H1 & H2 & H3).
    pose proof (Q.le_max_l m (Qabs x)) as Hl.
    pose proof (Q.le_max_r m (Qabs x)) as Hr.
    split; [eapply Qle_trans; eauto|].
    split; [constructor; [eapply Qle_trans; eauto|exact H2]|].
    destruct H3 as [H3|H3]; [|right; now constructor 2].
    destruct (Qlt_le_dec m (Qabs x)) as [Hlt|Hle].
    + right. constructor 1. rewrite H3. apply Q.max_r. lra.
    + left. rewrite H3. apply Q.max_l. exact Hle.
Qed.

(** X24.  What a bin holds, for an integer start sample and a number
    of bins that is not 0: a number that is never negative, that no
    sample of the bin's window exceeds in magnitude, and that is the
    magnitude of one of them unless it is 0; the window of bin [n]
    holds [samplesPerBin] samples at most, taken in order from position
    [actualStartSample + n * samplesPerBin] of the audio data. *)
Theorem bin_is_an_attained_bound (r : request) (n : nat) :
  ~ samples r == 0 ->
  inject_Z (Qfloor (actualStartSample r)) == actualStartSample r ->
  let first := (Qfloor (actualStartSample r)
                + Z.of_nat n * Qfloor (samplesPerBin r))%Z in
  let w := window (audioData r) first (Qfloor (samplesPerBin r))
             (Qceiling (actualEndSampleClamped r)) in
  exists m : Q,
    bin r (inject_Z (Z.of_nat n)) = Number m /\
    0 <= m /\
    Forall (fun x => Qabs x <= m) w /\
    (m == 0 \/ Exists (fun x => m == Qabs x) w) /\
    (Z.of_nat (List.length w) <= Qfloor (samplesPerBin r))%Z /\
    forall k x, w !! k = Some x ->
                audioData r !! (Z.to_nat first + k)%nat = Some x.
Proof.
  intros _ Hint first w.
  exists (binPeak r n).
  split; [apply bin_peak; [exact Hint|reflexivity]|].
  unfold binPeak, peak. fold first. fold w.
  destruct (peak_from w 0) as (H1 & H2 & H3).
  split; [exact H1|]. split; [exact H2|]. split; [exact H3|].
  destruct (samplesPerBin_int r) as [_ Hb].
  split.
  - unfold w, window. rewrite length_take. lia.
  - intros k x Hk. unfold w, window in Hk.
    apply lookup_take_Some in Hk. destruct Hk as [Hk _].
    now rewrite lookup_drop in Hk.
Qed.

End Waveform.

(** ** Reaching the end of the asset without a loop *)

Section EndOfAsset.
Import JS.


End EndOfAsset.

(** ** Seeking *)

Section Seek.

(** The buffer-scheduling looper, when paused, records the requested
    time as it is. *)
Lemma seek_while_paused (fuel : nat) (time : Q) (w : WebAudioLooper.t) :
  WebAudioLooper.isPlaying w = false ->
  WebAudioLooper.seek fuel time w
  = WebAudioLooper.Done (WebAudioLooper.set_pausedAt time w) /\
  WebAudioLooper.getCurrentTime (WebAudioLooper.set_pausedAt time w) = time.
Proof.
  intros Hp. unfold WebAudioLooper.seek. rewrite Hp.
  cbn [WebAudioLooper.andThen]. split; [reflexivity|].
  unfold WebAudioLooper.getCurrentTime.
  cbn [WebAudioLooper.isPlaying WebAudioLooper.audioContext
       WebAudioLooper.pausedAt WebAudioLooper.set_pausedAt].
  rewrite Hp. now rewrite orb_true_r.
Qed.


End Seek.

(** ** The player interface: tap tempo, speed ramp and loop markers *)

Section TapTempo.
Import JS PlayerInterface.

Lemma sum_from (l : list Q) : forall acc, fold_left Qplus l acc == acc + sum l.
Proof.
  unfold sum. induction l as [|x l IH]; intros acc; cbn [fold_left].
  - ring.
  - rewrite IH, (IH (0 + x)). ring.
Qed.




End TapTempo.

Section SpeedRamp.
Import JS PlayerInterface.




End SpeedRamp.

Section Markers.
Import JS PlayerInterface.

Lemma calculateTimeFromPosition_range (rectLeft rectWidth clientX : Q)
    (m : markers) :
  0 <= duration m ->
  0 <= calculateTimeFromPosition rectLeft rectWidth clientX m /\
  calculateTimeFromPosition rectLeft rectWidth clientX m <= duration m.
Proof.
  intros Hd. unfold calculateTimeFromPosition.
  destruct (Qeq_bool (duration m) 0); [split; [apply Qle_refl|exact Hd]|].
  set (x := (clientX - rectLeft) / rectWidth).
  pose proof (Q.le_max_l 0 (Qmin 1 x)) as H0.
  assert (H1 : Qmax 0 (Qmin 1 x) <= 1).
  { apply Q.max_lub; [lra|apply Q.le_min_l]. }
  unfold max, min. set (ratio := Qmax 0 (Qmin 1 x)) in *.
  set (d := duration m) in *. clearbody ratio d. clear - H0 H1 Hd.
  split; nra.
Qed.

(** A gesture keeps the markers in order and inside the media, and
    asks for a seek inside the media only. *)
Lemma perform_ordered (isAudio : bool) (g : gesture) (m : markers) :
  ordered m -> onBar g ->
  ordered (fst (perform isAudio g m)) /\
  duration (fst (perform isAudio g m)) = duration m /\
  match snd (perform isAudio g m) with
  | Some t => 0 <= t /\ t <= duration m
  | None => True
  end.
Proof.
  intros (Hd & Hs & He & Hse) Hbar.
  assert (Hinc : 0 <= getNudgeIncrement isAudio)
    by (destruct isAudio; cbn; lra).
  destruct g as [type rl rw cx|d|d]; cbn [perform].
  - destruct (calculateTimeFromPosition_range rl rw cx m Hd) as [T0 T1].
    set (newTime := calculateTimeFromPosition rl rw cx m) in *.
    unfold handleMarkerDrag. cbn [fst snd].
    set (scrub := gtb _ _).
    assert (Hm1 : forall m1,
               m1 = (if scrub then set_lastScrubTime newTime m else m) ->
               loopStart m1 = loopStart m /\ loopEnd m1 = loopEnd m /\
               duration m1 = duration m).
    { intros m1 ->. destruct scrub; repeat split. }
    destruct (Hm1 _ eq_refl) as (A1 & A2 & A3).
    split; [|split; [destruct type; cbn; exact A3
                    |destruct scrub; [split; assumption|exact I]]].
    unfold ordered, inside, max, min, orElse in *.
    destruct type; cbn [loopStart loopEnd duration set_loopStart
                        set_loopEnd]; rewrite ?A1, ?A2, ?A3.
    + destruct (loopEnd m) as [b|].
      * destruct He as [He0 He1].
        pose proof (Q.le_max_l 0 (Qmin newTime b)).
        pose proof (Q.le_min_r newTime b).
        assert (Qmax 0 (Qmin newTime b) <= b)
          by (apply Q.max_lub; assumption).
        repeat split; try assumption; lra.
      * pose proof (Q.le_max_l 0 (Qmin newTime (duration m))).
        pose proof (Q.le_min_r newTime (duration m)).
        assert (Qmax 0 (Qmin newTime (duration m)) <= duration m)
          by (apply Q.max_lub; assumption).
        repeat split; try assumption.
    + destruct (loopStart m) as [a|].
      * destruct Hs as [Hs0 Hs1].
        pose proof (Q.le_max_l a (Qmin newTime (duration m))).
        pose proof (Q.le_min_r newTime (duration m)).
        assert (Qmax a (Qmin newTime (duration m)) <= duration m)
          by (apply Q.max_lub; assumption).
        repeat split; try assumption; lra.
      * pose proof (Q.le_max_l 0 (Qmin newTime (duration m))).
        pose proof (Q.le_min_r newTime (duration m)).
        assert (Qmax 0 (Qmin newTime (duration m)) <= duration m)
          by (apply Q.max_lub; assumption).
        repeat split; try assumption.
  - unfold handleNudgeLoopStart.
    destruct (loopStart m) as [a|] eqn:Ea;
      [|cbn [fst snd]; unfold ordered; rewrite Ea; auto].
    cbn [fst snd]. set (inc := getNudgeIncrement isAudio) in *.
    unfold ordered, inside, max, min, orElse in *.
    cbn [loopStart loopEnd duration set_loopStart].
    destruct Hs as [Hs0 Hs1].
    destruct d.
    + pose proof (Q.le_max_l 0 (a - inc)).
      assert (Qmax 0 (a - inc) <= a) by (apply Q.max_lub; lra).
      destruct (loopEnd m) as [b|]; [destruct He|];
        repeat split; try assumption; lra.
    + destruct (loopEnd m) as [b|].
      * destruct He as [He0 He1].
        pose proof (Q.le_min_l b (a + inc)).
        assert (a <= Qmin b (a + inc)) by (apply Q.min_glb; lra).
        repeat split; try assumption; lra.
      * pose proof (Q.le_min_l (duration m) (a + inc)).
        assert (a <= Qmin (duration m) (a + inc))
          by (apply Q.min_glb; lra).
        repeat split; try assumption; lra.
  - unfold handleNudgeLoopEnd.
    destruct (loopEnd m) as [b|] eqn:Eb;
      [|cbn [fst snd]; unfold ordered; rewrite Eb; auto].
    cbn [fst snd]. set (inc := getNudgeIncrement isAudio) in *.
    unfold ordered, inside, max, min, orElse in *.
    cbn [loopStart loopEnd duration set_loopEnd].
    destruct He as [He0 He1].
    destruct d.
    + destruct (loopStart m) as [a|].
      * destruct Hs as [Hs0 Hs1].
        pose proof (Q.le_max_l a (b - inc)).
        assert (Qmax a (b - inc) <= b) by (apply Q.max_lub; lra).
        repeat split; try assumption; lra.
      * pose proof (Q.le_max_l 0 (b - inc)).
        assert (Qmax 0 (b - inc) <= b) by (apply Q.max_lub; lra).
        repeat split; try assumption; lra.
    + pose proof (Q.le_min_l (duration m) (b + inc)).
      assert (b <= Qmin (duration m) (b + inc)) by (apply Q.min_glb; lra).
      destruct (loopStart m) as [a|]; [destruct Hs|];
        repeat split; try assumption; lra.
Qed.

(** X27.  Dragging and nudging keep the loop markers where they
    belong: from markers that lie inside the media with A not after B,
    any sequence of drags (on a progress bar that has a width) and
    nudges leaves such markers, and every seek these gestures ask of
    the looper is inside the media. *)
Theorem gestures_keep_markers_ordered (isAudio : bool) :
  forall (gs : list gesture) (m : markers),
    ordered m -> Forall onBar gs ->
    ordered (fst (performAll isAudio gs m)) /\
    duration (fst (performAll isAudio gs m)) = duration m /\
    Forall (fun t => 0 <= t /\ t <= duration m)
      (snd (performAll isAudio gs m)).
Proof.
  induction gs as [|g gs IH]; intros m Hm Hall.
  - cbn. auto.
  - inversion Hall as [|? ? Hg Hrest]; subst.
    destruct (perform_ordered isAudio g m Hm Hg) as (H1 & H2 & H3).
    cbn [performAll].
    destruct (perform isAudio g m) as [m1 sought]. cbn [fst snd] in *.
    destruct (IH m1 H1 Hrest) as (I1 & I2 & I3).
    destruct (performAll isAudio gs m1) as [m2 rest]. cbn [fst snd] in *.
    split; [exact I1|]. split; [congruence|].
    rewrite H2 in I3.
    destruct sought; [constructor; assumption|exact I3].
Qed.

End Markers.

(** ** The throttled state hook *)

Section Throttle.
Import JS ThrottledState.
Context {T : Type}.

Lemma spaced_snoc (gap x : Q) :
  forall l : list Q,
    spaced gap l ->
    (forall u, last l = Some u -> u + gap <= x) ->
    spaced gap (l ++ [x]).
Proof.
  induction l as [|a l IH]; intros Hs Hlast; [exact I|].
  destruct l as [|b l].
  - cbn. split; [|exact I]. apply Hlast. reflexivity.
  - cbn [app spaced] in *. destruct Hs as [Hab Hs].
    split; [exact Hab|]. apply IH; [exact Hs|].
    intros u Hu. apply Hlast. exact Hu.
Qed.

(** What every reachable state of the hook satisfies: the updates so
    far are spaced, [lastUpdate] is the time of the last of them, and
    an armed timeout is due one period after it. *)
Lemma step_spaced (throttleMs : Q) (e : event T) (s : t T) :
  spaced throttleMs (updates s) ->
  (forall u, last (updates s) = Some u -> u = lastUpdate s) ->
  (forall due, timeout s = Some due -> lastUpdate s + throttleMs <= due) ->
  let s' := step throttleMs e s in
  spaced throttleMs (updates s') /\
  (forall u, last (updates s') = Some u -> u = lastUpdate s') /\
  (forall due, timeout s' = Some due -> lastUpdate s' + throttleMs <= due).
Proof.
  intros Hs Hl Ht s'. unfold s'. clear s'.
  destruct e as [now v|now]; cbn [step].
  - unfold setThrottledState.
    destruct (geb (now - lastUpdate s) throttleMs) eqn:E;
      cbn [updates lastUpdate timeout].
    + unfold geb in E. apply Qle_bool_iff in E.
      split; [|split].
      * apply spaced_snoc; [exact Hs|].
        intros u Hu. rewrite (Hl u Hu). lra.
      * intros u Hu. rewrite last_snoc in Hu. congruence.
      * discriminate.
    + split; [exact Hs|]. split; [exact Hl|].
      intros due Hdue. destruct (timeout s) as [d|] eqn:Ed.
      * injection Hdue as <-. now apply Ht.
      * injection Hdue as <-.
        assert (X : now + (throttleMs - (now - lastUpdate s))
                    == lastUpdate s + throttleMs) by ring.
        rewrite X. apply Qle_refl.
  - destruct (timeout s) as [due|] eqn:Ed;
      [|split; [exact Hs|split; [exact Hl|now rewrite Ed]]].
    destruct (leb due now) eqn:E;
      [|split; [exact Hs|split; [exact Hl|now rewrite Ed]]].
    unfold leb in E. apply Qle_bool_iff in E.
    pose proof (Ht due eq_refl) as Hdue.
    unfold timeoutCallback. destruct (pendingUpdate s);
      cbn [updates lastUpdate timeout].
    + split; [|split].
      * apply spaced_snoc; [exact Hs|].
        intros u Hu. rewrite (Hl u Hu). lra.
      * intros u Hu. rewrite last_snoc in Hu. congruence.
      * discriminate.
    + split; [exact Hs|]. split; [exact Hl|]. discriminate.
Qed.

(** X28.  The hook throttles: whatever calls of the setter and
    timeouts happen, at whatever clock readings, two consecutive
    updates of the React state are at least [throttleMs] apart. *)
Theorem throttled_updates_are_spaced (throttleMs : Q) (initialValue : T) :
  forall es : list (event T),
    spaced throttleMs (updates (run throttleMs es (init initialValue))).
Proof.
  intros es.
  assert (G : forall (es : list (event T)) (s : t T),
             spaced throttleMs (updates s) ->
             (forall u, last (updates s) = Some u -> u = lastUpdate s) ->
             (forall due, timeout s = Some due ->
                          lastUpdate s + throttleMs <= due) ->
             spaced throttleMs (updates (run throttleMs es s))).
  { clear es. induction es as [|e es IH]; intros s Hs Hl Ht; [exact Hs|].
    destruct (step_spaced throttleMs e s Hs Hl Ht) as (A & B & C).
    unfold run. cbn [fold_left]. now apply IH. }
  apply G; cbn; [exact I|discriminate|discriminate].
Qed.

(** X29.  No value is lost: at any moment the last value handed to the
    setter is either the React state already, or it is pending with a
    timeout armed; in the second case the timeout, when it runs, makes
    it the state.  Before any call the state is the initial value. *)
Theorem last_value_is_delivered (throttleMs : Q) (initialValue : T) :
  forall es : list (event T),
    let s := run throttleMs es (init initialValue) in
    let v := match lastSet es None with
             | Some v => v
             | None => initialValue
             end in
    ((state s = v /\ pendingUpdate s = None) \/
     (pendingUpdate s = Some v /\ is_Some (timeout s))) /\
    forall now due,
      timeout s = Some due -> due <= now ->
      state (step throttleMs (Fire now) s) = v /\
      pendingUpdate (step throttleMs (Fire now) s) = None.
Proof.
  assert (G : forall (es : list (event T)) (s : t T) (v : T),
             (state s = v /\ pendingUpdate s = None) \/
             (pendingUpdate s = Some v /\ is_Some (timeout s)) ->
             exists v',
               lastSet es (Some v) = Some v' /\
               ((state (run throttleMs es s) = v' /\
                 pendingUpdate (run throttleMs es s) = None) \/
                (pendingUpdate (run throttleMs es s) = Some v' /\
                 is_Some (timeout (run throttleMs es s))))).
  { induction es as [|e es IH]; intros s v H; [exists v; auto|].
    unfold run. cbn [fold_left lastSet].
    destruct e as [now w|now].
    - apply (IH (step throttleMs (Set_ now w) s) w).
      cbn [step]. unfold setThrottledState.
      destruct (geb _ _); cbn [state pendingUpdate timeout].
      + left. auto.
      + right. split; [reflexivity|]. destruct (timeout s); eauto.
    - apply (IH (step throttleMs (Fire now) s) v).
      cbn [step]. case_eq (timeout s); [intros due Ed|intros Ed; exact H].
      destruct (leb due now); [|exact H].
      unfold timeoutCallback.
      destruct H as [[H1 H2]|[H1 H2]]; rewrite ?H1, ?H2;
        cbn [state pendingUpdate timeout]; left; auto. }
  intros es s v.
  assert (Hs : (state s = v /\ pendingUpdate s = None) \/
               (pendingUpdate s = Some v /\ is_Some (timeout s))).
  { unfold s, v.
    assert (E : forall es (o : option T),
               lastSet es o
               = match lastSet es None with
                 | Some x => Some x
                 | None => o
                 end).
    { clear. induction es as [|e es IH]; intros o; [reflexivity|].
      destruct e; cbn [lastSet]; [|apply IH].
      rewrite (IH (Some newValue)).
      destruct (lastSet es None); reflexivity. }
    destruct (G es (init initialValue) initialValue
                ltac:(left; split; reflexivity)) as (v' & Hv' & H).
    rewrite (E es (Some initialValue)) in Hv'.
    destruct (lastSet es None); injection Hv' as <-; exact H. }
  split; [exact Hs|].
  intros now due Hdue Hle. cbn [step]. rewrite Hdue.
  assert (E : leb due now = true) by (unfold leb; now apply Qle_bool_iff).
  rewrite E. unfold timeoutCallback.
  destruct Hs as [[H1 H2]|[H1 H2]]; rewrite ?H1, ?H2;
    cbn [state pendingUpdate]; auto.
Qed.

End Throttle.

(** ** The pointer guard hook *)

Section Guard.
Import PointerActionGuard.

Lemma run_separated :
  forall (es : list event) (g : t),
    separated es ->
    (handled g = true -> match es with Click :: _ => False | _ => True end) ->
    calls (run es g)
    = (calls g + List.length (List.filter isPointerDown es)
       + List.length (List.filter isClick es))%nat.
Proof.
  induction es as [|e es IH]; intros g Hsep Hh.
  - cbn. lia.
  - unfold run. cbn [fold_left]. fold (run es (handle e g)).
    assert (Hsep' : separated es).
    { destruct e; cbn [separated] in Hsep; try exact Hsep.
      destruct es as [|[] es']; try exact Hsep. contradiction. }
    rewrite IH; [|exact Hsep'|].
    + destruct e; cbn [handle List.filter isPointerDown isClick
                       List.length calls onPointerDown onPointerUp
                       onPointerCancel onClick]; try lia.
      destruct (handled g) eqn:E; [|lia].
      exfalso. exact (Hh eq_refl).
    + destruct e; cbn [handle handled onPointerDown onPointerUp
                       onPointerCancel onClick]; try discriminate.
      intros _. destruct es as [|[] es']; try exact I.
      exact Hsep.
Qed.

(** X30.  The guard against double firing holds a click back only when
    the click comes directly after the pointer-down.  In any sequence
    of events where something (a pointer-up, a pointer-cancel, another
    click) is delivered between a pointer-down and the next click, no
    click is held back: the action runs once for every pointer-down and
    once more for every click. *)
Theorem guard_lets_separated_clicks_through (es : list event) :
  separated es ->
  calls (run es init)
  = (List.length (List.filter isPointerDown es)
     + List.length (List.filter isClick es))%nat.
Proof.
  intros Hsep. rewrite (run_separated es init Hsep).
  - reflexivity.
  - discriminate.
Qed.

End Guard.

(** * The theorems at work on the sessions *)

Section Sessions.

(** The wrap of [demoWrap]: the cursor 7.5 lands inside the loop. *)
Lemma wrap_keeps_overshoot_witness :
  LoopProcessor.loopStartSample LoopProcessor.demoWrap
    <= LoopProcessor.wrapCursor LoopProcessor.demoWrap /\
  LoopProcessor.wrapCursor LoopProcessor.demoWrap
    < LoopProcessor.loopEndSample LoopProcessor.demoWrap.
Proof.
  assert (H1 : LoopProcessor.loopStartSample LoopProcessor.demoWrap
               < LoopProcessor.loopEndSample LoopProcessor.demoWrap)
    by reflexivity.
  assert (H2 : LoopProcessor.loopEndSample LoopProcessor.demoWrap
               <= inject_Z (JS.floor
                    (LoopProcessor.currentSample LoopProcessor.demoWrap)))
    by (vm_compute; discriminate).
  exact (proj1 (proj2 (wrap_keeps_overshoot LoopProcessor.demoWrap
                         1 0 [[0; 0]] [] eq_refl H1 H2))).
Defined.



(** C2, as stated, fails on [demoTenthLate]: the loop lasts 4410 frames
    at 44100 Hz, the next start time is the double 0.1 and the clock
    reads 1 s.  In doubles the step starts eleven segments, the last at
    1.0999999999999999, below the horizon 1.1, and leaves the next start
    time at the double 1.2, which is neither the initial value plus
    eleven times [4410 / 44100] nor that value plus eleven times the
    double of the duration; with exact numbers the same step starts ten
    segments. *)
Lemma rounded_schedule_is_not_exact :
  let w := WebAudioLooper.demoTenthLate in
  let w' := WebAudioLooper.result
              (WebAudioLooper.Rounded.scheduleBuffersAhead IEEE.double 12 w) in
  WebAudioLooper.loopDurationSamples w = 4410%Z /\
  WebAudioLooper.sampleRate w * WebAudioLooper.playbackRate w == 44100 /\
  WebAudioLooper.nextStartTime w = IEEE.double (1 # 10) /\
  WebAudioLooper.currentTime w == 1 /\
  WebAudioLooper.sources w = [] /\
  WebAudioLooper.Rounded.scheduleBuffersAhead IEEE.double 12 w
  = WebAudioLooper.Done w' /\
  List.length (WebAudioLooper.sources w') = 11%nat /\
  WebAudioLooper.nextStartTime w' == 5404319552844595 # 4503599627370496 /\
  ~ WebAudioLooper.nextStartTime w'
    == WebAudioLooper.nextStartTime w + 11 * (4410 / 44100) /\
  ~ WebAudioLooper.nextStartTime w'
    == WebAudioLooper.nextStartTime w
       + 11 * WebAudioLooper.Rounded.exactLoopDurationSeconds IEEE.double w /\
  List.length
    (WebAudioLooper.sources
       (WebAudioLooper.result (WebAudioLooper.scheduleBuffersAhead 12 w)))
  = 10%nat.
Proof.
  cbv zeta.
  split; [reflexivity|]. split; [reflexivity|]. split; [reflexivity|].
  split; [reflexivity|]. split; [reflexivity|].
  split; [vm_compute; reflexivity|].
  split; [vm_compute; reflexivity|].
  split; [vm_compute; reflexivity|].
  split; [vm_compute; discriminate|].
  split; [vm_compute; discriminate|].
  vm_compute; reflexivity.
Qed.

(** Right after [play] the horizon of [demoPlaying] is filled. *)
Lemma filled_horizon_is_noop_witness :
  exists w',
    WebAudioLooper.scheduleBuffersAhead 4 WebAudioLooper.demoPlaying
    = WebAudioLooper.Done w' /\
    WebAudioLooper.sources w'
    = WebAudioLooper.sources WebAudioLooper.demoPlaying /\
    WebAudioLooper.nextStartTime w'
    = WebAudioLooper.nextStartTime WebAudioLooper.demoPlaying.
Proof.
  assert (H : WebAudioLooper.currentTime WebAudioLooper.demoPlaying
              + WebAudioLooper.scheduleAheadTime WebAudioLooper.demoPlaying
              <= WebAudioLooper.nextStartTime WebAudioLooper.demoPlaying)
    by (vm_compute; discriminate).
  destruct (proj1 (filled_horizon_is_noop 4 WebAudioLooper.demoPlaying H))
    as (w' & Hrun & _ & Hs & Hn & _).
  exists w'. split; [exact Hrun|]. split; [exact Hs | exact Hn].
Defined.


(** C5, as stated, fails on the crossfade of five frames of the loop
    from 2 s to 4 s of the demo file, made with [Float.series]: the
    last frame read from the loop start is 0 and the last frame read
    before the loop end is 3/8; the gain of the latter is the square of
    [cosf(Float.pi * 0.5)], about 7.55e-8 and not 0, so the last frame
    of the crossfade is about 2.1e-15 and not the frame of the loop
    start. *)
Lemma crossfade_end_is_not_the_start :
  exists out endPtr startPtr,
    NativeAudioLooperImpl.makeCrossfadeBuffer Float.series
      NativeAudioLooperImpl.demoLoaded NativeAudioLooperImpl.demoFile
      88200 176400 5
    = NativeAudioLooperImpl.Returns (Some [out]) /\
    NativeAudioLooperImpl.readFrames NativeAudioLooperImpl.demoLoaded
      NativeAudioLooperImpl.demoFile 176395 5 = Some [endPtr] /\
    NativeAudioLooperImpl.readFrames NativeAudioLooperImpl.demoLoaded
      NativeAudioLooperImpl.demoFile 88200 5 = Some [startPtr] /\
    nth 4 endPtr 0 == 3 # 8 /\
    nth 4 startPtr 0 == 0 /\
    Float.cosf Float.series (Float.mul (Float.mul Float.pi (1 # 2)) 1)
    == 10625385 # 140737488355328 /\
    nth 4 out 0 == 2523485 # 1180591620717411303424 /\
    ~ nth 4 out 0 == nth 4 startPtr 0.
Proof.
  eexists. eexists. eexists.
  split; [vm_compute; reflexivity|].
  split; [vm_compute; reflexivity|].
  split; [vm_compute; reflexivity|].
  split; [reflexivity|]. split; [reflexivity|].
  split; [vm_compute; reflexivity|].
  split; [vm_compute; reflexivity|].
  vm_compute. discriminate.
Qed.


(** C6, as stated, fails on the loop processor playing the demo asset
    of eight frames without a loop: the first block of eight frames
    takes the cursor to 8, the end of the asset, and posts nothing; the
    next two blocks of four frames are silent, take the cursor to 12
    and to 16, leave the processor playing and post nothing: no end is
    notified and the cursor goes on. *)
Lemma processor_runs_past_the_end :
  exists p1 o1 p2 p3,
    LoopProcessor.isLooping LoopProcessor.demoPlain = false /\
    LoopProcessor.bufferLength LoopProcessor.demoPlain = 8%Z /\
    LoopProcessor.process LoopProcessor.demoPlain
      [[[9; 9; 9; 9; 9; 9; 9; 9]]]
    = JS.Ok (p1, o1, [], true) /\
    LoopProcessor.currentSample p1 == 8 /\
    LoopProcessor.process p1 [[[9; 9; 9; 9]]]
    = JS.Ok (p2, [[[0; 0; 0; 0]]], [], true) /\
    LoopProcessor.currentSample p2 == 12 /\
    LoopProcessor.isPlaying p2 = true /\
    LoopProcessor.process p2 [[[9; 9; 9; 9]]]
    = JS.Ok (p3, [[[0; 0; 0; 0]]], [], true) /\
    LoopProcessor.currentSample p3 == 16 /\
    LoopProcessor.isPlaying p3 = true.
Proof.
  eexists. eexists. eexists. eexists.
  split; [reflexivity|]. split; [reflexivity|].
  split; [vm_compute; reflexivity|]. split; [reflexivity|].
  split; [vm_compute; reflexivity|]. split; [reflexivity|].
  split; [reflexivity|].
  split; [vm_compute; reflexivity|]. split; reflexivity.
Qed.






Lemma demoWrap_wf : LoopProcessor.wf LoopProcessor.demoWrap.
Proof.
  split; [|split; reflexivity].
  split; [reflexivity|]. split; [discriminate|].
  repeat constructor.
Qed.

(** [process] returns on [demoWrap]. *)
Lemma process_returns_witness :
  exists r, LoopProcessor.process LoopProcessor.demoWrap [[[0; 0]]] = JS.Ok r.
Proof.
  assert (Hne : [[[0; 0]]] <> ([] : list (list (list Q))))
    by discriminate.
  exact (proj1 process_returns LoopProcessor.demoWrap [[[0; 0]]]
           demoWrap_wf Hne).
Defined.

(** C10, as stated, fails on [demoReverse]: its cursor is -2, the guard
    of the interpolation does not return early, and the first read is
    at index -2, outside the channel data. *)
Lemma negative_cursor_reads_outside :
  exists channelData,
    LoopProcessor.currentSample LoopProcessor.demoReverse == -2 /\
    LoopProcessor.audioBuffer LoopProcessor.demoReverse
    = Some LoopProcessor.demoBuffer /\
    LoopProcessor.getChannelData LoopProcessor.demoBuffer 0
    = JS.Ok channelData /\
    (JS.floor (LoopProcessor.currentSample LoopProcessor.demoReverse)
     >=? LoopProcessor.bufferLength LoopProcessor.demoReverse - 1)%Z
    = false /\
    JS.index channelData
      (JS.floor (LoopProcessor.currentSample LoopProcessor.demoReverse))
    = None /\
    exists r,
      LoopProcessor.process LoopProcessor.demoReverse [[[0; 0]]] = JS.Ok r.
Proof.
  eexists. split; [reflexivity|]. split; [reflexivity|].
  split; [reflexivity|]. split; [reflexivity|]. split; [reflexivity|].
  eexists. vm_compute. reflexivity.
Qed.

End Sessions.

(** * The further properties at work on the sessions *)

Section MoreSessions.

Lemma demoBuffer_wf : LoopProcessor.wf_buffer LoopProcessor.demoBuffer.
Proof.
  split; [reflexivity|]. split; [discriminate|]. repeat constructor.
Qed.

Lemma demoInputs_admissible :
  Forall LoopProcessor.admissible LoopProcessor.demoInputs.
Proof.
  repeat constructor; try exact demoBuffer_wf; discriminate.
Qed.

(** The session [demoInputs] on a processor at 44100 Hz. *)
Lemma session_never_throws_witness :
  exists p' rendered log,
    LoopProcessor.session LoopProcessor.demoInputs (LoopProcessor.init 44100)
    = JS.Ok (p', rendered, log) /\
    List.length rendered = 2%nat.
Proof.
  destruct (session_never_throws 44100 LoopProcessor.demoInputs
              demoInputs_admissible) as (p' & rendered & log & H & _ & Hn).
  exists p', rendered, log. split; [exact H | exact Hn].
Defined.

(** A block of two frames rendered by [demoWrap] keeps its shape. *)
Lemma process_keeps_shape_witness :
  exists p' output' log,
    LoopProcessor.process LoopProcessor.demoWrap [[[0; 0]]]
    = JS.Ok (p', [output'], log, true) /\
    LoopProcessor.sameShape [[0; 0]] output'.
Proof.
  destruct (LoopProcessor.process LoopProcessor.demoWrap [[[0; 0]]])
    as [[[[p' outputs'] log] keep]|] eqn:H; [|discriminate H].
  destruct (process_keeps_shape _ _ _ _ _ _ H) as (Hk & _ & Hshape).
  destruct (Hshape [[0; 0]] [] eq_refl) as (output' & Ho & Hs & _).
  exists p', output', log. subst outputs' keep.
  split; [reflexivity | exact Hs].
Defined.


(** [demoWrap], whose cursor is past the loop end, reads inside the
    region. *)
Lemma looping_stays_in_region_witness :
  LoopProcessor.readPosition LoopProcessor.demoWrap
  < LoopProcessor.loopEndSample LoopProcessor.demoWrap.
Proof.
  assert (H1 : 0 < LoopProcessor.loopEndSample LoopProcessor.demoWrap)
    by reflexivity.
  assert (H2 : LoopProcessor.loopStartSample LoopProcessor.demoWrap
               < LoopProcessor.loopEndSample LoopProcessor.demoWrap)
    by reflexivity.
  assert (H3 : LoopProcessor.loopEndSample LoopProcessor.demoWrap
               == inject_Z 6) by reflexivity.
  assert (H4 : 0 <= LoopProcessor.playbackRate LoopProcessor.demoWrap)
    by (vm_compute; discriminate).
  exact (proj1 (proj1 (looping_stays_in_region LoopProcessor.demoWrap 6
                         eq_refl H1 H2 H3 H4))).
Defined.

(** Interpolating between samples 2 and 3 of the demo asset. *)
Lemma interpolation_between_neighbours_witness :
  exists channelData s1 s2,
    LoopProcessor.getChannelData LoopProcessor.demoBuffer 0
    = JS.Ok channelData /\
    channelData !! 2%nat = Some s1 /\
    channelData !! 3%nat = Some s2 /\
    LoopProcessor.getInterpolatedSample LoopProcessor.demoWrap 2 (1 # 2) 0
    = JS.Ok (s1 + (s2 - s1) * (1 # 2)).
Proof.
  assert (Hi : (0 <= 2 < LoopProcessor.bufferLength LoopProcessor.demoWrap
                         - 1)%Z)
    by (vm_compute; split; [discriminate | reflexivity]).
  assert (Hc : (0 < LoopProcessor.bufferChannels LoopProcessor.demoWrap)%nat)
    by (vm_compute; constructor).
  destruct (proj1 (interpolation_between_neighbours LoopProcessor.demoWrap
                     LoopProcessor.demoBuffer 0 2 demoWrap_wf eq_refl Hc Hi))
    as (channelData & s1 & s2 & Hd & H1 & H2 & Hf).
  exists channelData, s1, s2.
  split; [exact Hd|]. split; [exact H1|]. split; [exact H2|].
  exact (proj1 (Hf (1 # 2))).
Defined.

(** The crossfade helper of a processor at 44100 Hz spans 44 samples. *)
Lemma applyCrossfade_blends_witness :
  (1 <= LoopProcessor.crossfadeSamples (LoopProcessor.init 44100))%Z /\
  LoopProcessor.applyCrossfade (LoopProcessor.init 44100) 1 0 0 == 1.
Proof.
  assert (H : 1000 <= LoopProcessor.sampleRate (LoopProcessor.init 44100))
    by (vm_compute; discriminate).
  destruct (applyCrossfade_blends (LoopProcessor.init 44100) 1 0 H)
    as (H1 & H2 & _).
  split; [exact H1 | exact H2].
Defined.

Lemma demoPair_ready :
  AudioWorkletLooper.workletNode (fst AudioWorkletLooper.demoPair) = true /\
  AudioWorkletLooper.audioBuffer (fst AudioWorkletLooper.demoPair)
  = Some AudioWorkletLooper.demoAudio.
Proof. split; reflexivity. Qed.


(** Looping the demo pair from 0.25 s to 0.75 s: samples 2 to 6. *)
Lemma facade_loop_points_witness :
  let f := fst AudioWorkletLooper.demoPair in
  let p := snd AudioWorkletLooper.demoPair in
  let after := AudioWorkletLooper.post
                 (snd (AudioWorkletLooper.setLoopPoints (1 # 4) (3 # 4) f))
                 (fst (AudioWorkletLooper.setLoopPoints (1 # 4) (3 # 4) f),
                  p) in
  LoopProcessor.loopStartSample (snd after)
  = inject_Z (AudioWorkletLooper.round ((1 # 4) * 8)) /\
  LoopProcessor.loopEndSample (snd after)
  = inject_Z (AudioWorkletLooper.round ((3 # 4) * 8)).
Proof.
  assert (Hr : 0 < AudioWorkletLooper.bufferRate AudioWorkletLooper.demoAudio)
    by reflexivity.
  destruct (facade_loop_points (fst AudioWorkletLooper.demoPair)
              (snd AudioWorkletLooper.demoPair)
              AudioWorkletLooper.demoAudio (1 # 4) (3 # 4)
              (proj1 demoPair_ready) (proj2 demoPair_ready) Hr)
    as (H1 & H2 & _).
  split; [exact H1 | exact H2].
Defined.

(** A user session on the demo facade with two rendered blocks. *)
Lemma facade_session_is_safe_witness :
  exists f' p',
    AudioWorkletLooper.drive
      [AudioWorkletLooper.Call (AudioWorkletLooper.Load
                                  AudioWorkletLooper.demoAudio);
       AudioWorkletLooper.Call AudioWorkletLooper.Play;
       AudioWorkletLooper.Call (AudioWorkletLooper.SetVolume (1 # 2));
       AudioWorkletLooper.Block [[[0; 0]]];
       AudioWorkletLooper.Call (AudioWorkletLooper.Seek 100);
       AudioWorkletLooper.Block [[[0; 0]]]]
      (AudioWorkletLooper.demoReady, LoopProcessor.init 8)
    = JS.Ok (f', p') /\
    LoopProcessor.volume p' = 1.
Proof.
  assert (Hall : Forall AudioWorkletLooper.allowed
            [AudioWorkletLooper.Call (AudioWorkletLooper.Load
                                        AudioWorkletLooper.demoAudio);
             AudioWorkletLooper.Call AudioWorkletLooper.Play;
             AudioWorkletLooper.Call (AudioWorkletLooper.SetVolume (1 # 2));
             AudioWorkletLooper.Block [[[0; 0]]];
             AudioWorkletLooper.Call (AudioWorkletLooper.Seek 100);
             AudioWorkletLooper.Block [[[0; 0]]]]).
  { repeat constructor; try exact demoBuffer_wf; discriminate. }
  destruct (facade_session_is_safe _ AudioWorkletLooper.demoReady
              (LoopProcessor.init 8) (wf_init 8) Hall)
    as (f' & p' & Hd & _ & Hv).
  exists f', p'. split; [exact Hd | exact Hv].
Defined.

Lemma demoLoop_ready : WebAudioLooper.ready WebAudioLooper.demoLoop.
Proof.
  split; [reflexivity|]. split; [eexists; reflexivity | reflexivity].
Qed.

Lemma demoLoop_looping : WebAudioLooper.looping WebAudioLooper.demoLoop.
Proof. split; reflexivity. Qed.


(** Pausing [demoPlaying] twice. *)
Lemma pause_twice_witness :
  WebAudioLooper.pause
    (WebAudioLooper.result (WebAudioLooper.pause WebAudioLooper.demoPlaying))
  = WebAudioLooper.Done
      (WebAudioLooper.result
         (WebAudioLooper.pause WebAudioLooper.demoPlaying)).
Proof.
  assert (H : WebAudioLooper.pause WebAudioLooper.demoPlaying
              = WebAudioLooper.Done
                  (WebAudioLooper.result
                     (WebAudioLooper.pause WebAudioLooper.demoPlaying)))
    by (vm_compute; reflexivity).
  exact (pause_twice _ _ H).
Defined.

(** [demoLoop] is played; the frame 1/60 s later schedules the first
    cycle at [startTime]. *)
Lemma first_cycle_starts_at_startTime_witness :
  exists (fuel : nat) (w1 w2 : WebAudioLooper.t)
         (node : WebAudioLooper.SourceNode) (when : Q),
    WebAudioLooper.play 0 WebAudioLooper.demoLoop = WebAudioLooper.Done w1 /\
    WebAudioLooper.step fuel (WebAudioLooper.Frame (1 # 60)) w1
    = WebAudioLooper.Done w2 /\
    WebAudioLooper.sources w2 !! 0%nat = Some node /\
    when == WebAudioLooper.startTime w1.
Proof.
  assert (H1 : 0 < WebAudioLooper.exactLoopDurationSeconds
                     WebAudioLooper.demoLoop) by reflexivity.
  assert (H2 : 0 <= WebAudioLooper.loopStart WebAudioLooper.demoLoop)
    by (vm_compute; discriminate).
  assert (H3 : 0 <= WebAudioLooper.currentTime WebAudioLooper.demoLoop
                    + WebAudioLooper.scheduleAheadTime
                        WebAudioLooper.demoLoop)
    by (vm_compute; discriminate).
  assert (H4 : WebAudioLooper.currentTime WebAudioLooper.demoLoop < 1 # 60)
    by reflexivity.
  destruct (first_cycle_starts_at_startTime WebAudioLooper.demoLoop (1 # 60)
              demoLoop_ready demoLoop_looping eq_refl H1 H2 H3 H4)
    as (fuel & w1 & w2 & node & when & Hp & _ & _ & _ & _ & _ & Hs & Hn & _
        & Hw).
  exists fuel, w1, w2, node, when.
  split; [exact (Hp 0%nat)|]. split; [exact Hs|].
  split; [exact Hn | exact Hw].
Defined.



(** The loaded asset put in loop mode without loop points: it plays,
    and its first frame never ends. *)
Lemma empty_loop_hangs_first_frame_witness :
  let w := WebAudioLooper.setLooping true WebAudioLooper.demoLoaded in
  exists w1 : WebAudioLooper.t,
    WebAudioLooper.play 4 w = WebAudioLooper.Done w1 /\
    WebAudioLooper.step 1000 (WebAudioLooper.Frame (1 # 60)) w1
    = WebAudioLooper.OutOfFuel.
Proof.
  intros w.
  assert (Hr : WebAudioLooper.ready w).
  { split; [reflexivity|]. split; [eexists; reflexivity | reflexivity]. }
  assert (Hl : WebAudioLooper.looping w) by (split; reflexivity).
  assert (H1 : 0 < WebAudioLooper.sampleRate w) by reflexivity.
  assert (H2 : 0 < WebAudioLooper.playbackRate w) by reflexivity.
  assert (H3 : 0 <= WebAudioLooper.loopStart w)
    by (vm_compute; discriminate).
  assert (H4 : 0 <= WebAudioLooper.currentTime w
                    + WebAudioLooper.scheduleAheadTime w)
    by (vm_compute; discriminate).
  assert (H5 : WebAudioLooper.currentTime w < 1 # 60) by reflexivity.
  destruct (empty_loop_hangs_first_frame w (1 # 60) Hr Hl eq_refl eq_refl
              H1 H2 H3 H4 H5) as (w1 & Hp & _ & Hh).
  exists w1. split; [exact (Hp 4%nat) | exact (Hh 1000%nat)].
Defined.


(** Seeking the paused asset of 10 s to 11 s, then playing. *)
Lemma seek_outside_asset_raises_witness :
  WebAudioLooper.andThen
    (WebAudioLooper.seek 4 11 WebAudioLooper.demoLoaded)
    (WebAudioLooper.play 4)
  = WebAudioLooper.Raised JS.RangeError.
Proof.
  assert (H : 11 < 0
              \/ WebAudioLooper.duration {| WebAudioLooper.duration := 10 |}
                 < 11) by (right; reflexivity).
  exact (proj1 (seek_outside_asset_raises 4 WebAudioLooper.demoLoaded
                  {| WebAudioLooper.duration := 10 |} 11
                  eq_refl eq_refl eq_refl eq_refl H) eq_refl).
Defined.

(** The loaded asset is played, paused, and the [ended] event of its
    source arrives. *)
Lemma pause_then_ended_loses_position_witness :
  let w := WebAudioLooper.result
             (WebAudioLooper.play 4 WebAudioLooper.demoLoaded) in
  exists w1 w2 : WebAudioLooper.t,
    WebAudioLooper.pause w = WebAudioLooper.Done w1 /\
    WebAudioLooper.step 4 (WebAudioLooper.SourceEnded 0) w1
    = WebAudioLooper.Done w2 /\
    WebAudioLooper.pausedAt w2 = 0.
Proof.
  intros w.
  assert (Hn : exists node,
             WebAudioLooper.sources w !! 0%nat = Some node /\
             is_Some (WebAudioLooper.src_started node) /\
             WebAudioLooper.src_onended node = true /\
             WebAudioLooper.src_dispatched node = false).
  { eexists. split; [vm_compute; reflexivity|].
    split; [eexists; reflexivity|]. split; reflexivity. }
  destruct Hn as (node & Hi & Hs & Ho & Hd).
  destruct (pause_then_ended_loses_position w 0 node eq_refl eq_refl Hi Hs
              Ho Hd) as (w1 & Hp & _ & Hstep).
  destruct (Hstep 4%nat) as (w2 & H2 & Hz & _).
  exists w1, w2. split; [exact Hp|]. split; [exact H2 | exact Hz].
Defined.

(** The loop of the first four seconds on the loaded demo file. *)
Lemma demoFirstFour_fits :
  NativeAudioLooperImpl.fits
    (NativeAudioLooperImpl.result NativeAudioLooperImpl.demoLoaded
       (NativeAudioLooperImpl.setLoopPoints 0 4
          NativeAudioLooperImpl.demoLoaded)).
Proof. repeat split; lazy; first [reflexivity | discriminate]. Qed.

(** The first four seconds of the demo file as one cycle: 176400
    frames. *)
Lemma cycle_lasts_the_region_witness :
  let s := NativeAudioLooperImpl.result NativeAudioLooperImpl.demoLoaded
             (NativeAudioLooperImpl.setLoopPoints 0 4
                NativeAudioLooperImpl.demoLoaded) in
  exists s1 s',
    NativeAudioLooperImpl.scheduleNextCycle true s
    = NativeAudioLooperImpl.Returns s1 /\
    NativeAudioLooperImpl.runNext Float.series s1
    = NativeAudioLooperImpl.Returns s' /\
    NativeAudioLooperImpl.queuedFrames (NativeAudioLooperImpl.playerQueue s')
    = 176400%Z.
Proof.
  intros s.
  set (buf := match NativeAudioLooperImpl.makeCrossfadeBuffer Float.series s
                      NativeAudioLooperImpl.demoFile
                      (NativeAudioLooperImpl.loopStartFrame s)
                      (NativeAudioLooperImpl.loopEndFrame s)
                      (NativeAudioLooperImpl.cfFrames s)
              with
              | NativeAudioLooperImpl.Returns (Some b) => b
              | _ => []
              end).
  assert (Hx : NativeAudioLooperImpl.makeCrossfadeBuffer Float.series s
                 NativeAudioLooperImpl.demoFile
                 (NativeAudioLooperImpl.loopStartFrame s)
                 (NativeAudioLooperImpl.loopEndFrame s)
                 (NativeAudioLooperImpl.cfFrames s)
               = NativeAudioLooperImpl.Returns (Some buf))
    by reflexivity.
  assert (Hc : (1 <= NativeAudioLooperImpl.channelCount
                       {| NativeAudioLooperImpl.channelCount := 1 |})%nat)
    by constructor.
  assert (Hpos : (0 < NativeAudioLooperImpl.loopEndFrame s
                      - NativeAudioLooperImpl.loopStartFrame s)%Z)
    by reflexivity.
  assert (Hle : (NativeAudioLooperImpl.cfFrames s
                 <= NativeAudioLooperImpl.loopEndFrame s
                    - NativeAudioLooperImpl.loopStartFrame s)%Z)
    by (lazy; discriminate).
  destruct (cycle_lasts_the_region Float.series s
              NativeAudioLooperImpl.demoFile
              {| NativeAudioLooperImpl.channelCount := 1 |} buf
              eq_refl eq_refl Hc eq_refl demoFirstFour_fits Hpos Hx)
    as (s1 & s' & H1 & H2 & _ & _ & Hframes & _).
  exists s1, s'. split; [exact H1|]. split; [exact H2|].
  exact (Hframes Hle).
Defined.


Lemma demoRequest_integer :
  inject_Z (Qfloor (WaveformWorker.actualStartSample
                      WaveformWorker.demoRequest))
  == WaveformWorker.actualStartSample WaveformWorker.demoRequest.
Proof. reflexivity. Qed.

(** The three bins of [demoRequest]. *)
Lemma waveform_holds_the_peaks_witness :
  exists (fuel : nat) (st : WaveformWorker.state),
    WaveformWorker.onmessage fuel WaveformWorker.demoRequest = Some st /\
    List.length (WaveformWorker.waveformData st) = 3%nat.
Proof.
  destruct (waveform_holds_the_peaks WaveformWorker.demoRequest
              demoRequest_integer)
    as (fuel & st & progress & Hrun & _ & _ & Hdata).
  exists fuel, st. split; [exact (Hrun fuel (le_n fuel))|].
  rewrite Hdata. reflexivity.
Defined.

(** Bin 1 of [demoRequest] holds a number that is not negative. *)
Lemma bin_is_an_attained_bound_witness :
  exists m : Q,
    WaveformWorker.bin WaveformWorker.demoRequest (inject_Z (Z.of_nat 1))
    = WaveformWorker.Number m /\
    0 <= m.
Proof.
  assert (Hs : ~ WaveformWorker.samples WaveformWorker.demoRequest == 0)
    by (intros H; discriminate H).
  destruct (bin_is_an_attained_bound WaveformWorker.demoRequest 1
              Hs demoRequest_integer) as (m & Hb & H0 & _).
  exists m. split; [exact Hb | exact H0].
Defined.



Lemma demoMarkers_ordered : PlayerInterface.ordered PlayerInterface.demoMarkers.
Proof. repeat split; vm_compute; discriminate. Qed.

(** A drag of the start marker and two nudges on the markers of the
    session. *)
Lemma gestures_keep_markers_ordered_witness :
  PlayerInterface.ordered
    (fst (PlayerInterface.performAll true
            [PlayerInterface.Drag PlayerInterface.start 0 100 30;
             PlayerInterface.NudgeEnd PlayerInterface.right;
             PlayerInterface.NudgeStart PlayerInterface.left]
            PlayerInterface.demoMarkers)).
Proof.
  assert (Hall : Forall PlayerInterface.onBar
            [PlayerInterface.Drag PlayerInterface.start 0 100 30;
             PlayerInterface.NudgeEnd PlayerInterface.right;
             PlayerInterface.NudgeStart PlayerInterface.left]).
  { constructor; [reflexivity|]. repeat constructor. }
  exact (proj1 (gestures_keep_markers_ordered true _
                  PlayerInterface.demoMarkers demoMarkers_ordered Hall)).
Defined.

(** Two calls 50 ms apart with a period of 100 ms: the second value is
    delivered by the timeout. *)
Lemma last_value_is_delivered_witness :
  ThrottledState.state
    (ThrottledState.step 100 (ThrottledState.Fire 1100)
       (ThrottledState.run 100
          [ThrottledState.Set_ 1000 1%nat; ThrottledState.Set_ 1050 2%nat]
          (ThrottledState.init 0%nat)))
  = 2%nat.
Proof.
  assert (H : 1050 + (100 - (1050 - 1000)) <= 1100)
    by (vm_compute; discriminate).
  exact (proj1 (proj2 (last_value_is_delivered 100 0%nat
                         [ThrottledState.Set_ 1000 1%nat;
                          ThrottledState.Set_ 1050 2%nat])
                  1100 (1050 + (100 - (1050 - 1000))) eq_refl H)).
Defined.

(** A tap as three events: the action runs twice. *)
Lemma guard_lets_separated_clicks_through_witness :
  PointerActionGuard.calls
    (PointerActionGuard.run
       [PointerActionGuard.PointerDown; PointerActionGuard.PointerUp;
        PointerActionGuard.Click]
       PointerActionGuard.init)
  = 2%nat.
Proof.
  assert (H : PointerActionGuard.separated
                [PointerActionGuard.PointerDown; PointerActionGuard.PointerUp;
                 PointerActionGuard.Click]) by exact I.
  exact (guard_lets_separated_clicks_through _ H).
Defined.

End MoreSessions.

